(** * pg-idle-guard: the daemon's poll / evaluate / alert cycle

    A shallow embedding of the monitoring core of pguard
    (package [cli]: [canSendPoolAlert], [pollAndAlert], [shouldTerminate],
    [monitorLoop], [getSeverity]; package [postgres]: [IdleDuration],
    [UsagePercent]; package [config]: [Validate]; package [util]:
    [Truncate], [TruncateQuery]) together with the properties of the
    alerting state machine.

    Conventions of the embedding
    - Go's [int] and [time.Duration] are 64-bit; they are carried by [Z],
      with wrap-around written out where the code does arithmetic.
    - [time.Time] is an instant counted in nanoseconds from the zero Time;
      [Time.Sub] saturates as documented by the Go library.
    - [float64] is the primitive binary64 type of Rocq.
    - [map[int]*trackedIdle] is a [gmap Z trackedIdle]; the table holds
      pointers, so a store through the pointer is an update of the table.
    - The calls a cycle makes to its collaborators (the alert senders and
      [TerminateBackend]) are collected, in program order, in a trace.
      Writes to the logger are not part of the trace. *)

From Stdlib Require Import ZArith Ascii String List Lia Bool PrimFloat Uint63.
From stdpp Require Import base option list gmap strings.
Import ListNotations.

#[local] Open Scope string_scope.
#[local] Open Scope list_scope.
#[local] Open Scope Z_scope.

(** ** Go's machine integers and the [time] package *)

Module GoTime.

(** [time.Duration] is an [int64] count of nanoseconds. *)
Definition Duration := Z.

Definition minDuration : Duration := - 2 ^ 63.
Definition maxDuration : Duration := 2 ^ 63 - 1.

Definition Nanosecond : Duration := 1.
Definition Second : Duration := 1000000000.
Definition Minute : Duration := 60 * Second.
Definition Hour : Duration := 60 * Minute.

(** Range of an [int64]. *)
Definition int64 (z : Z) : Prop := minDuration <= z <= maxDuration.

(** Two's complement wrap-around of [int] arithmetic. *)
Definition wrap64 (z : Z) : Z := (z + 2 ^ 63) mod 2 ^ 64 - 2 ^ 63.

Definition sub64 (a b : Z) : Z := wrap64 (a - b).

(** An instant, in nanoseconds since the zero [time.Time]. *)
Definition Time := Z.

(** The zero value of [time.Time]. *)
Definition zeroTime : Time := 0.

(** [t.Sub(u)]: the duration [t - u]; when it does not fit a [Duration]
    the maximum (or minimum) duration is returned. *)
Definition Sub (t u : Time) : Duration :=
  if maxDuration <? t - u then maxDuration
  else if t - u <? minDuration then minDuration
  else t - u.

End GoTime.
Import GoTime.

(** ** Package [alerts]: severity levels *)

Module alerts.

Definition SeverityWarning : string := "warning".
Definition SeverityCritical : string := "critical".
Definition SeverityInfo : string := "info".
Definition SeverityResolved : string := "resolved".

End alerts.

(** ** Package [config] *)

Module config.

Record ConnectionConfig := {
  URL : string;
  Host : string
}.

Record IdleTransactionThresholds := {
  Warning : Duration;
  Critical : Duration
}.

Record ConnectionPoolThresholds := {
  WarningPercent : Z;
  CriticalPercent : Z
}.

Record ThresholdsConfig := {
  IdleTransaction : IdleTransactionThresholds;
  ConnectionPool : ConnectionPoolThresholds
}.

Record AlertsConfig := {
  Cooldown : Duration
}.

Record ProtectedApp := {
  Name : string;
  MinIdleDuration : Duration;
  RequireConfirmation : bool
}.

Record AutoTermConfig := {
  Enabled : bool;
  After : Duration;
  DryRun : bool;
  ExcludeApps : list string;
  ExcludeIPs : list string;
  ProtectedApps : list ProtectedApp
}.

Record Config := {
  Connection : ConnectionConfig;
  Thresholds : ThresholdsConfig;
  Alerts : AlertsConfig;
  AutoTerm : AutoTermConfig
}.

(** [Config.Validate]: [None] is the nil error.  [databaseURL] is the
    value of the environment variable DATABASE_URL. *)
Definition Validate (databaseURL : string) (c : Config) : option string :=
  if String.eqb (URL (Connection c)) "" && String.eqb (Host (Connection c)) ""
     && String.eqb databaseURL ""
  then Some "no database connection configured: set connection.url, connection.host, or DATABASE_URL"
  else if Critical (IdleTransaction (Thresholds c)) <=? Warning (IdleTransaction (Thresholds c))
  then Some "idle_transaction.warning must be less than critical"
  else if CriticalPercent (ConnectionPool (Thresholds c)) <=? WarningPercent (ConnectionPool (Thresholds c))
  then Some "connection_pool.warning_percent must be less than critical_percent"
  else None.

End config.

(** ** Package [cli]: the pool-alert cooldown gate *)

(** [alertCooldown] tracks last alert times to prevent spam. *)
Record alertCooldown := {
  lastPoolWarning : Time;
  lastPoolCritical : Time
}.

(** [var cooldown = &alertCooldown{}]: both fields are the zero Time. *)
Definition cooldown0 : alertCooldown :=
  {| lastPoolWarning := zeroTime; lastPoolCritical := zeroTime |}.

(** [canSendPoolAlert]; [now] is the value [time.Now()] returns in the
    first statement.  The result pairs the returned boolean with the
    receiver after the call. *)
Definition canSendPoolAlert (now : Time) (a : alertCooldown)
    (severity : string) (cooldownDuration : Duration) : bool * alertCooldown :=
  if String.eqb severity alerts.SeverityWarning then
    if cooldownDuration <=? Sub now (lastPoolWarning a) then
      (true, {| lastPoolWarning := now; lastPoolCritical := lastPoolCritical a |})
    else (false, a)
  else if String.eqb severity alerts.SeverityCritical then
    if cooldownDuration <=? Sub now (lastPoolCritical a) then
      (true, {| lastPoolWarning := lastPoolWarning a; lastPoolCritical := now |})
    else (false, a)
  else (false, a).

(** ** Package [util]: query text *)

Module util.

Definition byte (c : ascii) : Z := Z.of_N (N_of_ascii c).

(** Width in bytes of the white-space rune that starts [s], [0%nat] when
    [s] does not start with one.  These are the runes for which Go's
    [unicode.IsSpace] is true, in their UTF-8 encoding: U+0009..U+000D,
    U+0020, U+0085, U+00A0, U+1680, U+2000..U+200A, U+2028, U+2029,
    U+202F, U+205F, U+3000.  A lead byte is never a continuation byte,
    so every such rune is met at its first byte by a decoder that
    walks the string rune by rune. *)
Definition spaceWidth (s : string) : nat :=
  match s with
  | EmptyString => 0%nat
  | String c0 r0 =>
      let b0 := byte c0 in
      if (9 <=? b0) && (b0 <=? 13) || (b0 =? 32) then 1%nat
      else
        match r0 with
        | EmptyString => 0%nat
        | String c1 r1 =>
            let b1 := byte c1 in
            if (b0 =? 194) && ((b1 =? 133) || (b1 =? 160)) then 2%nat
            else
              match r1 with
              | EmptyString => 0%nat
              | String c2 _ =>
                  let b2 := byte c2 in
                  if (b0 =? 225) && (b1 =? 154) && (b2 =? 128) then 3%nat
                  else if (b0 =? 226) && (b1 =? 128)
                          && ((128 <=? b2) && (b2 <=? 138) || (b2 =? 168)
                              || (b2 =? 169) || (b2 =? 175)) then 3%nat
                  else if (b0 =? 226) && (b1 =? 129) && (b2 =? 159) then 3%nat
                  else if (b0 =? 227) && (b1 =? 128) && (b2 =? 128) then 3%nat
                  else 0%nat
              end
        end
  end.

Definition flush (cur : string) : list string :=
  match cur with EmptyString => [] | _ => [cur] end.

(** The scan of [strings.Fields]: [skip] bytes of a white-space rune are
    still to be passed, [cur] is the field read so far. *)
Fixpoint fieldsFrom (s : string) (skip : nat) (cur : string) : list string :=
  match s with
  | EmptyString => flush cur
  | String c r =>
      match skip with
      | S k => fieldsFrom r k cur
      | O =>
          match spaceWidth s with
          | O => fieldsFrom r 0%nat (String.append cur (String c EmptyString))
          | S k => flush cur ++ fieldsFrom r k EmptyString
          end
      end
  end.

(** [strings.Fields]. *)
Definition Fields (s : string) : list string := fieldsFrom s 0%nat EmptyString.

(** [strings.Join]. *)
Definition Join (elems : list string) (sep : string) : string :=
  String.concat sep elems.

(** [Truncate] shortens a string to [maxLen] bytes, adding "..." if
    truncated.  The slice [s[:maxLen-3]] panics in Go when [maxLen < 3]
    and [len(s) > maxLen]; the daemon calls it with [maxLen = 100] only,
    and here the slice is then empty. *)
Definition Truncate (s : string) (maxLen : Z) : string :=
  if Z.of_nat (String.length s) <=? maxLen then s
  else String.append (String.substring 0 (Z.to_nat (maxLen - 3)) s) "...".

(** [TruncateQuery] truncates a query string, first normalizing
    whitespace. *)
Definition TruncateQuery (s : string) (maxLen : Z) : string :=
  Truncate (Join (Fields s) " ") maxLen.

End util.

(** ** Package [postgres]: the snapshot *)

Module postgres.

(** A row of pg_stat_activity; the fields the daemon reads. *)
Record Connection := {
  PID : Z;
  ApplicationName : string;
  ClientAddr : string;
  StateChange : Time;
  Query : string
}.

(** [IdleDuration] is [time.Since(c.StateChange)]; [now] is the reading
    of the clock that [time.Since] takes. *)
Definition IdleDuration (now : Time) (c : Connection) : Duration :=
  Sub now (StateChange c).

Record PoolStats := {
  MaxConnections : Z;
  ReservedSuperuser : Z;
  TotalConnections : Z;
  ActiveConnections : Z;
  IdleConnections : Z;
  IdleInTransaction : Z;
  AvailableConnections : Z
}.

(** The conversion [float64(n)] of an [int]: the nearest binary64 value. *)
Definition float64_of_int (n : Z) : float :=
  if n =? - 2 ^ 63 then (- (of_uint63 (Uint63.of_Z (2 ^ 62)) * 2))%float
  else if n <? 0 then (- of_uint63 (Uint63.of_Z (- n)))%float
  else of_uint63 (Uint63.of_Z n).

(** [UsagePercent] returns the percentage of connections in use. *)
Definition UsagePercent (p : PoolStats) : float :=
  let available := sub64 (MaxConnections p) (ReservedSuperuser p) in
  if available <=? 0 then 100%float
  else (float64_of_int (TotalConnections p) / float64_of_int available * 100)%float.

End postgres.

(** Results of the calls to the database client: a value or an error. *)
Inductive result (A : Type) : Type :=
| Ok (a : A)
| Err (msg : string).
Arguments Ok {A} a.
Arguments Err {A} msg.

(** ** Package [cli]: status command *)

(** [getSeverity]: the tag the status command prints for an idle
    transaction. *)
Definition getSeverity (duration : Duration) (cfg : config.Config) : string :=
  if config.Critical (config.IdleTransaction (config.Thresholds cfg)) <=? duration then "[CRIT]"
  else if config.Warning (config.IdleTransaction (config.Thresholds cfg)) <=? duration then "[WARN]"
  else "".


(** ** Package [cli]: the daemon *)

(** [trackedIdle] keeps state for alerting. *)
Record trackedIdle := {
  pid : Z;
  appName : string;
  query : string;
  firstSeen : Time;
  warningSent : bool;
  criticalSent : bool
}.

(** The calls of a cycle to its collaborators: the four alert helpers,
    which hand the alert to every configured channel, and the client's
    [TerminateBackend]. *)
Inductive Effect :=
| sendPoolAlert (severity : string) (used maxConns : Z) (percent : float)
| sendIdleTransactionAlert (severity : string) (pid : Z) (appName : string)
    (duration : Duration) (query : string)
| callTerminateBackend (pid : Z)
| sendTerminationAlert (pid : Z) (appName : string) (duration : Duration)
    (reason : string)
| sendResolvedAlert (pid : Z) (appName : string) (duration : Duration).

(** What the environment answers during one tick of the ticker:
    - [Now k] is the value of the [k]-th call of [time.Now()] in the cycle
      (counted from 0; [time.Since] makes one call);
    - [GetPoolStats] and [GetIdleTransactions] are the results of the two
      fetches, an error standing also for the expiry of the query context;
    - [TerminateBackend p] is the result of terminating backend [p];
    - [rangeTracked m] is the order in which [range] walks the table [m]:
      Go leaves it unspecified. *)
Record Cycle := {
  Now : nat -> Time;
  GetPoolStats : result postgres.PoolStats;
  GetIdleTransactions : result (list postgres.Connection);
  TerminateBackend : Z -> result bool;
  rangeTracked : gmap Z trackedIdle -> list (Z * trackedIdle)
}.

(** A [range] over a map yields every entry once. *)
Definition rangeOK (cyc : Cycle) : Prop :=
  forall m : gmap Z trackedIdle, rangeTracked cyc m ≡ₚ map_to_list m.

(** The state that outlives a cycle: the package variable [cooldown] and
    the table [tracked] that [monitorLoop] owns. *)
Record Daemon := {
  cooldown : alertCooldown;
  tracked : gmap Z trackedIdle
}.

(** [shouldTerminate]: the loop over the protected applications. *)
Fixpoint protectedLoop (conn : postgres.Connection) (duration : Duration)
    (apps : list config.ProtectedApp) : bool :=
  match apps with
  | [] => true
  | protected :: rest =>
      if String.eqb (postgres.ApplicationName conn) (config.Name protected) then
        if config.RequireConfirmation protected then false
        else if duration <? config.MinIdleDuration protected then false
        else true
      else protectedLoop conn duration rest
  end.

(** [shouldTerminate]: the two exclusion loops return false at the first
    equal element. *)
Definition shouldTerminate (cfg : config.Config) (conn : postgres.Connection)
    (duration : Duration) : bool :=
  if existsb (String.eqb (postgres.ApplicationName conn))
       (config.ExcludeApps (config.AutoTerm cfg)) then false
  else if existsb (String.eqb (postgres.ClientAddr conn))
       (config.ExcludeIPs (config.AutoTerm cfg)) then false
  else protectedLoop conn duration (config.ProtectedApps (config.AutoTerm cfg)).

(** The branch of [pollAndAlert] taken on the pool usage: the critical
    comparison, else the warning comparison.  The two branches differ in
    the severity only. *)
Definition poolSeverity (cfg : config.Config) (usagePercent : float) : option string :=
  if (postgres.float64_of_int
        (config.CriticalPercent (config.ConnectionPool (config.Thresholds cfg)))
      <=? usagePercent)%float
  then Some alerts.SeverityCritical
  else if (postgres.float64_of_int
             (config.WarningPercent (config.ConnectionPool (config.Thresholds cfg)))
           <=? usagePercent)%float
  then Some alerts.SeverityWarning
  else None.

(** Check connection pool thresholds.  The gate reads the clock once, as
    call [n] of the cycle; the result is the number of clock readings
    made so far, the gate after the check and the calls made. *)
Definition checkPool (cfg : config.Config) (cyc : Cycle) (stats : postgres.PoolStats)
    (n : nat) (a : alertCooldown) : nat * alertCooldown * list Effect :=
  let usagePercent := postgres.UsagePercent stats in
  let maxAvailable :=
    sub64 (postgres.MaxConnections stats) (postgres.ReservedSuperuser stats) in
  match poolSeverity cfg usagePercent with
  | Some severity =>
      let '(ok, a') :=
        canSendPoolAlert (Now cyc n) a severity (config.Cooldown (config.Alerts cfg)) in
      (S n, a',
       if ok then [sendPoolAlert severity (postgres.TotalConnections stats)
                     maxAvailable usagePercent]
       else [])
  | None => (n, a, [])
  end.

(** Check for warning threshold, then check for critical threshold. *)
Definition checkIdle (cfg : config.Config) (conn : postgres.Connection)
    (duration : Duration) (tc : trackedIdle) : trackedIdle * list Effect :=
  let '(tc1, out1) :=
    if negb (warningSent tc)
       && (config.Warning (config.IdleTransaction (config.Thresholds cfg)) <=? duration)
    then ({| pid := pid tc; appName := appName tc; query := query tc;
             firstSeen := firstSeen tc; warningSent := true;
             criticalSent := criticalSent tc |},
          [sendIdleTransactionAlert alerts.SeverityWarning (postgres.PID conn)
             (postgres.ApplicationName conn) duration (postgres.Query conn)])
    else (tc, []) in
  let '(tc2, out2) :=
    if negb (criticalSent tc1)
       && (config.Critical (config.IdleTransaction (config.Thresholds cfg)) <=? duration)
    then ({| pid := pid tc1; appName := appName tc1; query := query tc1;
             firstSeen := firstSeen tc1; warningSent := warningSent tc1;
             criticalSent := true |},
          [sendIdleTransactionAlert alerts.SeverityCritical (postgres.PID conn)
             (postgres.ApplicationName conn) duration (postgres.Query conn)])
    else (tc1, []) in
  (tc2, out1 ++ out2).

(** Auto-terminate if enabled. *)
Definition autoTerminate (cfg : config.Config) (cyc : Cycle)
    (conn : postgres.Connection) (duration : Duration) : list Effect :=
  if config.Enabled (config.AutoTerm cfg)
     && (config.After (config.AutoTerm cfg) <=? duration)
  then
    if shouldTerminate cfg conn duration then
      if config.DryRun (config.AutoTerm cfg) then []
      else
        callTerminateBackend (postgres.PID conn) ::
        match TerminateBackend cyc (postgres.PID conn) with
        | Err _ => []
        | Ok success =>
            if success
            then [sendTerminationAlert (postgres.PID conn)
                    (postgres.ApplicationName conn) duration
                    "auto-terminate threshold exceeded"]
            else []
        end
    else []
  else [].

(** The entity of [conn]: the one in the table, or a new one, first seen
    at the next reading of the clock. *)
Definition lookupOrTrack (cyc : Cycle) (conn : postgres.Connection) (n : nat)
    (tbl : gmap Z trackedIdle) : nat * trackedIdle :=
  match tbl !! postgres.PID conn with
  | Some tc => (n, tc)
  | None =>
      (S n,
       {| pid := postgres.PID conn;
          appName := postgres.ApplicationName conn;
          query := util.TruncateQuery (postgres.Query conn) 100;
          firstSeen := Now cyc n;
          warningSent := false;
          criticalSent := false |})
  end.

(** The body of the loop over the idle transactions, for one connection.
    The entity is reached through the pointer kept in the table: its final
    value is the one stored under the PID. *)
Definition handleConn (cfg : config.Config) (cyc : Cycle) (conn : postgres.Connection)
    (n : nat) (tbl : gmap Z trackedIdle) : nat * gmap Z trackedIdle * list Effect :=
  let duration := postgres.IdleDuration (Now cyc n) conn in
  let '(n1, tc) := lookupOrTrack cyc conn (S n) tbl in
  let '(tc', alerted) := checkIdle cfg conn duration tc in
  (n1, <[postgres.PID conn := tc']> tbl, alerted ++ autoTerminate cfg cyc conn duration).

(** [for _, conn := range conns]: [seen] is [seenPIDs]. *)
Fixpoint connLoop (cfg : config.Config) (cyc : Cycle) (conns : list postgres.Connection)
    (n : nat) (tbl : gmap Z trackedIdle) (seen : gset Z)
    : nat * gmap Z trackedIdle * gset Z * list Effect :=
  match conns with
  | [] => (n, tbl, seen, [])
  | conn :: rest =>
      let '(n1, tbl1, out1) := handleConn cfg cyc conn n tbl in
      let '(n2, tbl2, seen2, out2) :=
        connLoop cfg cyc rest n1 tbl1 ({[postgres.PID conn]} ∪ seen) in
      (n2, tbl2, seen2, out1 ++ out2)
  end.

(** Check for resolved transactions: [items] are the entries that the
    [range] over the table yields. *)
Fixpoint resolveLoop (cyc : Cycle) (seen : gset Z) (items : list (Z * trackedIdle))
    (n : nat) (tbl : gmap Z trackedIdle) : nat * gmap Z trackedIdle * list Effect :=
  match items with
  | [] => (n, tbl, [])
  | (p, tc) :: rest =>
      if bool_decide (p ∈ seen) then resolveLoop cyc seen rest n tbl
      else
        let totalDuration := Sub (Now cyc n) (firstSeen tc) in
        let out1 :=
          if warningSent tc || criticalSent tc
          then [sendResolvedAlert p (appName tc) totalDuration]
          else [] in
        let '(n2, tbl2, out2) := resolveLoop cyc seen rest (S n) (delete p tbl) in
        (n2, tbl2, out1 ++ out2)
  end.

(** [pollAndAlert]: the returned error, the state after the cycle and the
    calls made, in order. *)
Definition pollAndAlert (cfg : config.Config) (cyc : Cycle) (d : Daemon)
    : option string * Daemon * list Effect :=
  match GetPoolStats cyc with
  | Err e => (Some e, d, [])
  | Ok stats =>
      let '(n0, a, out0) := checkPool cfg cyc stats 0%nat (cooldown d) in
      match GetIdleTransactions cyc with
      | Err e => (Some e, {| cooldown := a; tracked := tracked d |}, out0)
      | Ok conns =>
          let '(n1, tbl1, seenPIDs, out1) := connLoop cfg cyc conns n0 (tracked d) ∅ in
          let '(n2, tbl2, out2) :=
            resolveLoop cyc seenPIDs (rangeTracked cyc tbl1) n1 tbl1 in
          (None, {| cooldown := a; tracked := tbl2 |}, out0 ++ out1 ++ out2)
      end
  end.

(** The loop of [monitorLoop]: one element of [ticks] for each tick
    received before the context is done.  An error of [pollAndAlert] is
    logged and the loop goes on. *)
Fixpoint monitorLoopFrom (cfg : config.Config) (ticks : list Cycle) (d : Daemon)
    : Daemon * list Effect :=
  match ticks with
  | [] => (d, [])
  | cyc :: rest =>
      let '(_, d1, out1) := pollAndAlert cfg cyc d in
      let '(d2, out2) := monitorLoopFrom cfg rest d1 in
      (d2, out1 ++ out2)
  end.

(** [monitorLoop] starts from an empty table. *)
Definition monitorLoop (cfg : config.Config) (ticks : list Cycle) (a : alertCooldown)
    : Daemon * list Effect :=
  monitorLoopFrom cfg ticks {| cooldown := a; tracked := ∅ |}.

(** [runDaemon]: the configuration is validated, then the monitoring loop
    runs.  (Opening the database client and the alert channels is left
    out.) *)
Definition runDaemon (databaseURL : string) (cfg : config.Config) (ticks : list Cycle)
    : result (Daemon * list Effect) :=
  match config.Validate databaseURL cfg with
  | Some e => Err (String.append "invalid configuration: " e)
  | None => Ok (monitorLoop cfg ticks cooldown0)
  end.

(** ** Reading a trace *)

(** The two alerts of the threshold checks for [conn]. *)
Definition warningAlert (conn : postgres.Connection) (d : Duration) : Effect :=
  sendIdleTransactionAlert alerts.SeverityWarning (postgres.PID conn)
    (postgres.ApplicationName conn) d (postgres.Query conn).

Definition criticalAlert (conn : postgres.Connection) (d : Duration) : Effect :=
  sendIdleTransactionAlert alerts.SeverityCritical (postgres.PID conn)
    (postgres.ApplicationName conn) d (postgres.Query conn).

(** The call made for a backend [p] that is no longer idle in
    transaction, when the clock is read for the [n]-th time: the resolved
    alert, if a warning or critical alert had been sent. *)
Definition resolvedAlert (cyc : Cycle) (n : nat) (p : Z) (tc : trackedIdle) : list Effect :=
  if warningSent tc || criticalSent tc
  then [sendResolvedAlert p (appName tc) (Sub (Now cyc n) (firstSeen tc))]
  else [].

(** [e] is the idle-transaction alert of the given severity for backend [p]. *)
Definition isIdleAlert (severity : string) (p : Z) (e : Effect) : bool :=
  match e with
  | sendIdleTransactionAlert s q _ _ _ => String.eqb s severity && (q =? p)
  | _ => false
  end.

(** [e] is a call made on behalf of backend [p]. *)
Definition about (p : Z) (e : Effect) : bool :=
  match e with
  | sendPoolAlert _ _ _ _ => false
  | sendIdleTransactionAlert _ q _ _ _ => q =? p
  | callTerminateBackend q => q =? p
  | sendTerminationAlert q _ _ _ => q =? p
  | sendResolvedAlert q _ _ => q =? p
  end.

Definition countIdleAlerts (severity : string) (p : Z) (out : list Effect) : nat :=
  length (List.filter (isIdleAlert severity p) out).

(** The severities of the idle-transaction alerts sent for [p], in order. *)
Fixpoint idleSeverities (p : Z) (out : list Effect) : list string :=
  match out with
  | [] => []
  | sendIdleTransactionAlert s q _ _ _ :: rest =>
      if q =? p then s :: idleSeverities p rest else idleSeverities p rest
  | _ :: rest => idleSeverities p rest
  end.

(** The flags kept for [p]; both are unset for a backend that is not
    tracked. *)
Definition warned (tbl : gmap Z trackedIdle) (p : Z) : bool :=
  match tbl !! p with Some tc => warningSent tc | None => false end.

Definition escalated (tbl : gmap Z trackedIdle) (p : Z) : bool :=
  match tbl !! p with Some tc => criticalSent tc | None => false end.

(** The backend [p] is in the list of every cycle of which both fetches
    succeed. *)
Definition presentIn (p : Z) (cyc : Cycle) : Prop :=
  forall stats conns,
    GetPoolStats cyc = Ok stats -> GetIdleTransactions cyc = Ok conns ->
    In p (map postgres.PID conns).

(** The four evaluations of a cycle and the calls that belong to each. *)
Inductive Phase := PoolThreshold | SessionIdle | AutoTerminate | Reconcile.

Definition phase (e : Effect) : Phase :=
  match e with
  | sendPoolAlert _ _ _ _ => PoolThreshold
  | sendIdleTransactionAlert _ _ _ _ _ => SessionIdle
  | callTerminateBackend _ => AutoTerminate
  | sendTerminationAlert _ _ _ _ => AutoTerminate
  | sendResolvedAlert _ _ _ => Reconcile
  end.

Definition phaseRank (ph : Phase) : nat :=
  match ph with
  | PoolThreshold => 0
  | SessionIdle => 1
  | AutoTerminate => 2
  | Reconcile => 3
  end.

(** No call of a later phase comes before a call of an earlier one. *)
Fixpoint nondecreasing (l : list nat) : bool :=
  match l with
  | a :: (b :: _) as rest => (a <=? b)%nat && nondecreasing rest
  | _ => true
  end.

Definition phasesInOrder (out : list Effect) : bool :=
  nondecreasing (map (fun e => phaseRank (phase e)) out).

(** The calls of one pass of the loop over the idle transactions: the
    alerts of the threshold checks, then the calls of auto-terminate. *)
Definition sessionBlock (p : Z) (idle term : list Effect) : Prop :=
  Forall (fun e => phase e = SessionIdle /\ about p e = true) idle /\
  Forall (fun e => phase e = AutoTerminate /\ about p e = true) term.

(** ** A configuration and a snapshot for the examples

    The thresholds are the defaults of [DefaultConfig]: 30 s and 2 min,
    75 and 90 percent, cooldown 5 min. *)
Definition exampleConfig (autoTerm : config.AutoTermConfig) : config.Config :=
  {| config.Connection := {| config.URL := ""; config.Host := "db.internal" |};
     config.Thresholds :=
       {| config.IdleTransaction :=
            {| config.Warning := 30 * Second; config.Critical := 2 * Minute |};
          config.ConnectionPool :=
            {| config.WarningPercent := 75; config.CriticalPercent := 90 |} |};
     config.Alerts := {| config.Cooldown := 5 * Minute |};
     config.AutoTerm := autoTerm |}.

Definition autoTermOff : config.AutoTermConfig :=
  {| config.Enabled := false; config.After := 5 * Minute; config.DryRun := true;
     config.ExcludeApps := ["pguard"; "pg_dump"]; config.ExcludeIPs := [];
     config.ProtectedApps := [] |}.

Definition autoTermOn : config.AutoTermConfig :=
  {| config.Enabled := true; config.After := 5 * Minute; config.DryRun := false;
     config.ExcludeApps := ["pguard"; "pg_dump"]; config.ExcludeIPs := ["10.0.0.1"];
     config.ProtectedApps :=
       [ {| config.Name := "critical-service"; config.MinIdleDuration := 10 * Minute;
            config.RequireConfirmation := false |};
         {| config.Name := "important-service"; config.MinIdleDuration := 5 * Minute;
            config.RequireConfirmation := true |} ] |}.

(** An instant in the year 2026, in nanoseconds since the zero Time. *)
Definition t0 : Time := 63900000000 * Second.

Definition poolOf (total : Z) : postgres.PoolStats :=
  {| postgres.MaxConnections := 100; postgres.ReservedSuperuser := 3;
     postgres.TotalConnections := total; postgres.ActiveConnections := 0;
     postgres.IdleConnections := 0; postgres.IdleInTransaction := total;
     postgres.AvailableConnections := 97 - total |}.

Definition session (p : Z) (app : string) (since : Time) : postgres.Connection :=
  {| postgres.PID := p; postgres.ApplicationName := app;
     postgres.ClientAddr := "10.0.0.5"; postgres.StateChange := since;
     postgres.Query := "UPDATE accounts SET balance = balance - 100" |}.

(** A cycle with the clock [now], in which every termination succeeds. *)
Definition cycleWith (now : nat -> Time) (stats : result postgres.PoolStats)
    (conns : result (list postgres.Connection)) : Cycle :=
  {| Now := now; GetPoolStats := stats; GetIdleTransactions := conns;
     TerminateBackend := fun _ => Ok true; rangeTracked := map_to_list |}.

(** A cycle whose clock stays at [t]. *)
Definition cycleAt (t : Time) (stats : result postgres.PoolStats)
    (conns : result (list postgres.Connection)) : Cycle :=
  cycleWith (fun _ => t) stats conns.

Definition daemon0 : Daemon := {| cooldown := cooldown0; tracked := ∅ |}.

(** The end-to-end scenario: backend 1002 has been idle in transaction
    for 45 s at the instant [t]; it is in the snapshots of the first two
    cycles and gone from the snapshot of the third. *)
Definition paymentAt (t : Time) : postgres.Connection :=
  session 1002 "payment-api" (t - 45 * Second).

Definition seenAt (t : Time) (now : nat -> Time) : Cycle :=
  cycleWith now (Ok (poolOf 10)) (Ok [paymentAt t]).

Definition goneAt (now : nat -> Time) : Cycle :=
  cycleWith now (Ok (poolOf 9)) (Ok []).

(** The scenario with the first cycle at [t0], the second 90 s later and
    the third 120 s after the first. *)
Definition payment : postgres.Connection := paymentAt t0.

Definition scenario : list Cycle :=
  [ seenAt t0 (fun _ => t0);
    seenAt t0 (fun _ => t0 + 90 * Second);
    goneAt (fun _ => t0 + 120 * Second) ].

(** The entity of backend 1002, first seen at [first], with the given
    flags. *)
Definition paymentEntityAt (first : Time) (warning critical : bool) : trackedIdle :=
  {| pid := 1002; appName := "payment-api";
     query := "UPDATE accounts SET balance = balance - 100";
     firstSeen := first; warningSent := warning; criticalSent := critical |}.

Definition paymentEntity (warning critical : bool) : trackedIdle :=
  paymentEntityAt t0 warning critical.

(** A cycle of which the second fetch times out while the pool is full. *)
Definition timedOut : Cycle :=
  cycleAt t0 (Ok (poolOf 97)) (Err "context deadline exceeded").

(** Two sessions, both idle for ten minutes. *)
Definition twoSessions : Cycle :=
  cycleAt t0 (Ok (poolOf 10))
    (Ok [session 1 "webapp" (t0 - 10 * Minute); session 2 "webapp" (t0 - 10 * Minute)]).

(** ** The alerts of one backend as a life cycle *)

(** The stage of the alerting of a backend, read off its flags: no alert
    sent (a backend that is not tracked included), warning sent, critical
    sent. *)
Inductive Stage := StageNew | StageWarningSent | StageCriticalSent.

Definition stageOf (tbl : gmap Z trackedIdle) (p : Z) : Stage :=
  if escalated tbl p then StageCriticalSent
  else if warned tbl p then StageWarningSent
  else StageNew.

(** What an alert tells about backend [p]. *)
Inductive Notice := NoticeWarning | NoticeCritical | NoticeResolved | NoticeOther.

Definition noticeOfSeverity (severity : string) : Notice :=
  if String.eqb severity alerts.SeverityWarning then NoticeWarning
  else if String.eqb severity alerts.SeverityCritical then NoticeCritical
  else NoticeOther.

Definition noticeOf (p : Z) (e : Effect) : option Notice :=
  match e with
  | sendIdleTransactionAlert s q _ _ _ =>
      if q =? p then Some (noticeOfSeverity s) else None
  | sendResolvedAlert q _ _ => if q =? p then Some NoticeResolved else None
  | _ => None
  end.

(** The idle-transaction and resolved alerts sent for [p], in order. *)
Definition notices (p : Z) (out : list Effect) : list Notice :=
  omap (noticeOf p) out.

(** The life cycle: a warning opens it, a critical may follow the
    warning, a resolved alert closes it. *)
Definition stageStep (st : Stage) (n : Notice) : option Stage :=
  match st, n with
  | StageNew, NoticeWarning => Some StageWarningSent
  | StageWarningSent, NoticeCritical => Some StageCriticalSent
  | StageWarningSent, NoticeResolved => Some StageNew
  | StageCriticalSent, NoticeResolved => Some StageNew
  | _, _ => None
  end.

Fixpoint stageRun (st : Stage) (l : list Notice) : option Stage :=
  match l with
  | [] => Some st
  | n :: rest =>
      match stageStep st n with
      | Some st' => stageRun st' rest
      | None => None
      end
  end.

(** ** Pool alerts in a trace *)

Definition isPoolAlert (severity : string) (e : Effect) : bool :=
  match e with
  | sendPoolAlert s _ _ _ => String.eqb s severity
  | _ => false
  end.

Definition countPoolAlerts (severity : string) (out : list Effect) : nat :=
  length (List.filter (isPoolAlert severity) out).

(** The time the gate keeps for a severity. *)
Definition lastPool (a : alertCooldown) (severity : string) : Time :=
  if String.eqb severity alerts.SeverityWarning then lastPoolWarning a
  else lastPoolCritical a.

(** A cycle in which the pool is full and no session is idle in
    transaction. *)
Definition fullPoolAt (t : Time) : Cycle := cycleAt t (Ok (poolOf 97)) (Ok []).

(** [e] is not a call of the auto-terminate evaluation. *)
Definition notAutoTerminate (e : Effect) : bool :=
  match phase e with
  | AutoTerminate => false
  | _ => true
  end.

(** Two configurations that differ at most in the auto-terminate section,
    and two cycles that differ at most in the results of
    [TerminateBackend]. *)
Definition sameThresholds (cfg cfg' : config.Config) : Prop :=
  config.Thresholds cfg = config.Thresholds cfg' /\
  config.Alerts cfg = config.Alerts cfg'.

Definition sameObservations (cyc cyc' : Cycle) : Prop :=
  (forall k, Now cyc k = Now cyc' k) /\
  GetPoolStats cyc = GetPoolStats cyc' /\
  GetIdleTransactions cyc = GetIdleTransactions cyc' /\
  (forall m, rangeTracked cyc m = rangeTracked cyc' m).

(** [twoSessions] with a database that refuses every termination. *)
Definition twoSessionsRefused : Cycle :=
  {| Now := Now twoSessions; GetPoolStats := GetPoolStats twoSessions;
     GetIdleTransactions := GetIdleTransactions twoSessions;
     TerminateBackend := fun _ => Err "permission denied";
     rangeTracked := rangeTracked twoSessions |}.

(** ** Reading a string byte by byte *)

(** The ASCII white space other than the space itself: tab, line feed,
    vertical tab, form feed and carriage return. *)
Definition isControlSpace (c : ascii) : bool :=
  (9 <=? util.byte c) && (util.byte c <=? 13).

Definition isSpaceByte (c : ascii) : bool := util.byte c =? 32.

(** No byte of [s] is a tab or a line break. *)
Definition singleLine (s : string) : Prop :=
  Forall (fun c => isControlSpace c = false) (list_ascii_of_string s).

(** ** Package [cli]: the exit code of the status command *)

(** Exit codes for status command. *)
Definition ExitOK : Z := 0.
Definition ExitWarning : Z := 1.
Definition ExitCritical : Z := 2.

(** A row of [GetConnections]: the fields of [Connection] that the
    daemon reads, and the [State] field. *)
Record Activity := {
  Conn : postgres.Connection;
  State : string
}.

Definition StateIdleInTransaction : string := "idle in transaction".
Definition StateIdleInTransactionAborted : string := "idle in transaction (aborted)".

(** [IsIdleInTransaction] returns true if the connection is idle in a
    transaction. *)
Definition IsIdleInTransaction (c : Activity) : bool :=
  String.eqb (State c) StateIdleInTransaction
  || String.eqb (State c) StateIdleInTransactionAborted.

(** Build idle transactions list. *)
Definition statusIdleConns (conns : list Activity) : list postgres.Connection :=
  map Conn (List.filter IsIdleInTransaction conns).

(** Check pool thresholds: [exitCode] and [overallStatus] after the
    check, from [ExitOK] and "ok". *)
Definition statusPool (cfg : config.Config) (usagePercent : float) : Z * string :=
  if (postgres.float64_of_int
        (config.CriticalPercent (config.ConnectionPool (config.Thresholds cfg)))
      <=? usagePercent)%float
  then (ExitCritical, "critical")
  else if (postgres.float64_of_int
             (config.WarningPercent (config.ConnectionPool (config.Thresholds cfg)))
           <=? usagePercent)%float
  then if ExitOK <? ExitWarning then (ExitWarning, "warning") else (ExitOK, "ok")
  else (ExitOK, "ok").

(** Check idle transaction thresholds.  [IdleDuration] reads the clock
    once for each connection, as call [n]; the loop stops at the first
    connection that is past the critical threshold. *)
Fixpoint statusIdleLoop (cfg : config.Config) (now : nat -> Time)
    (idleConns : list postgres.Connection) (n : nat) (st : Z * string) : Z * string :=
  match idleConns with
  | [] => st
  | conn :: rest =>
      let duration := postgres.IdleDuration (now n) conn in
      if config.Critical (config.IdleTransaction (config.Thresholds cfg)) <=? duration
      then (ExitCritical, "critical")
      else if config.Warning (config.IdleTransaction (config.Thresholds cfg)) <=? duration
      then statusIdleLoop cfg now rest (S n)
             (if st.1 <? ExitWarning then (ExitWarning, "warning") else st)
      else statusIdleLoop cfg now rest (S n) st
  end.

(** [runStatus], up to the output: an error when a fetch fails, else the
    code the process exits with and the overall status that the JSON
    output shows.  (Opening the client is left out; the three output
    modes exit with the same code.) *)
Definition runStatus (cfg : config.Config) (now : nat -> Time)
    (stats : result postgres.PoolStats) (conns : result (list Activity))
    : result (Z * string) :=
  match stats with
  | Err e => Err (String.append "getting pool stats: " e)
  | Ok stats =>
      match conns with
      | Err e => Err (String.append "getting connections: " e)
      | Ok conns =>
          Ok (statusIdleLoop cfg now (statusIdleConns conns) 0%nat
                (statusPool cfg (postgres.UsagePercent stats)))
      end
  end.

(** Rows for the examples. *)
Definition activity (state : string) (p : Z) (since : Time) : Activity :=
  {| Conn := session p "webapp" since; State := state |}.

(** ** Package [cli]: the watch command

    [trackedConnection] has the fields of [trackedIdle], under the same
    names; the embedding uses the one record for both, and the table of
    the watch command is a [gmap Z trackedIdle] as well.  A poll takes its
    clock and its two fetches from a [Cycle]. *)
Module watch.

(** The text of a logged message, before [fmt.Sprintf] renders it. *)
Inductive Message :=
| NewIdleTransaction (p : Z) (app : string) (duration : Duration)
| QueryText (q : string)
| IdleFor (p : Z) (app : string) (duration : Duration)
| ResolvedAfter (p : Z) (app : string) (duration : Duration)
| ConnectionPressure (approaching : bool) (total maxAvailable : Z) (usagePercent : float)
| ErrorText (msg : string).

(** One call of [logEvent]: the instant of its time stamp, the level and
    the message. *)
Record LogLine := {
  stamp : Time;
  level : string;
  message : Message
}.

(** [logEvent] reads the clock once, as call [n]. *)
Definition logEvent (cyc : Cycle) (n : nat) (lvl : string) (m : Message)
    : nat * list LogLine :=
  (S n, [{| stamp := Now cyc n; level := lvl; message := m |}]).

(** [tc, exists := tracked[conn.PID]]: a new idle transaction is stored
    and, past the warning threshold, announced with its query. *)
Definition track (cfg : config.Config) (cyc : Cycle) (conn : postgres.Connection)
    (duration : Duration) (n : nat) (tbl : gmap Z trackedIdle)
    : nat * trackedIdle * list LogLine :=
  match tbl !! postgres.PID conn with
  | Some tc => (n, tc, [])
  | None =>
      let tc :=
        {| pid := postgres.PID conn;
           appName := postgres.ApplicationName conn;
           query := util.TruncateQuery (postgres.Query conn) 60;
           firstSeen := Now cyc n;
           warningSent := false;
           criticalSent := false |} in
      if config.Warning (config.IdleTransaction (config.Thresholds cfg)) <=? duration then
        let '(n1, out1) :=
          logEvent cyc (S n) "WARN"
            (NewIdleTransaction (postgres.PID conn) (postgres.ApplicationName conn)
               duration) in
        let '(n2, out2) := logEvent cyc n1 "    " (QueryText (query tc)) in
        (n2,
         {| pid := pid tc; appName := appName tc; query := query tc;
            firstSeen := firstSeen tc; warningSent := true;
            criticalSent := criticalSent tc |},
         out1 ++ out2)
      else (S n, tc, [])
  end.

(** Check for threshold crossings. *)
Definition checkCrossings (cfg : config.Config) (cyc : Cycle) (conn : postgres.Connection)
    (duration : Duration) (n : nat) (tc : trackedIdle)
    : nat * trackedIdle * list LogLine :=
  let '(n1, tc1, out1) :=
    if negb (warningSent tc)
       && (config.Warning (config.IdleTransaction (config.Thresholds cfg)) <=? duration)
    then
      let '(n1, out1) :=
        logEvent cyc n "WARN"
          (IdleFor (postgres.PID conn) (postgres.ApplicationName conn) duration) in
      (n1,
       {| pid := pid tc; appName := appName tc; query := query tc;
          firstSeen := firstSeen tc; warningSent := true;
          criticalSent := criticalSent tc |},
       out1)
    else (n, tc, []) in
  let '(n2, tc2, out2) :=
    if negb (criticalSent tc1)
       && (config.Critical (config.IdleTransaction (config.Thresholds cfg)) <=? duration)
    then
      let '(n2, out2) :=
        logEvent cyc n1 "CRIT"
          (IdleFor (postgres.PID conn) (postgres.ApplicationName conn) duration) in
      (n2,
       {| pid := pid tc1; appName := appName tc1; query := query tc1;
          firstSeen := firstSeen tc1; warningSent := warningSent tc1;
          criticalSent := true |},
       out2)
    else (n1, tc1, []) in
  (n2, tc2, out1 ++ out2).

(** The body of the loop over the idle transactions.  The entity is
    reached through the pointer kept in the table. *)
Definition handleConn (cfg : config.Config) (cyc : Cycle) (conn : postgres.Connection)
    (n : nat) (tbl : gmap Z trackedIdle) : nat * gmap Z trackedIdle * list LogLine :=
  let duration := postgres.IdleDuration (Now cyc n) conn in
  let '(n1, tc, out1) := track cfg cyc conn duration (S n) tbl in
  let '(n2, tc', out2) := checkCrossings cfg cyc conn duration n1 tc in
  (n2, <[postgres.PID conn := tc']> tbl, out1 ++ out2).

(** [for _, conn := range conns]. *)
Fixpoint connLoop (cfg : config.Config) (cyc : Cycle) (conns : list postgres.Connection)
    (n : nat) (tbl : gmap Z trackedIdle) (seen : gset Z)
    : nat * gmap Z trackedIdle * gset Z * list LogLine :=
  match conns with
  | [] => (n, tbl, seen, [])
  | conn :: rest =>
      let '(n1, tbl1, out1) := handleConn cfg cyc conn n tbl in
      let '(n2, tbl2, seen2, out2) :=
        connLoop cfg cyc rest n1 tbl1 ({[postgres.PID conn]} ∪ seen) in
      (n2, tbl2, seen2, out1 ++ out2)
  end.

(** Check for resolved transactions: every tracked backend that is not
    in the snapshot is logged and removed. *)
Fixpoint resolveLoop (cyc : Cycle) (seen : gset Z) (items : list (Z * trackedIdle))
    (n : nat) (tbl : gmap Z trackedIdle) : nat * gmap Z trackedIdle * list LogLine :=
  match items with
  | [] => (n, tbl, [])
  | (p, tc) :: rest =>
      if bool_decide (p ∈ seen) then resolveLoop cyc seen rest n tbl
      else
        let totalDuration := Sub (Now cyc n) (firstSeen tc) in
        let '(n1, out1) :=
          logEvent cyc (S n) "OK" (ResolvedAfter p (appName tc) totalDuration) in
        let '(n2, tbl2, out2) := resolveLoop cyc seen rest n1 (delete p tbl) in
        (n2, tbl2, out1 ++ out2)
  end.

(** Check connection pool pressure. *)
Definition checkPressure (cfg : config.Config) (cyc : Cycle) (stats : postgres.PoolStats)
    (n : nat) : nat * list LogLine :=
  let usagePercent := postgres.UsagePercent stats in
  if (postgres.float64_of_int
        (config.CriticalPercent (config.ConnectionPool (config.Thresholds cfg)))
      <=? usagePercent)%float
  then logEvent cyc n "CRIT"
         (ConnectionPressure true (postgres.TotalConnections stats)
            (sub64 (postgres.MaxConnections stats) (postgres.ReservedSuperuser stats))
            usagePercent)
  else if (postgres.float64_of_int
             (config.WarningPercent (config.ConnectionPool (config.Thresholds cfg)))
           <=? usagePercent)%float
  then logEvent cyc n "WARN"
         (ConnectionPressure false (postgres.TotalConnections stats)
            (sub64 (postgres.MaxConnections stats) (postgres.ReservedSuperuser stats))
            usagePercent)
  else (n, []).

(** [pollOnce]: the returned error, the table after the poll and the
    lines logged, in order. *)
Definition pollOnce (cfg : config.Config) (cyc : Cycle) (tbl : gmap Z trackedIdle)
    : option string * gmap Z trackedIdle * list LogLine :=
  match GetPoolStats cyc with
  | Err e => (Some e, tbl, [])
  | Ok stats =>
      match GetIdleTransactions cyc with
      | Err e => (Some e, tbl, [])
      | Ok conns =>
          let '(n1, tbl1, seenPIDs, out1) := connLoop cfg cyc conns 0%nat tbl ∅ in
          let '(n2, tbl2, out2) :=
            resolveLoop cyc seenPIDs (rangeTracked cyc tbl1) n1 tbl1 in
          let '(_, out3) := checkPressure cfg cyc stats n2 in
          (None, tbl2, out1 ++ out2 ++ out3)
      end
  end.

(** One round of [runWatch]: an error of [pollOnce] is logged. *)
Definition round (cfg : config.Config) (cyc : Cycle) (tbl : gmap Z trackedIdle)
    : gmap Z trackedIdle * list LogLine :=
  let '(err, tbl1, out1) := pollOnce cfg cyc tbl in
  match err with
  | Some e => (tbl1, out1 ++ (logEvent cyc 0%nat "ERROR" (ErrorText e)).2)
  | None => (tbl1, out1)
  end.

(** The rounds of [runWatch]: the first element of [polls] is the
    immediate poll, the others the polls on a tick received before the
    context is done. *)
Fixpoint watchLoop (cfg : config.Config) (polls : list Cycle) (tbl : gmap Z trackedIdle)
    : gmap Z trackedIdle * list LogLine :=
  match polls with
  | [] => (tbl, [])
  | cyc :: rest =>
      let '(tbl1, out1) := round cfg cyc tbl in
      let '(tbl2, out2) := watchLoop cfg rest tbl1 in
      (tbl2, out1 ++ out2)
  end.

(** [runWatch] starts from an empty table.  (Opening the database client
    and the banner are left out.) *)
Definition runWatch (cfg : config.Config) (polls : list Cycle)
    : gmap Z trackedIdle * list LogLine :=
  watchLoop cfg polls ∅.

(** *** Reading the log *)

(** The line is about backend [p]. *)
Definition aboutLine (p : Z) (l : LogLine) : bool :=
  match message l with
  | NewIdleTransaction q _ _ => q =? p
  | IdleFor q _ _ => q =? p
  | ResolvedAfter q _ _ => q =? p
  | _ => false
  end.

Definition noticeOfLevel (lvl : string) : Notice :=
  if String.eqb lvl "WARN" then NoticeWarning
  else if String.eqb lvl "CRIT" then NoticeCritical
  else NoticeOther.

Definition noticeOfLine (l : LogLine) : Notice :=
  match message l with
  | NewIdleTransaction _ _ _ => noticeOfLevel (level l)
  | IdleFor _ _ _ => noticeOfLevel (level l)
  | ResolvedAfter _ _ _ => NoticeResolved
  | _ => NoticeOther
  end.

(** What the log says about backend [p], in order. *)
Definition notices (p : Z) (out : list LogLine) : list Notice :=
  map noticeOfLine (List.filter (aboutLine p) out).

(** The two flags of a backend, and what a notice does to them: a
    warning or a critical line is logged only while its flag is down, a
    resolved line takes both down. *)
Definition flagStep (st : bool * bool) (n : Notice) : option (bool * bool) :=
  match n with
  | NoticeWarning => if st.1 then None else Some (true, st.2)
  | NoticeCritical => if st.2 then None else Some (st.1, true)
  | NoticeResolved => Some (false, false)
  | NoticeOther => None
  end.

Fixpoint flagRun (st : bool * bool) (l : list Notice) : option (bool * bool) :=
  match l with
  | [] => Some st
  | n :: rest =>
      match flagStep st n with
      | Some st' => flagRun st' rest
      | None => None
      end
  end.

Definition flagsOf (tbl : gmap Z trackedIdle) (p : Z) : bool * bool :=
  (warned tbl p, escalated tbl p).

(** The line logged when the tracked backend [p] is gone; [n] is the
    reading of the clock that measures the duration. *)
Definition resolvedLine (cyc : Cycle) (n : nat) (p : Z) (tc : trackedIdle) : LogLine :=
  {| stamp := Now cyc (S n); level := "OK";
     message := ResolvedAfter p (appName tc) (Sub (Now cyc n) (firstSeen tc)) |}.

Definition isPressure (l : LogLine) : bool :=
  match message l with
  | ConnectionPressure _ _ _ _ => true
  | _ => false
  end.

Definition isError (l : LogLine) : bool :=
  match message l with
  | ErrorText _ => true
  | _ => false
  end.

End watch.

(** A poll of which the first fetch fails. *)
Definition unreachableAt (t : Time) : Cycle :=
  cycleAt t (Err "connection refused") (Ok []).

(** ** Package [cli]: what [logEvent] prints *)

Definition newline : ascii := ascii_of_nat 10.

(** [strings.Split] for a separator of one byte [c]: the scan, with the
    piece read so far. *)
Fixpoint splitFrom (s : string) (c : ascii) (cur : string) : list string :=
  match s with
  | EmptyString => [cur]
  | String a r =>
      if Ascii.eqb a c then cur :: splitFrom r c EmptyString
      else splitFrom r c (String.append cur (String a EmptyString))
  end.

Definition stringsSplit (s : string) (c : ascii) : list string :=
  splitFrom s c EmptyString.

(** [strings.Repeat]. *)
Fixpoint stringsRepeat (s : string) (count : nat) : string :=
  match count with
  | O => EmptyString
  | S k => String.append s (stringsRepeat s k)
  end.

(** The [switch] on the level. *)
Definition logPrefix (lvl : string) : string :=
  if String.eqb lvl "WARN" then "[!]"
  else if String.eqb lvl "CRIT" then "[X]"
  else if String.eqb lvl "OK" then "[+]"
  else if String.eqb lvl "ERROR" then "[E]"
  else if String.eqb lvl "INFO" then "[i]"
  else "   ".

(** The loop over the lines of the message: one [fmt.Printf] for each,
    [i] is the index of [line]. *)
Fixpoint printLines (timestamp pfx : string) (i : nat) (lines : list string)
    : list string :=
  match lines with
  | [] => []
  | line :: rest =>
      (if (i =? 0)%nat
       then String.append timestamp
              (String.append " "
                 (String.append pfx
                    (String.append " " (String.append line (String newline EmptyString)))))
       else String.append (stringsRepeat " " (String.length timestamp))
              (String.append "     " (String.append line (String newline EmptyString))))
      :: printLines timestamp pfx (S i) rest
  end.

(** [logEvent]: the texts printed, in order, for the time stamp that
    [time.Now().Format] returned. *)
Definition logEventOutput (timestamp lvl msg : string) : list string :=
  printLines timestamp (logPrefix lvl) 0%nat (stringsSplit msg newline).

(** ** Proof steps

    [int64_constants] writes the bounds of [int64] and the units of time
    as numbers, for [lia]; [step_scenario] evaluates the projections of
    the scenario's configuration, cycles and entities. *)
Ltac int64_constants :=
  unfold int64 in *;
  change minDuration with (-9223372036854775808) in *;
  change maxDuration with 9223372036854775807 in *;
  change Minute with 60000000000 in *;
  change Second with 1000000000 in *.

Ltac step_scenario :=
  cbn [seenAt goneAt cycleWith paymentAt session Now GetPoolStats GetIdleTransactions
       rangeTracked TerminateBackend postgres.PID postgres.StateChange
       postgres.ApplicationName postgres.Query postgres.ClientAddr fst snd tracked
       cooldown daemon0 warningSent criticalSent pid appName query firstSeen
       negb andb orb app exampleConfig autoTermOff config.Thresholds
       config.IdleTransaction config.Warning config.Critical config.AutoTerm
       config.Enabled].

(** * Properties *)

(** ** Durations *)

Lemma Sub_exact (t u : Time) : int64 (t - u) -> Sub t u = t - u.
Proof.
  unfold int64, Sub. intros [Hlo Hhi].
  destruct (Z.ltb_spec maxDuration (t - u)); [lia |].
  destruct (Z.ltb_spec (t - u) minDuration); [lia | reflexivity].
Qed.

Lemma minDuration_le_maxDuration : minDuration <= maxDuration.
Proof. vm_compute. discriminate. Qed.

Lemma Sub_int64 (t u : Time) : int64 (Sub t u).
Proof.
  pose proof minDuration_le_maxDuration.
  unfold int64, Sub.
  destruct (Z.ltb_spec maxDuration (t - u)); [lia |].
  destruct (Z.ltb_spec (t - u) minDuration); lia.
Qed.

(** A duration that fits an [int64] and is below the difference of two
    instants is below their saturated difference. *)
Lemma le_Sub (c : Duration) (t u : Time) :
  int64 c -> c <= t - u -> c <= Sub t u.
Proof.
  unfold int64, Sub. intros [Hlo Hhi] Hle.
  destruct (Z.ltb_spec maxDuration (t - u)); [lia |].
  destruct (Z.ltb_spec (t - u) minDuration); lia.
Qed.

(** Saturation does not change the comparison with a duration that fits
    an [int64] and is not the minimum one. *)
Lemma le_Sub_iff (c : Duration) (t u : Time) :
  int64 c -> minDuration < c -> (c <= Sub t u <-> c <= t - u).
Proof.
  unfold int64, Sub. intros [Hlo Hhi] Hmin.
  destruct (Z.ltb_spec maxDuration (t - u)); [lia |].
  destruct (Z.ltb_spec (t - u) minDuration); lia.
Qed.

(** ** The helpers on the cases of the repository's tests *)

Example TruncateQuery_cases :
  util.TruncateQuery "SELECT * FROM users" 50 = "SELECT * FROM users" /\
  util.TruncateQuery
    "SELECT id, name, email, created_at, updated_at FROM users WHERE active = true" 30
    = "SELECT id, name, email, cre..." /\
  util.TruncateQuery "SELECT *
FROM users
WHERE id = 1" 50 = "SELECT * FROM users WHERE id = 1" /\
  util.TruncateQuery "SELECT   *   FROM    users" 50 = "SELECT * FROM users" /\
  util.TruncateQuery "" 50 = "".
Proof. vm_compute. repeat split; reflexivity. Qed.

Example UsagePercent_cases :
  postgres.UsagePercent (poolOf 97) = 100%float /\
  postgres.UsagePercent (poolOf 0) = 0%float /\
  (89.5 <=? postgres.UsagePercent (poolOf 87))%float = true /\
  (postgres.UsagePercent (poolOf 87) <=? 89.75)%float = true /\
  postgres.UsagePercent
    {| postgres.MaxConnections := 3; postgres.ReservedSuperuser := 3;
       postgres.TotalConnections := 2; postgres.ActiveConnections := 2;
       postgres.IdleConnections := 0; postgres.IdleInTransaction := 0;
       postgres.AvailableConnections := 0 |} = 100%float.
Proof. vm_compute. repeat split; reflexivity. Qed.

Example getSeverity_cases :
  let cfg := exampleConfig autoTermOff in
  getSeverity (15 * Second) cfg = "" /\
  getSeverity (30 * Second) cfg = "[WARN]" /\
  getSeverity (1 * Minute) cfg = "[WARN]" /\
  getSeverity (2 * Minute) cfg = "[CRIT]" /\
  getSeverity (5 * Minute) cfg = "[CRIT]".
Proof. vm_compute. repeat split; reflexivity. Qed.

(** ** The cooldown gate *)

Lemma canSendPoolAlert_warning (now : Time) (a : alertCooldown) (c : Duration) :
  canSendPoolAlert now a alerts.SeverityWarning c =
  if c <=? Sub now (lastPoolWarning a)
  then (true, {| lastPoolWarning := now; lastPoolCritical := lastPoolCritical a |})
  else (false, a).
Proof. reflexivity. Qed.

Lemma canSendPoolAlert_critical (now : Time) (a : alertCooldown) (c : Duration) :
  canSendPoolAlert now a alerts.SeverityCritical c =
  if c <=? Sub now (lastPoolCritical a)
  then (true, {| lastPoolWarning := lastPoolWarning a; lastPoolCritical := now |})
  else (false, a).
Proof. reflexivity. Qed.

Lemma canSendPoolAlert_other (now : Time) (a : alertCooldown) (severity : string)
    (c : Duration) :
  severity <> alerts.SeverityWarning -> severity <> alerts.SeverityCritical ->
  canSendPoolAlert now a severity c = (false, a).
Proof.
  intros Hw Hc. unfold canSendPoolAlert.
  destruct (String.eqb_spec severity alerts.SeverityWarning); [contradiction |].
  destruct (String.eqb_spec severity alerts.SeverityCritical); [contradiction |].
  reflexivity.
Qed.

(** C3: the gate of a severity opens, and records [now] for that
    severity, exactly when [now] minus the time stored for that severity
    is at least the cooldown; otherwise it answers false and both stored
    times stay.  The two gates are independent: the answer for one
    severity does not read the time of the other, a call for one severity
    never writes the time of the other, and so a call for one severity
    leaves the answer of the other gate as it was.  The difference is
    [Time.Sub], which saturates; for a cooldown that fits an [int64] and
    is not the minimum duration this is the comparison with the exact
    difference. *)
Theorem cooldown_gate :
  forall (now : Time) (a : alertCooldown) (c : Duration),
    let w := canSendPoolAlert now a alerts.SeverityWarning c in
    let k := canSendPoolAlert now a alerts.SeverityCritical c in
    (w.1 = true <-> c <= Sub now (lastPoolWarning a)) /\
    (w.1 = true ->
     w.2 = {| lastPoolWarning := now; lastPoolCritical := lastPoolCritical a |}) /\
    (w.1 = false -> w.2 = a) /\
    (k.1 = true <-> c <= Sub now (lastPoolCritical a)) /\
    (k.1 = true ->
     k.2 = {| lastPoolWarning := lastPoolWarning a; lastPoolCritical := now |}) /\
    (k.1 = false -> k.2 = a) /\
    lastPoolCritical w.2 = lastPoolCritical a /\
    lastPoolWarning k.2 = lastPoolWarning a /\
    (forall (now' : Time) (c' : Duration),
        (canSendPoolAlert now' k.2 alerts.SeverityWarning c').1 =
        (canSendPoolAlert now' a alerts.SeverityWarning c').1 /\
        (canSendPoolAlert now' w.2 alerts.SeverityCritical c').1 =
        (canSendPoolAlert now' a alerts.SeverityCritical c').1) /\
    (int64 c -> minDuration < c ->
     (w.1 = true <-> c <= now - lastPoolWarning a) /\
     (k.1 = true <-> c <= now - lastPoolCritical a)).
Proof.
  intros now a c w k. subst w k.
  assert (Hexact : int64 c -> minDuration < c ->
                   (c <= Sub now (lastPoolWarning a) <-> c <= now - lastPoolWarning a) /\
                   (c <= Sub now (lastPoolCritical a) <-> c <= now - lastPoolCritical a)).
  { intros Hc Hmin. split; apply le_Sub_iff; assumption. }
  rewrite canSendPoolAlert_warning, canSendPoolAlert_critical.
  destruct (Z.leb_spec c (Sub now (lastPoolWarning a))) as [Hw | Hw];
    destruct (Z.leb_spec c (Sub now (lastPoolCritical a))) as [Hk | Hk];
    cbn [fst snd lastPoolWarning lastPoolCritical];
    repeat split; intros; try congruence; try lia;
    try (destruct Hexact as [[? ?] [? ?]]; [assumption | assumption |];
         solve [auto | congruence | lia]);
    rewrite ?canSendPoolAlert_warning, ?canSendPoolAlert_critical;
    cbn [lastPoolWarning lastPoolCritical];
    match goal with |- context [?x <=? ?y] => destruct (x <=? y) end;
    reflexivity.
Qed.

Lemma cooldown_gate_witness :
  let first := canSendPoolAlert t0 cooldown0 alerts.SeverityCritical (5 * Minute) in
  first.2 = {| lastPoolWarning := zeroTime; lastPoolCritical := t0 |} /\
  (canSendPoolAlert (t0 + 4 * Minute) first.2 alerts.SeverityCritical (5 * Minute)).2
    = first.2.
Proof.
  cbv zeta. split.
  - apply (cooldown_gate t0 cooldown0 (5 * Minute)). vm_compute. reflexivity.
  - apply (cooldown_gate (t0 + 4 * Minute)
             (canSendPoolAlert t0 cooldown0 alerts.SeverityCritical (5 * Minute)).2
             (5 * Minute)).
    vm_compute. reflexivity.
Defined.

(** The gate of the test "two calls less than the cooldown apart yield
    (true, false); calls at least the cooldown apart yield (true, true)". *)
Example cooldown_two_calls :
  let c := 5 * Minute in
  let first := canSendPoolAlert t0 cooldown0 alerts.SeverityCritical c in
  first.1 = true /\
  (canSendPoolAlert (t0 + 4 * Minute) first.2 alerts.SeverityCritical c).1 = false /\
  (canSendPoolAlert (t0 + 5 * Minute) first.2 alerts.SeverityCritical c).1 = true /\
  (canSendPoolAlert (t0 + 1 * Second) first.2 alerts.SeverityWarning c).1 = true.
Proof. vm_compute. repeat split; reflexivity. Qed.

(** C10: in a fresh process both stored times are the zero Time, and a
    gate whose stored time is still the zero Time opens for every
    cooldown (an [int64]) that does not exceed the time elapsed since the
    zero Time, whatever happened to the other gate.  A severity other than
    warning and critical gets false and leaves the gate as it was. *)
Theorem first_pool_alert_passes :
  forall (now : Time) (c : Duration),
    int64 c -> c <= now - zeroTime ->
    lastPoolWarning cooldown0 = zeroTime /\
    lastPoolCritical cooldown0 = zeroTime /\
    (forall a : alertCooldown,
        lastPoolWarning a = zeroTime ->
        (canSendPoolAlert now a alerts.SeverityWarning c).1 = true) /\
    (forall a : alertCooldown,
        lastPoolCritical a = zeroTime ->
        (canSendPoolAlert now a alerts.SeverityCritical c).1 = true) /\
    (forall (a : alertCooldown) (severity : string),
        severity <> alerts.SeverityWarning ->
        severity <> alerts.SeverityCritical ->
        canSendPoolAlert now a severity c = (false, a)).
Proof.
  intros now c Hc Hle. split; [reflexivity |]. split; [reflexivity |].
  apply (le_Sub c now zeroTime Hc) in Hle.
  repeat split.
  - intros a Ha. rewrite canSendPoolAlert_warning, Ha.
    destruct (Z.leb_spec c (Sub now zeroTime)); [reflexivity | lia].
  - intros a Ha. rewrite canSendPoolAlert_critical, Ha.
    destruct (Z.leb_spec c (Sub now zeroTime)); [reflexivity | lia].
  - intros a severity Hw Hk. apply canSendPoolAlert_other; assumption.
Qed.

Lemma first_pool_alert_passes_witness :
  (canSendPoolAlert t0 cooldown0 alerts.SeverityWarning (5 * Minute)).1 = true /\
  (canSendPoolAlert t0 cooldown0 alerts.SeverityCritical (5 * Minute)).1 = true /\
  canSendPoolAlert t0 cooldown0 alerts.SeverityInfo (5 * Minute) = (false, cooldown0).
Proof.
  assert (Hc : int64 (5 * Minute)) by (vm_compute; split; discriminate).
  assert (Hle : 5 * Minute <= t0 - zeroTime) by (vm_compute; discriminate).
  destruct (first_pool_alert_passes t0 (5 * Minute) Hc Hle)
    as (_ & _ & Hw & Hk & Ho).
  split; [apply Hw; reflexivity |].
  split; [apply Hk; reflexivity |].
  apply Ho; discriminate.
Defined.

(** ** Threshold comparisons *)

Lemma checkIdle_unsent (cfg : config.Config) (conn : postgres.Connection)
    (d : Duration) (tc : trackedIdle) :
  warningSent tc = false -> criticalSent tc = false ->
  (checkIdle cfg conn d tc).2 =
  (if config.Warning (config.IdleTransaction (config.Thresholds cfg)) <=? d
   then [sendIdleTransactionAlert alerts.SeverityWarning (postgres.PID conn)
           (postgres.ApplicationName conn) d (postgres.Query conn)]
   else []) ++
  (if config.Critical (config.IdleTransaction (config.Thresholds cfg)) <=? d
   then [sendIdleTransactionAlert alerts.SeverityCritical (postgres.PID conn)
           (postgres.ApplicationName conn) d (postgres.Query conn)]
   else []).
Proof.
  intros Hw Hc. unfold checkIdle. rewrite Hw. cbn [negb andb].
  destruct (_ <=? d); cbn [criticalSent]; rewrite Hc; cbn [negb andb];
    destruct (_ <=? d); reflexivity.
Qed.

(** C2, as stated, fails on the per-session checks of the daemon: with
    the thresholds 30 s and 2 min, a session that is first seen after
    2 min idle is sent the warning alert although its duration is not
    below the critical threshold, and the warning comparison is the first
    of the two. *)
Lemma idle_checks_send_warning_at_critical :
  let cfg := exampleConfig autoTermOff in
  let conn := session 1002 "payment-api" (t0 - 2 * Minute) in
  let d := postgres.IdleDuration t0 conn in
  let fresh := (lookupOrTrack (cycleAt t0 (Ok (poolOf 10)) (Ok [conn])) conn 1 ∅).2 in
  config.Warning (config.IdleTransaction (config.Thresholds cfg))
    < config.Critical (config.IdleTransaction (config.Thresholds cfg)) /\
  ~ (config.Warning (config.IdleTransaction (config.Thresholds cfg)) <= d
     < config.Critical (config.IdleTransaction (config.Thresholds cfg))) /\
  (checkIdle cfg conn d fresh).2 =
    [ sendIdleTransactionAlert alerts.SeverityWarning 1002 "payment-api" (2 * Minute)
        (postgres.Query conn);
      sendIdleTransactionAlert alerts.SeverityCritical 1002 "payment-api" (2 * Minute)
        (postgres.Query conn) ].
Proof.
  cbv zeta. split; [vm_compute; reflexivity |].
  split; [vm_compute; intros [_ H]; discriminate H |].
  vm_compute. reflexivity.
Qed.

(** C2, amended: [getSeverity] and the pool branch of the cycle compare
    with the critical threshold first and classify as claimed (equality
    counts as crossed; on [float64] the comparison is Go's [>=]).  The
    per-session checks of the daemon are two separate comparisons, the
    warning one first: for a session with no alert sent yet the warning
    alert is sent exactly when [w <= d] and the critical alert exactly
    when [c <= d], so both are sent when [c <= d]. *)
Theorem threshold_classification :
  forall (cfg : config.Config) (d : Duration),
    let w := config.Warning (config.IdleTransaction (config.Thresholds cfg)) in
    let c := config.Critical (config.IdleTransaction (config.Thresholds cfg)) in
    let fw := postgres.float64_of_int
                (config.WarningPercent (config.ConnectionPool (config.Thresholds cfg))) in
    let fc := postgres.float64_of_int
                (config.CriticalPercent (config.ConnectionPool (config.Thresholds cfg))) in
    w < c ->
    (getSeverity d cfg = "[CRIT]" <-> c <= d) /\
    (getSeverity d cfg = "[WARN]" <-> w <= d < c) /\
    (getSeverity d cfg = "" <-> d < w) /\
    (forall u : float,
        (poolSeverity cfg u = Some alerts.SeverityCritical <-> (fc <=? u)%float = true) /\
        (poolSeverity cfg u = Some alerts.SeverityWarning <->
         (fw <=? u)%float = true /\ (fc <=? u)%float = false) /\
        (poolSeverity cfg u = None <->
         (fw <=? u)%float = false /\ (fc <=? u)%float = false)) /\
    (forall (conn : postgres.Connection) (tc : trackedIdle),
        warningSent tc = false -> criticalSent tc = false ->
        let out := (checkIdle cfg conn d tc).2 in
        (countIdleAlerts alerts.SeverityWarning (postgres.PID conn) out = 1%nat <-> w <= d) /\
        (countIdleAlerts alerts.SeverityWarning (postgres.PID conn) out = 0%nat <-> d < w) /\
        (countIdleAlerts alerts.SeverityCritical (postgres.PID conn) out = 1%nat <-> c <= d) /\
        (countIdleAlerts alerts.SeverityCritical (postgres.PID conn) out = 0%nat <-> d < c) /\
        (c <= d -> idleSeverities (postgres.PID conn) out
                   = [alerts.SeverityWarning; alerts.SeverityCritical])).
Proof.
  intros cfg d w c fw fc Hwc.
  split; [| split; [| split; [| split]]].
  - unfold getSeverity. fold w c.
    destruct (Z.leb_spec c d); [split; [lia | reflexivity] |].
    destruct (Z.leb_spec w d); split; try discriminate; lia.
  - unfold getSeverity. fold w c.
    destruct (Z.leb_spec c d); [split; [discriminate | lia] |].
    destruct (Z.leb_spec w d); split; try discriminate; try lia; reflexivity.
  - unfold getSeverity. fold w c.
    destruct (Z.leb_spec c d); [split; [discriminate | lia] |].
    destruct (Z.leb_spec w d); split; try discriminate; try lia; reflexivity.
  - intros u. unfold poolSeverity. fold fw fc.
    destruct (fc <=? u)%float; destruct (fw <=? u)%float;
      repeat split; try discriminate; try reflexivity;
      intros; try congruence; intuition discriminate.
  - intros conn tc Hw Hc out. subst out.
    rewrite (checkIdle_unsent cfg conn d tc Hw Hc). fold w c.
    unfold countIdleAlerts.
    destruct (Z.leb_spec w d); destruct (Z.leb_spec c d); try lia;
      cbn [app List.filter isIdleAlert idleSeverities String.eqb];
      rewrite ?Z.eqb_refl; cbn;
      repeat split; intros; try lia; try discriminate; reflexivity.
Qed.

Lemma threshold_classification_witness :
  getSeverity (29 * Second) (exampleConfig autoTermOff) = "" /\
  getSeverity (30 * Second) (exampleConfig autoTermOff) = "[WARN]" /\
  getSeverity (119 * Second) (exampleConfig autoTermOff) = "[WARN]" /\
  getSeverity (120 * Second) (exampleConfig autoTermOff) = "[CRIT]" /\
  (getSeverity (30 * Second) (exampleConfig autoTermOff) = "[WARN]" <->
   30 * Second <= 30 * Second < 2 * Minute).
Proof.
  repeat (split; [reflexivity |]).
  apply (threshold_classification (exampleConfig autoTermOff) (30 * Second)).
  vm_compute. reflexivity.
Defined.

(** ** Auto-terminate eligibility *)

Lemma existsb_eqb_In (x : string) (l : list string) :
  existsb (String.eqb x) l = true <-> In x l.
Proof.
  rewrite existsb_exists. split.
  - intros (y & Hy & Heq). apply String.eqb_eq in Heq. now subst.
  - intros H. exists x. split; [assumption | apply String.eqb_refl].
Qed.

Lemma existsb_eqb_not_In (x : string) (l : list string) :
  existsb (String.eqb x) l = false <-> ~ In x l.
Proof.
  rewrite <- existsb_eqb_In. destruct (existsb _ l); split; congruence.
Qed.

(** The loop stops at the first entry whose name is the application. *)
Lemma protectedLoop_first (conn : postgres.Connection) (d : Duration)
    (pre post : list config.ProtectedApp) (p : config.ProtectedApp) :
  (forall q, In q pre -> config.Name q <> postgres.ApplicationName conn) ->
  config.Name p = postgres.ApplicationName conn ->
  protectedLoop conn d (pre ++ p :: post) =
  if config.RequireConfirmation p then false else config.MinIdleDuration p <=? d.
Proof.
  intros Hpre Hp. induction pre as [| q pre IH]; cbn [app protectedLoop].
  - rewrite Hp, String.eqb_refl.
    destruct (config.RequireConfirmation p); [reflexivity |].
    destruct (Z.ltb_spec d (config.MinIdleDuration p));
      destruct (Z.leb_spec (config.MinIdleDuration p) d); lia || reflexivity.
  - destruct (String.eqb_spec (postgres.ApplicationName conn) (config.Name q)) as [E | _].
    + exfalso. apply (Hpre q); [left; reflexivity | congruence].
    + apply IH. intros q' Hq'. apply Hpre. right. assumption.
Qed.

Lemma protectedLoop_none (conn : postgres.Connection) (d : Duration)
    (apps : list config.ProtectedApp) :
  (forall q, In q apps -> config.Name q <> postgres.ApplicationName conn) ->
  protectedLoop conn d apps = true.
Proof.
  intros Hno. induction apps as [| q apps IH]; cbn [protectedLoop]; [reflexivity |].
  destruct (String.eqb_spec (postgres.ApplicationName conn) (config.Name q)) as [E | _].
  - exfalso. apply (Hno q); [left; reflexivity | congruence].
  - apply IH. intros q' Hq'. apply Hno. right. assumption.
Qed.

(** C6: auto-terminate is evaluated only when it is enabled and the idle
    duration has reached [After]; [shouldTerminate] then decides by the
    first rule that applies: an application in [ExcludeApps] is never
    eligible; else a client address in [ExcludeIPs] is never eligible;
    else, for the first protected entry named like the application, never
    eligible if it requires confirmation and otherwise eligible exactly
    when the duration reaches the minimum idle duration of that entry; any
    other session is eligible. *)
Theorem auto_terminate_policy :
  forall (cfg : config.Config) (cyc : Cycle) (conn : postgres.Connection) (d : Duration),
    let at_ := config.AutoTerm cfg in
    let app := postgres.ApplicationName conn in
    (config.Enabled at_ = false \/ d < config.After at_ ->
     autoTerminate cfg cyc conn d = []) /\
    (shouldTerminate cfg conn d = false -> autoTerminate cfg cyc conn d = []) /\
    (In app (config.ExcludeApps at_) -> shouldTerminate cfg conn d = false) /\
    (~ In app (config.ExcludeApps at_) ->
     In (postgres.ClientAddr conn) (config.ExcludeIPs at_) ->
     shouldTerminate cfg conn d = false) /\
    (~ In app (config.ExcludeApps at_) ->
     ~ In (postgres.ClientAddr conn) (config.ExcludeIPs at_) ->
     forall (pre post : list config.ProtectedApp) (p : config.ProtectedApp),
       config.ProtectedApps at_ = pre ++ p :: post ->
       (forall q, In q pre -> config.Name q <> app) ->
       config.Name p = app ->
       (config.RequireConfirmation p = true -> shouldTerminate cfg conn d = false) /\
       (config.RequireConfirmation p = false ->
        (shouldTerminate cfg conn d = true <-> config.MinIdleDuration p <= d))) /\
    (~ In app (config.ExcludeApps at_) ->
     ~ In (postgres.ClientAddr conn) (config.ExcludeIPs at_) ->
     (forall q, In q (config.ProtectedApps at_) -> config.Name q <> app) ->
     shouldTerminate cfg conn d = true).
Proof.
  intros cfg cyc conn d at_ app.
  split; [| split; [| split; [| split; [| split]]]].
  - intros [Hoff | Hlt]; unfold autoTerminate; fold at_.
    + rewrite Hoff. reflexivity.
    + destruct (Z.leb_spec (config.After at_) d); [lia |].
      rewrite andb_false_r. reflexivity.
  - intros Hno. unfold autoTerminate. rewrite Hno.
    destruct (_ && _); reflexivity.
  - intros Hin. unfold shouldTerminate. fold at_ app.
    apply existsb_eqb_In in Hin. rewrite Hin. reflexivity.
  - intros Hout Hin. unfold shouldTerminate. fold at_ app.
    apply existsb_eqb_not_In in Hout. apply existsb_eqb_In in Hin.
    rewrite Hout, Hin. reflexivity.
  - intros Hout Hip pre post p Happs Hpre Hp. unfold shouldTerminate. fold at_ app.
    apply existsb_eqb_not_In in Hout. apply existsb_eqb_not_In in Hip.
    rewrite Hout, Hip, Happs, (protectedLoop_first conn d pre post p Hpre Hp).
    split; intros Hrc; rewrite Hrc; [reflexivity |].
    destruct (Z.leb_spec (config.MinIdleDuration p) d); split; intros; lia || congruence.
  - intros Hout Hip Hno. unfold shouldTerminate. fold at_ app.
    apply existsb_eqb_not_In in Hout. apply existsb_eqb_not_In in Hip.
    rewrite Hout, Hip. apply protectedLoop_none. assumption.
Qed.

(** The cases of the test of [shouldTerminate]. *)
Example shouldTerminate_cases :
  let cfg := exampleConfig autoTermOn in
  let conn app ip := {| postgres.PID := 7; postgres.ApplicationName := app;
                        postgres.ClientAddr := ip; postgres.StateChange := t0;
                        postgres.Query := "" |} in
  shouldTerminate cfg (conn "pg_dump" "192.168.1.100") (1000 * Hour) = false /\
  shouldTerminate cfg (conn "myapp" "10.0.0.1") (5 * Minute) = false /\
  shouldTerminate cfg (conn "critical-service" "192.168.1.100") (3 * Minute) = false /\
  shouldTerminate cfg (conn "critical-service" "192.168.1.100") (10 * Minute) = true /\
  shouldTerminate cfg (conn "critical-service" "192.168.1.100") (15 * Minute) = true /\
  shouldTerminate cfg (conn "important-service" "192.168.1.100") (1000 * Hour) = false /\
  shouldTerminate cfg (conn "webapp" "192.168.1.50") (5 * Minute) = true.
Proof. vm_compute. repeat split; reflexivity. Qed.

Lemma auto_terminate_policy_witness :
  let cfg := exampleConfig autoTermOn in
  let conn := {| postgres.PID := 7; postgres.ApplicationName := "critical-service";
                 postgres.ClientAddr := "192.168.1.100"; postgres.StateChange := t0;
                 postgres.Query := "" |} in
  (shouldTerminate cfg conn (15 * Minute) = true <-> 10 * Minute <= 15 * Minute) /\
  autoTerminate cfg (cycleAt t0 (Ok (poolOf 10)) (Ok [])) conn (3 * Minute) = [].
Proof.
  cbv zeta.
  pose proof (auto_terminate_policy (exampleConfig autoTermOn)
                (cycleAt t0 (Ok (poolOf 10)) (Ok []))
                {| postgres.PID := 7; postgres.ApplicationName := "critical-service";
                   postgres.ClientAddr := "192.168.1.100"; postgres.StateChange := t0;
                   postgres.Query := "" |}) as H.
  split.
  - destruct (H (15 * Minute)) as (_ & _ & _ & _ & Hprot & _).
    refine (proj2 (Hprot _ _ [] _ _ eq_refl _ eq_refl) eq_refl).
    + vm_compute. intros [E | [E | []]]; discriminate E.
    + vm_compute. intros [E | []]; discriminate E.
    + intros q [].
  - destruct (H (3 * Minute)) as (Hgate & _).
    apply Hgate. right. vm_compute. reflexivity.
Defined.

(** ** One pass of the loop over the idle transactions *)

Section OnePass.

Variable cfg : config.Config.
Variable cyc : Cycle.

#[local] Abbreviation w := (config.Warning (config.IdleTransaction (config.Thresholds cfg))).
#[local] Abbreviation c := (config.Critical (config.IdleTransaction (config.Thresholds cfg))).

(** The two checks in closed form: a flag is set when it was set or the
    threshold is reached, and an alert is sent when the flag was unset and
    the threshold is reached. *)
Lemma checkIdle_eq (conn : postgres.Connection) (d : Duration) (tc : trackedIdle) :
  checkIdle cfg conn d tc =
  ({| pid := pid tc; appName := appName tc; query := query tc;
      firstSeen := firstSeen tc;
      warningSent := warningSent tc || (w <=? d);
      criticalSent := criticalSent tc || (c <=? d) |},
   (if negb (warningSent tc) && (w <=? d) then [warningAlert conn d] else []) ++
   (if negb (criticalSent tc) && (c <=? d) then [criticalAlert conn d] else [])).
Proof.
  unfold checkIdle. destruct tc as [p a q f ws cs]. cbn.
  destruct ws, cs, (w <=? d), (c <=? d); reflexivity.
Qed.

Lemma lookupOrTrack_flags (conn : postgres.Connection) (n : nat)
    (tbl : gmap Z trackedIdle) :
  warningSent (lookupOrTrack cyc conn n tbl).2 = warned tbl (postgres.PID conn) /\
  criticalSent (lookupOrTrack cyc conn n tbl).2 = escalated tbl (postgres.PID conn).
Proof.
  unfold lookupOrTrack, warned, escalated.
  destruct (tbl !! postgres.PID conn); split; reflexivity.
Qed.

(** One pass in closed form. *)
Lemma handleConn_eq (conn : postgres.Connection) (n : nat) (tbl : gmap Z trackedIdle) :
  let p := postgres.PID conn in
  let d := postgres.IdleDuration (Now cyc n) conn in
  exists (n' : nat) (tc' : trackedIdle),
    handleConn cfg cyc conn n tbl =
    (n', <[p := tc']> tbl,
     ((if negb (warned tbl p) && (w <=? d) then [warningAlert conn d] else []) ++
      (if negb (escalated tbl p) && (c <=? d) then [criticalAlert conn d] else [])) ++
     autoTerminate cfg cyc conn d) /\
    warningSent tc' = warned tbl p || (w <=? d) /\
    criticalSent tc' = escalated tbl p || (c <=? d) /\
    (forall tc, tbl !! p = Some tc ->
                pid tc' = pid tc /\ appName tc' = appName tc /\
                query tc' = query tc /\ firstSeen tc' = firstSeen tc).
Proof.
  intros p d. unfold handleConn. fold d.
  destruct (lookupOrTrack_flags conn (S n) tbl) as [Hw Hc].
  destruct (lookupOrTrack cyc conn (S n) tbl) as [n1 tc] eqn:E.
  cbn [snd] in Hw, Hc. rewrite checkIdle_eq, Hw, Hc. fold p.
  eexists _, _. split; [reflexivity |]. cbn [warningSent criticalSent].
  split; [reflexivity |]. split; [reflexivity |].
  intros tc0 Htc0. unfold lookupOrTrack in E. fold p in E. rewrite Htc0 in E.
  injection E as _ <-. cbn. repeat split; reflexivity.
Qed.

Lemma autoTerminate_phase (conn : postgres.Connection) (d : Duration) :
  Forall (fun e => phase e = AutoTerminate /\ about (postgres.PID conn) e = true)
         (autoTerminate cfg cyc conn d).
Proof.
  unfold autoTerminate.
  destruct (_ && _); [| constructor].
  destruct (shouldTerminate cfg conn d); [| constructor].
  destruct (config.DryRun _); [constructor |].
  constructor; [split; [reflexivity | apply Z.eqb_refl] |].
  destruct (TerminateBackend cyc _) as [[|] | e]; repeat constructor.
  apply Z.eqb_refl.
Qed.

Lemma idleAlerts_phase (conn : postgres.Connection) (d : Duration) (b1 b2 : bool) :
  Forall (fun e => phase e = SessionIdle /\ about (postgres.PID conn) e = true)
         ((if b1 then [warningAlert conn d] else []) ++
          (if b2 then [criticalAlert conn d] else [])).
Proof.
  destruct b1, b2; repeat constructor; apply Z.eqb_refl.
Qed.

End OnePass.

(** ** Counting the calls for one backend *)

Lemma countIdleAlerts_app (s : string) (p : Z) (a b : list Effect) :
  countIdleAlerts s p (a ++ b) = (countIdleAlerts s p a + countIdleAlerts s p b)%nat.
Proof. unfold countIdleAlerts. rewrite List.filter_app, length_app. reflexivity. Qed.

Lemma idleSeverities_app (p : Z) (a b : list Effect) :
  idleSeverities p (a ++ b) = idleSeverities p a ++ idleSeverities p b.
Proof.
  induction a as [| e a IH]; [reflexivity |].
  destruct e; cbn [app idleSeverities]; try assumption.
  destruct (_ =? p); [cbn [app]; f_equal |]; assumption.
Qed.

Lemma isIdleAlert_about (s : string) (p : Z) (e : Effect) :
  isIdleAlert s p e = true -> about p e = true /\ phase e = SessionIdle.
Proof.
  destruct e; cbn; try discriminate.
  intros H. apply andb_true_iff in H as [_ H]. split; [assumption | reflexivity].
Qed.

(** Calls made for another backend, or in another phase, do not count. *)
Lemma silent_about (p : Z) (out : list Effect) :
  List.filter (about p) out = [] ->
  forall s, countIdleAlerts s p out = 0%nat /\ idleSeverities p out = [].
Proof.
  intros H s. unfold countIdleAlerts.
  induction out as [| e out IH]; [split; reflexivity |].
  cbn [List.filter] in H. destruct (about p e) eqn:E; [discriminate |].
  specialize (IH H) as [IH1 IH2]. cbn [List.filter].
  destruct (isIdleAlert s p e) eqn:Ei.
  - apply isIdleAlert_about in Ei as [Ei _]. congruence.
  - split; [assumption |]. destruct e; cbn [idleSeverities]; try assumption.
    cbn in E. rewrite E. assumption.
Qed.

Lemma silent_other_phase (p : Z) (out : list Effect) :
  Forall (fun e => phase e <> SessionIdle) out ->
  forall s, countIdleAlerts s p out = 0%nat /\ idleSeverities p out = [].
Proof.
  intros H s. unfold countIdleAlerts.
  induction H as [| e out He _ [IH1 IH2]]; [split; reflexivity |].
  cbn [List.filter]. destruct (isIdleAlert s p e) eqn:Ei.
  - apply isIdleAlert_about in Ei as [_ Ei]. contradiction.
  - split; [assumption |]. destruct e; cbn [idleSeverities]; try assumption.
    exfalso. apply He. reflexivity.
Qed.

Lemma filter_about_other (p q : Z) (out : list Effect) :
  q <> p -> Forall (fun e => about q e = true) out -> List.filter (about p) out = [].
Proof.
  intros Hne H. induction H as [| e out He _ IH]; [reflexivity |].
  cbn [List.filter]. destruct (about p e) eqn:E; [| assumption].
  exfalso. destruct e; cbn in He, E; try discriminate; lia.
Qed.

Lemma filter_about_phase (p : Z) (ph : Phase) (out : list Effect) :
  Forall (fun e => phase e = ph) out ->
  Forall (fun e => phase e = ph) (List.filter (about p) out).
Proof.
  intros H. induction H as [| e out He _ IH]; [constructor |].
  cbn [List.filter]. destruct (about p e); [constructor |]; assumption.
Qed.

Lemma warned_insert (tbl : gmap Z trackedIdle) (q p : Z) (tc : trackedIdle) :
  warned (<[q := tc]> tbl) p = if decide (q = p) then warningSent tc else warned tbl p.
Proof. unfold warned. rewrite lookup_insert. destruct (decide (q = p)); reflexivity. Qed.

Lemma escalated_insert (tbl : gmap Z trackedIdle) (q p : Z) (tc : trackedIdle) :
  escalated (<[q := tc]> tbl) p = if decide (q = p) then criticalSent tc else escalated tbl p.
Proof. unfold escalated. rewrite lookup_insert. destruct (decide (q = p)); reflexivity. Qed.

Section Passes.

Variable cfg : config.Config.
Variable cyc : Cycle.

#[local] Abbreviation w := (config.Warning (config.IdleTransaction (config.Thresholds cfg))).
#[local] Abbreviation c := (config.Critical (config.IdleTransaction (config.Thresholds cfg))).

(** What one pass does for backend [p], when it is the pass of [p] and
    when it is the pass of another backend. *)
Lemma handleConn_on (conn : postgres.Connection) (n : nat) (tbl : gmap Z trackedIdle)
    (p : Z) :
  let d := postgres.IdleDuration (Now cyc n) conn in
  let r := handleConn cfg cyc conn n tbl in
  (postgres.PID conn = p ->
   warned r.1.2 p = warned tbl p || (w <=? d) /\
   escalated r.1.2 p = escalated tbl p || (c <=? d) /\
   idleSeverities p r.2 =
     (if negb (warned tbl p) && (w <=? d) then [alerts.SeverityWarning] else []) ++
     (if negb (escalated tbl p) && (c <=? d) then [alerts.SeverityCritical] else []) /\
   countIdleAlerts alerts.SeverityWarning p r.2
     = Nat.b2n (negb (warned tbl p) && (w <=? d)) /\
   countIdleAlerts alerts.SeverityCritical p r.2
     = Nat.b2n (negb (escalated tbl p) && (c <=? d)) /\
   is_Some (r.1.2 !! p)) /\
  (postgres.PID conn <> p ->
   r.1.2 !! p = tbl !! p /\ List.filter (about p) r.2 = []) /\
  (forall tc, tbl !! p = Some tc ->
     exists tc', r.1.2 !! p = Some tc' /\
                 appName tc' = appName tc /\ firstSeen tc' = firstSeen tc).
Proof.
  intros d r. subst r.
  destruct (handleConn_eq cfg cyc conn n tbl) as (n' & tc' & -> & Hw & Hc & Hsame).
  fold d in Hw, Hc |- *. cbn [fst snd].
  pose proof (autoTerminate_phase cfg cyc conn d) as Hterm.
  split; [| split].
  - intros <-. rewrite warned_insert, escalated_insert, !decide_True by reflexivity.
    rewrite lookup_insert_eq.
    assert (Hsil : forall s, countIdleAlerts s (postgres.PID conn)
                               (autoTerminate cfg cyc conn d) = 0%nat /\
                             idleSeverities (postgres.PID conn)
                               (autoTerminate cfg cyc conn d) = []).
    { apply silent_other_phase. eapply Forall_impl; [exact Hterm |].
      intros e [He _]. rewrite He. discriminate. }
    rewrite idleSeverities_app, !countIdleAlerts_app.
    rewrite (proj2 (Hsil alerts.SeverityWarning)), (proj1 (Hsil alerts.SeverityWarning)),
      (proj1 (Hsil alerts.SeverityCritical)), app_nil_r, !Nat.add_0_r.
    repeat split; try assumption; try (eexists; reflexivity).
    + destruct (negb _ && _), (negb _ && _); cbn; rewrite ?Z.eqb_refl; reflexivity.
    + unfold countIdleAlerts.
      destruct (negb _ && _), (negb _ && _); cbn; rewrite ?Z.eqb_refl; reflexivity.
    + unfold countIdleAlerts.
      destruct (negb _ && _), (negb _ && _); cbn; rewrite ?Z.eqb_refl; reflexivity.
  - intros Hne. split; [apply lookup_insert_ne; assumption |].
    apply (filter_about_other p (postgres.PID conn)); [assumption |].
    apply Forall_app. split.
    + eapply Forall_impl; [apply idleAlerts_phase |]. intros e [_ He]. exact He.
    + eapply Forall_impl; [exact Hterm |]. intros e [_ He]. exact He.
  - intros tc Htc. destruct (decide (postgres.PID conn = p)) as [<- | Hne].
    + exists tc'. rewrite lookup_insert_eq. split; [reflexivity |].
      destruct (Hsame tc Htc) as (_ & Ha & _ & Hf). split; assumption.
    + exists tc. rewrite lookup_insert_ne by assumption. repeat split; assumption.
Qed.

Lemma connLoop_cons (conn : postgres.Connection) (rest : list postgres.Connection)
    (n : nat) (tbl : gmap Z trackedIdle) (seen : gset Z) :
  connLoop cfg cyc (conn :: rest) n tbl seen =
  let h := handleConn cfg cyc conn n tbl in
  let r := connLoop cfg cyc rest h.1.1 h.1.2 ({[postgres.PID conn]} ∪ seen) in
  (r.1.1.1, r.1.1.2, r.1.2, h.2 ++ r.2).
Proof.
  cbn [connLoop]. destruct (handleConn cfg cyc conn n tbl) as [[n1 tbl1] out1].
  cbn [fst snd].
  destruct (connLoop cfg cyc rest n1 tbl1 _) as [[[n2 tbl2] seen2] out2].
  reflexivity.
Qed.

End Passes.

(** ** The loop over the idle transactions *)

Section Loop.

Variable cfg : config.Config.
Variable cyc : Cycle.

#[local] Abbreviation w := (config.Warning (config.IdleTransaction (config.Thresholds cfg))).
#[local] Abbreviation c := (config.Critical (config.IdleTransaction (config.Thresholds cfg))).

(** The alerts sent for [p] during the loop are accounted for by the
    flags of [p]: an alert is counted exactly when its flag goes from
    unset to set. *)
Lemma connLoop_counts (conns : list postgres.Connection) :
  forall (n : nat) (tbl : gmap Z trackedIdle) (seen : gset Z) (p : Z),
    let r := connLoop cfg cyc conns n tbl seen in
    (countIdleAlerts alerts.SeverityWarning p r.2 + Nat.b2n (warned tbl p)
     = Nat.b2n (warned r.1.1.2 p))%nat /\
    (countIdleAlerts alerts.SeverityCritical p r.2 + Nat.b2n (escalated tbl p)
     = Nat.b2n (escalated r.1.1.2 p))%nat.
Proof.
  induction conns as [| conn rest IH]; intros n tbl seen p r; subst r.
  - cbn. split; reflexivity.
  - rewrite connLoop_cons. cbv zeta. cbn [fst snd].
    set (h := handleConn cfg cyc conn n tbl).
    specialize (IH h.1.1 h.1.2 ({[postgres.PID conn]} ∪ seen) p).
    cbv zeta in IH. destruct IH as [IHw IHc].
    rewrite !countIdleAlerts_app.
    destruct (handleConn_on cfg cyc conn n tbl p) as (Hsame & Hother & _).
    fold h in Hsame, Hother.
    destruct (decide (postgres.PID conn = p)) as [E | E].
    + destruct (Hsame E) as (Hw & Hc & _ & Hcw & Hcc & _).
      rewrite Hw in IHw. rewrite Hc in IHc. rewrite Hcw, Hcc.
      split.
      * rewrite <- IHw. destruct (warned tbl p), (_ <=? _); cbn; lia.
      * rewrite <- IHc. destruct (escalated tbl p), (_ <=? _); cbn; lia.
    + destruct (Hother E) as [Hlk Hsil].
      destruct (silent_about p _ Hsil alerts.SeverityWarning) as [-> _].
      destruct (silent_about p _ Hsil alerts.SeverityCritical) as [-> _].
      unfold warned, escalated in IHw, IHc |- *. rewrite Hlk in IHw, IHc.
      split; assumption.
Qed.

(** Flags are only ever set during the loop. *)
Lemma connLoop_flags_monotone (conns : list postgres.Connection) (n : nat)
    (tbl : gmap Z trackedIdle) (seen : gset Z) (p : Z) :
  let r := connLoop cfg cyc conns n tbl seen in
  (warned tbl p = true -> warned r.1.1.2 p = true) /\
  (escalated tbl p = true -> escalated r.1.1.2 p = true).
Proof.
  intros r. destruct (connLoop_counts conns n tbl seen p) as [Hw Hc]. fold r in Hw, Hc.
  split; intros H; rewrite H in *; cbn in *.
  - destruct (warned r.1.1.2 p); [reflexivity | cbn in Hw; lia].
  - destruct (escalated r.1.1.2 p); [reflexivity | cbn in Hc; lia].
Qed.

(** [seenPIDs] after the loop, and what the loop leaves alone. *)
Lemma connLoop_seen (conns : list postgres.Connection) :
  forall (n : nat) (tbl : gmap Z trackedIdle) (seen : gset Z) (p : Z),
    let r := connLoop cfg cyc conns n tbl seen in
    (p ∈ r.1.2 <-> p ∈ seen \/ In p (map postgres.PID conns)) /\
    (~ In p (map postgres.PID conns) ->
     r.1.1.2 !! p = tbl !! p /\ List.filter (about p) r.2 = []) /\
    (In p (map postgres.PID conns) -> is_Some (r.1.1.2 !! p)) /\
    (forall tc, tbl !! p = Some tc ->
       exists tc', r.1.1.2 !! p = Some tc' /\
                   appName tc' = appName tc /\ firstSeen tc' = firstSeen tc).
Proof.
  induction conns as [| conn rest IH]; intros n tbl seen p r; subst r.
  - cbn. repeat split; try tauto. intros tc Htc. exists tc. repeat split; assumption.
  - rewrite connLoop_cons. cbv zeta. cbn [fst snd map In].
    set (h := handleConn cfg cyc conn n tbl).
    specialize (IH h.1.1 h.1.2 ({[postgres.PID conn]} ∪ seen) p).
    cbv zeta in IH. destruct IH as (IHseen & IHout & IHin & IHkeep).
    destruct (handleConn_on cfg cyc conn n tbl p) as (Hsame & Hother & Hkeep).
    fold h in Hsame, Hother, Hkeep.
    split; [| split; [| split]].
    + rewrite IHseen. rewrite elem_of_union, elem_of_singleton. intuition congruence.
    + intros Hnot.
      assert (Hne : postgres.PID conn <> p) by tauto.
      assert (Hrest : ~ In p (map postgres.PID rest)) by tauto.
      destruct (Hother Hne) as [Hlk Hsil]. destruct (IHout Hrest) as [Hlk' Hsil'].
      split; [congruence |]. rewrite List.filter_app, Hsil, Hsil'. reflexivity.
    + intros [E | Hin]; [| apply IHin; assumption].
      destruct (Hsame E) as (_ & _ & _ & _ & _ & [tc Htc]).
      destruct (IHkeep tc Htc) as (tc' & Htc' & _). eexists; exact Htc'.
    + intros tc Htc. destruct (Hkeep tc Htc) as (tc1 & Htc1 & Ha1 & Hf1).
      destruct (IHkeep tc1 Htc1) as (tc2 & Htc2 & Ha2 & Hf2).
      exists tc2. repeat split; congruence.
Qed.

(** A session whose idle duration is at or past a threshold at every
    reading of the clock has the flag of that threshold set after the
    loop. *)
Lemma connLoop_reaches (conns : list postgres.Connection) :
  forall (n : nat) (tbl : gmap Z trackedIdle) (seen : gset Z)
         (conn : postgres.Connection),
    In conn conns ->
    let r := connLoop cfg cyc conns n tbl seen in
    ((forall k, w <= postgres.IdleDuration (Now cyc k) conn) ->
     warned r.1.1.2 (postgres.PID conn) = true) /\
    ((forall k, c <= postgres.IdleDuration (Now cyc k) conn) ->
     escalated r.1.1.2 (postgres.PID conn) = true).
Proof.
  induction conns as [| conn0 rest IH]; intros n tbl seen conn Hin r; subst r;
    [destruct Hin |].
  rewrite connLoop_cons. cbv zeta. cbn [fst snd].
  set (h := handleConn cfg cyc conn0 n tbl).
  destruct Hin as [-> | Hin]; [| apply IH; assumption].
  destruct (handleConn_on cfg cyc conn n tbl (postgres.PID conn)) as (Hsame & _).
  fold h in Hsame. destruct (Hsame eq_refl) as (Hw & Hc & _).
  destruct (connLoop_flags_monotone rest h.1.1 h.1.2
              ({[postgres.PID conn]} ∪ seen) (postgres.PID conn)) as [Mw Mc].
  split; intros Hall.
  - apply Mw. rewrite Hw. apply orb_true_iff. right. apply Z.leb_le, Hall.
  - apply Mc. rewrite Hc. apply orb_true_iff. right. apply Z.leb_le, Hall.
Qed.

(** With [w <= c] a critical flag is never set without the warning flag,
    and the alerts sent for [p] are the warning alert, if the warning flag
    was set during the loop, followed by the critical alert, if the
    critical flag was. *)
Lemma connLoop_order (conns : list postgres.Connection) :
  w <= c ->
  forall (n : nat) (tbl : gmap Z trackedIdle) (seen : gset Z) (p : Z),
    (escalated tbl p = true -> warned tbl p = true) ->
    let r := connLoop cfg cyc conns n tbl seen in
    (escalated r.1.1.2 p = true -> warned r.1.1.2 p = true) /\
    idleSeverities p r.2 =
      (if negb (warned tbl p) && warned r.1.1.2 p then [alerts.SeverityWarning] else []) ++
      (if negb (escalated tbl p) && escalated r.1.1.2 p
       then [alerts.SeverityCritical] else []).
Proof.
  intros Hwc. induction conns as [| conn rest IH]; intros n tbl seen p Hinv r; subst r.
  - cbn [connLoop fst snd idleSeverities]. split; [assumption |].
    destruct (warned tbl p), (escalated tbl p); reflexivity.
  - rewrite connLoop_cons. cbv zeta. cbn [fst snd].
    set (h := handleConn cfg cyc conn n tbl).
    destruct (handleConn_on cfg cyc conn n tbl p) as (Hsame & Hother & _).
    fold h in Hsame, Hother.
    pose proof (connLoop_flags_monotone rest h.1.1 h.1.2
                  ({[postgres.PID conn]} ∪ seen) p) as [Mw Mc].
    specialize (IH h.1.1 h.1.2 ({[postgres.PID conn]} ∪ seen) p).
    cbv zeta in IH, Mw, Mc. rewrite idleSeverities_app.
    destruct (decide (postgres.PID conn = p)) as [E | E].
    + destruct (Hsame E) as (Hw & Hc & Hsev & _).
      set (d := postgres.IdleDuration (Now cyc n) conn) in *.
      assert (Hinv1 : escalated h.1.2 p = true -> warned h.1.2 p = true).
      { rewrite Hw, Hc. destruct (Z.leb_spec w d), (Z.leb_spec c d); try lia;
          rewrite ?orb_true_r, ?orb_false_r; auto. }
      destruct (IH Hinv1) as [IHinv IHsev]. split; [assumption |].
      rewrite Hsev, IHsev. rewrite Hw, Hc in *.
      destruct (warned tbl p), (escalated tbl p), (w <=? d), (c <=? d);
        cbn [negb andb orb] in *;
        destruct (warned _ p), (escalated _ p);
        cbn [negb andb orb app] in *;
        try reflexivity;
        try (specialize (Mw eq_refl)); try (specialize (Mc eq_refl));
        try (specialize (IHinv eq_refl)); try (specialize (Hinv eq_refl));
        try (specialize (Hinv1 eq_refl)); discriminate.
    + destruct (Hother E) as [Hlk Hsil].
      destruct (silent_about p _ Hsil alerts.SeverityWarning) as [_ ->].
      assert (Hw : warned h.1.2 p = warned tbl p) by (unfold warned; now rewrite Hlk).
      assert (Hc : escalated h.1.2 p = escalated tbl p)
        by (unfold escalated; now rewrite Hlk).
      rewrite Hw, Hc in IH. destruct (IH Hinv) as [IHinv IHsev].
      split; [assumption |]. rewrite IHsev. reflexivity.
Qed.

(** The calls of the loop, pass by pass: for each connection, in the
    order of the list, the alerts of the threshold checks followed by the
    calls of auto-terminate. *)
Lemma connLoop_blocks (conns : list postgres.Connection) :
  forall (n : nat) (tbl : gmap Z trackedIdle) (seen : gset Z),
  exists blocks : list (list Effect * list Effect),
    (connLoop cfg cyc conns n tbl seen).2 = concat (map (fun b => b.1 ++ b.2) blocks) /\
    Forall2 (fun conn b => sessionBlock (postgres.PID conn) b.1 b.2) conns blocks.
Proof.
  induction conns as [| conn rest IH]; intros n tbl seen.
  - exists []. split; [reflexivity | constructor].
  - rewrite connLoop_cons. cbv zeta. cbn [fst snd].
    destruct (handleConn_eq cfg cyc conn n tbl) as (n' & tc' & -> & _).
    cbn [fst snd].
    destruct (IH n' (<[postgres.PID conn := tc']> tbl) ({[postgres.PID conn]} ∪ seen))
      as (blocks & -> & HF).
    eexists ((_, _) :: blocks). split; [cbn [map concat fst snd]; reflexivity |].
    constructor; [| assumption]. split; cbn [fst snd].
    + apply idleAlerts_phase.
    + apply autoTerminate_phase.
Qed.

End Loop.

(** ** Reconciliation of resolved sessions *)

Section Resolve.

Variable cyc : Cycle.
Variable seen : gset Z.

Lemma resolveLoop_cons (p : Z) (tc : trackedIdle) (rest : list (Z * trackedIdle))
    (n : nat) (tbl : gmap Z trackedIdle) :
  resolveLoop cyc seen ((p, tc) :: rest) n tbl =
  if bool_decide (p ∈ seen) then resolveLoop cyc seen rest n tbl
  else
    let r := resolveLoop cyc seen rest (S n) (delete p tbl) in
    (r.1.1, r.1.2, resolvedAlert cyc n p tc ++ r.2).
Proof.
  cbn [resolveLoop]. destruct (bool_decide (p ∈ seen)); [reflexivity |].
  destruct (resolveLoop cyc seen rest (S n) (delete p tbl)) as [[n2 tbl2] out2].
  reflexivity.
Qed.

Lemma resolvedAlert_phase (n : nat) (p : Z) (tc : trackedIdle) :
  Forall (fun e => phase e = Reconcile /\ about p e = true) (resolvedAlert cyc n p tc).
Proof.
  unfold resolvedAlert. destruct (_ || _); repeat constructor. apply Z.eqb_refl.
Qed.

Lemma resolveLoop_phase (items : list (Z * trackedIdle)) :
  forall (n : nat) (tbl : gmap Z trackedIdle),
    Forall (fun e => phase e = Reconcile) (resolveLoop cyc seen items n tbl).2.
Proof.
  induction items as [| [p tc] rest IH]; intros n tbl; [constructor |].
  rewrite resolveLoop_cons. destruct (bool_decide (p ∈ seen)); [apply IH |].
  cbv zeta. cbn [snd]. apply Forall_app. split; [| apply IH].
  eapply Forall_impl; [apply resolvedAlert_phase |]. intros e [He _]. exact He.
Qed.

(** The loop only deletes, and it leaves alone the backends seen in this
    cycle and those that the range does not yield. *)
Lemma resolveLoop_keeps (items : list (Z * trackedIdle)) :
  forall (n : nat) (tbl : gmap Z trackedIdle) (p : Z),
    let r := resolveLoop cyc seen items n tbl in
    (r.1.2 !! p = tbl !! p \/ r.1.2 !! p = None) /\
    (p ∈ seen \/ p ∉ items.*1 ->
     r.1.2 !! p = tbl !! p /\ List.filter (about p) r.2 = []).
Proof.
  induction items as [| [q tc] rest IH]; intros n tbl p r; subst r.
  - cbn. split; [left; reflexivity | intros _; split; reflexivity].
  - rewrite resolveLoop_cons. destruct (bool_decide_reflect (q ∈ seen)) as [Hq | Hq].
    + destruct (IH n tbl p) as [IH1 IH2]. split; [exact IH1 |].
      intros H. apply IH2. destruct H as [H | H]; [left; exact H |].
      right. intros Hin. apply H. cbn [fmap list_fmap]. right. exact Hin.
    + cbv zeta. cbn [fst snd].
      destruct (IH (S n) (delete q tbl) p) as [IH1 IH2]. split.
      * destruct IH1 as [-> | ->]; [| right; reflexivity].
        destruct (decide (q = p)) as [-> | Hne].
        -- right. apply lookup_delete_eq.
        -- left. apply lookup_delete_ne. assumption.
      * intros H.
        assert (Hne : q <> p).
        { intros ->. destruct H as [H | H]; [contradiction |].
          apply H. cbn [fmap list_fmap]. left. }
        assert (H' : p ∈ seen \/ p ∉ rest.*1).
        { destruct H as [H | H]; [left; exact H |].
          right. intros Hin. apply H. cbn [fmap list_fmap]. right. exact Hin. }
        destruct (IH2 H') as [-> Hsil]. split; [apply lookup_delete_ne; assumption |].
        rewrite List.filter_app, Hsil, app_nil_r.
        apply (filter_about_other p q); [assumption |].
        eapply Forall_impl; [apply resolvedAlert_phase |]. intros e [_ He]. exact He.
Qed.

(** A tracked backend that was not seen in this cycle is deleted, and a
    resolved alert is sent for it exactly when one of its flags is set. *)
Lemma resolveLoop_resolves (items : list (Z * trackedIdle)) :
  NoDup items.*1 ->
  forall (n : nat) (tbl : gmap Z trackedIdle) (p : Z) (tc : trackedIdle),
    (p, tc) ∈ items -> p ∉ seen ->
    let r := resolveLoop cyc seen items n tbl in
    r.1.2 !! p = None /\
    exists k : nat, List.filter (about p) r.2 = resolvedAlert cyc k p tc.
Proof.
  induction items as [| [q tc0] rest IH]; intros Hnd n tbl p tc Hin Hp r; subst r.
  - apply elem_of_nil in Hin. destruct Hin.
  - cbn [fmap list_fmap] in Hnd. apply NoDup_cons in Hnd as [Hq Hnd].
    rewrite resolveLoop_cons. apply elem_of_cons in Hin as [Heq | Hin].
    + injection Heq as <- <-.
      rewrite bool_decide_eq_false_2 by assumption. cbv zeta. cbn [fst snd].
      destruct (resolveLoop_keeps rest (S n) (delete p tbl) p) as [_ Hkeep].
      destruct (Hkeep (or_intror Hq)) as [-> Hsil]. split; [apply lookup_delete_eq |].
      exists n. rewrite List.filter_app, Hsil, app_nil_r.
      unfold resolvedAlert. destruct (_ || _); [| reflexivity].
      cbn. rewrite Z.eqb_refl. reflexivity.
    + assert (Hne : q <> p).
      { intros ->. apply Hq. apply list_elem_of_fmap. exists (p, tc). split; [reflexivity | assumption]. }
      destruct (bool_decide_reflect (q ∈ seen)) as [Hqs | Hqs].
      * apply IH; assumption.
      * cbv zeta. cbn [fst snd].
        destruct (IH Hnd (S n) (delete q tbl) p tc Hin Hp) as [Hnone [k Hk]].
        split; [assumption |]. exists k. rewrite List.filter_app, Hk.
        rewrite (filter_about_other p q); [reflexivity | assumption |].
        eapply Forall_impl; [apply resolvedAlert_phase |]. intros e [_ He]. exact He.
Qed.

End Resolve.

(** ** One cycle *)

Lemma canSendPoolAlert_closed (now : Time) (a : alertCooldown) (severity : string)
    (cd : Duration) :
  (canSendPoolAlert now a severity cd).1 = false ->
  (canSendPoolAlert now a severity cd).2 = a.
Proof.
  unfold canSendPoolAlert.
  destruct (String.eqb severity alerts.SeverityWarning).
  - destruct (cd <=? _); [discriminate | reflexivity].
  - destruct (String.eqb severity alerts.SeverityCritical); [| reflexivity].
    destruct (cd <=? _); [discriminate | reflexivity].
Qed.

(** The pool check makes at most one call, a pool alert, and it makes it
    exactly when the gate of the severity found opens. *)
Lemma checkPool_out (cfg : config.Config) (cyc : Cycle) (stats : postgres.PoolStats)
    (n : nat) (a : alertCooldown) :
  let r := checkPool cfg cyc stats n a in
  Forall (fun e => phase e = PoolThreshold) r.2 /\
  (r.2 = [] -> r.1.2 = a) /\
  (r.2 = [] \/
   exists severity,
     poolSeverity cfg (postgres.UsagePercent stats) = Some severity /\
     canSendPoolAlert (Now cyc n) a severity (config.Cooldown (config.Alerts cfg))
       = (true, r.1.2) /\
     r.2 = [sendPoolAlert severity (postgres.TotalConnections stats)
              (sub64 (postgres.MaxConnections stats) (postgres.ReservedSuperuser stats))
              (postgres.UsagePercent stats)]).
Proof.
  unfold checkPool.
  destruct (poolSeverity cfg (postgres.UsagePercent stats)) as [severity |];
    [| cbn; repeat split; auto].
  pose proof (canSendPoolAlert_closed (Now cyc n) a severity
                (config.Cooldown (config.Alerts cfg))) as Hclosed.
  destruct (canSendPoolAlert (Now cyc n) a severity _) as [[|] a'] eqn:E;
    cbn [fst snd] in *.
  - split; [repeat constructor |]. split; [discriminate |].
    right. exists severity. rewrite E. repeat split; reflexivity.
  - split; [constructor |]. split; [intros _; apply Hclosed; reflexivity |].
    left. reflexivity.
Qed.

(** [pollAndAlert] by cases on the two fetches. *)
Lemma pollAndAlert_eq (cfg : config.Config) (cyc : Cycle) (d : Daemon) :
  pollAndAlert cfg cyc d =
  match GetPoolStats cyc with
  | Err e => (Some e, d, [])
  | Ok stats =>
      let pl := checkPool cfg cyc stats 0 (cooldown d) in
      match GetIdleTransactions cyc with
      | Err e => (Some e, {| cooldown := pl.1.2; tracked := tracked d |}, pl.2)
      | Ok conns =>
          let lp := connLoop cfg cyc conns pl.1.1 (tracked d) ∅ in
          let rs := resolveLoop cyc lp.1.2 (rangeTracked cyc lp.1.1.2) lp.1.1.1 lp.1.1.2 in
          (None, {| cooldown := pl.1.2; tracked := rs.1.2 |}, pl.2 ++ lp.2 ++ rs.2)
      end
  end.
Proof.
  unfold pollAndAlert. destruct (GetPoolStats cyc) as [stats | e]; [| reflexivity].
  destruct (checkPool cfg cyc stats 0 (cooldown d)) as [[n0 a] out0].
  destruct (GetIdleTransactions cyc) as [conns | e]; [| reflexivity].
  cbv zeta. cbn [fst snd].
  destruct (connLoop cfg cyc conns n0 (tracked d) ∅) as [[[n1 tbl1] seenPIDs] out1].
  cbn [fst snd].
  destruct (resolveLoop cyc seenPIDs (rangeTracked cyc tbl1) n1 tbl1) as [[n2 tbl2] out2].
  reflexivity.
Qed.

Lemma monitorLoopFrom_cons (cfg : config.Config) (cyc : Cycle) (rest : list Cycle)
    (d : Daemon) :
  monitorLoopFrom cfg (cyc :: rest) d =
  let r := pollAndAlert cfg cyc d in
  let m := monitorLoopFrom cfg rest r.1.2 in
  (m.1, r.2 ++ m.2).
Proof.
  cbn [monitorLoopFrom]. destruct (pollAndAlert cfg cyc d) as [[err d1] out1].
  cbn [fst snd]. destruct (monitorLoopFrom cfg rest d1) as [d2 out2]. reflexivity.
Qed.

Section Cycles.

Variable cfg : config.Config.

#[local] Abbreviation w := (config.Warning (config.IdleTransaction (config.Thresholds cfg))).
#[local] Abbreviation c := (config.Critical (config.IdleTransaction (config.Thresholds cfg))).

(** The pool alert is not an alert for a backend. *)
Lemma pool_silent (p : Z) (out : list Effect) :
  Forall (fun e => phase e = PoolThreshold) out -> List.filter (about p) out = [].
Proof.
  intros H. induction H as [| e out He _ IH]; [reflexivity |].
  destruct e; try discriminate He. cbn. exact IH.
Qed.

(** A flag that is set stays set over a cycle as long as the entity is in
    the table. *)
Lemma pollAndAlert_flags_monotone (cyc : Cycle) (d : Daemon) (p : Z) :
  let r := pollAndAlert cfg cyc d in
  is_Some (tracked r.1.2 !! p) ->
  (warned (tracked d) p = true -> warned (tracked r.1.2) p = true) /\
  (escalated (tracked d) p = true -> escalated (tracked r.1.2) p = true).
Proof.
  rewrite pollAndAlert_eq.
  destruct (GetPoolStats cyc) as [stats | e]; [| cbn; tauto].
  destruct (GetIdleTransactions cyc) as [conns | e]; [| cbn; tauto].
  cbv zeta. cbn [fst snd tracked].
  set (pl := checkPool cfg cyc stats 0 (cooldown d)).
  set (lp := connLoop cfg cyc conns pl.1.1 (tracked d) ∅).
  intros [tc' Htc'].
  destruct (resolveLoop_keeps cyc lp.1.2 (rangeTracked cyc lp.1.1.2) lp.1.1.1 lp.1.1.2 p)
    as [[Hk | Hk] _]; [| congruence].
  destruct (connLoop_flags_monotone cfg cyc conns pl.1.1 (tracked d) ∅ p) as [Mw Mc].
  fold lp in Mw, Mc. unfold warned, escalated in *. rewrite Hk. split; assumption.
Qed.

(** Over a cycle in which [p] is present, or of which a fetch fails, the
    alerts sent for [p] are accounted for by its flags. *)
Lemma pollAndAlert_counts (cyc : Cycle) (d : Daemon) (p : Z) :
  presentIn p cyc ->
  let r := pollAndAlert cfg cyc d in
  (countIdleAlerts alerts.SeverityWarning p r.2 + Nat.b2n (warned (tracked d) p)
   = Nat.b2n (warned (tracked r.1.2) p))%nat /\
  (countIdleAlerts alerts.SeverityCritical p r.2 + Nat.b2n (escalated (tracked d) p)
   = Nat.b2n (escalated (tracked r.1.2) p))%nat.
Proof.
  intros Hin. unfold presentIn in Hin. rewrite pollAndAlert_eq.
  destruct (GetPoolStats cyc) as [stats | e]; [| cbn; split; reflexivity].
  destruct (checkPool_out cfg cyc stats 0 (cooldown d)) as (Hpool & _).
  pose proof (silent_about p _ (pool_silent p _ Hpool)) as Hsil.
  destruct (GetIdleTransactions cyc) as [conns | e]; cbv zeta; cbn [fst snd tracked].
  - set (pl := checkPool cfg cyc stats 0 (cooldown d)) in *.
    set (lp := connLoop cfg cyc conns pl.1.1 (tracked d) ∅).
    set (rs := resolveLoop cyc lp.1.2 (rangeTracked cyc lp.1.1.2) lp.1.1.1 lp.1.1.2).
    destruct (connLoop_counts cfg cyc conns pl.1.1 (tracked d) ∅ p) as [Cw Cc].
    destruct (connLoop_seen cfg cyc conns pl.1.1 (tracked d) ∅ p) as (Hseen & _).
    fold lp in Cw, Cc, Hseen.
    assert (Hp : p ∈ lp.1.2) by (apply Hseen; right; apply (Hin stats conns); reflexivity).
    destruct (resolveLoop_keeps cyc lp.1.2 (rangeTracked cyc lp.1.1.2) lp.1.1.1 lp.1.1.2 p)
      as [_ Hkeep].
    destruct (Hkeep (or_introl Hp)) as [Hlk Hres]. fold rs in Hlk, Hres.
    pose proof (silent_about p _ Hres) as Hsil2.
    rewrite !countIdleAlerts_app.
    rewrite (proj1 (Hsil alerts.SeverityWarning)), (proj1 (Hsil alerts.SeverityCritical)),
      (proj1 (Hsil2 alerts.SeverityWarning)), (proj1 (Hsil2 alerts.SeverityCritical)).
    unfold warned, escalated in *. rewrite Hlk. split; lia.
  - rewrite (proj1 (Hsil alerts.SeverityWarning)), (proj1 (Hsil alerts.SeverityCritical)).
    split; reflexivity.
Qed.

(** With [w <= c], no cycle leaves a critical flag set without the
    warning flag. *)
Lemma pollAndAlert_invariant (cyc : Cycle) (d : Daemon) (p : Z) :
  w <= c ->
  (escalated (tracked d) p = true -> warned (tracked d) p = true) ->
  let r := pollAndAlert cfg cyc d in
  escalated (tracked r.1.2) p = true -> warned (tracked r.1.2) p = true.
Proof.
  intros Hwc Hinv. rewrite pollAndAlert_eq.
  destruct (GetPoolStats cyc) as [stats | e]; [| exact Hinv].
  destruct (GetIdleTransactions cyc) as [conns | e]; [| exact Hinv].
  cbv zeta. cbn [fst snd tracked].
  set (pl := checkPool cfg cyc stats 0 (cooldown d)).
  set (lp := connLoop cfg cyc conns pl.1.1 (tracked d) ∅).
  destruct (connLoop_order cfg cyc conns Hwc pl.1.1 (tracked d) ∅ p Hinv) as [Hinv1 _].
  fold lp in Hinv1.
  destruct (resolveLoop_keeps cyc lp.1.2 (rangeTracked cyc lp.1.1.2) lp.1.1.1 lp.1.1.2 p)
    as [[Hk | Hk] _]; unfold warned, escalated in *; rewrite Hk;
    [exact Hinv1 | discriminate].
Qed.

Lemma monitorLoopFrom_invariant (ticks : list Cycle) :
  w <= c ->
  forall (d : Daemon) (p : Z),
    (escalated (tracked d) p = true -> warned (tracked d) p = true) ->
    escalated (tracked (monitorLoopFrom cfg ticks d).1) p = true ->
    warned (tracked (monitorLoopFrom cfg ticks d).1) p = true.
Proof.
  intros Hwc. induction ticks as [| cyc rest IH]; intros d p Hinv; [exact Hinv |].
  rewrite monitorLoopFrom_cons. cbv zeta. cbn [fst].
  apply IH. apply pollAndAlert_invariant; assumption.
Qed.

(** Over a run in which [p] is present in every cycle, the alerts sent
    for [p] are accounted for by its flags at both ends. *)
Lemma monitorLoopFrom_counts (ticks : list Cycle) :
  forall (d : Daemon) (p : Z),
    (forall cyc, In cyc ticks -> presentIn p cyc) ->
    let r := monitorLoopFrom cfg ticks d in
    (countIdleAlerts alerts.SeverityWarning p r.2 + Nat.b2n (warned (tracked d) p)
     = Nat.b2n (warned (tracked r.1) p))%nat /\
    (countIdleAlerts alerts.SeverityCritical p r.2 + Nat.b2n (escalated (tracked d) p)
     = Nat.b2n (escalated (tracked r.1) p))%nat.
Proof.
  induction ticks as [| cyc rest IH]; intros d p Hin r; subst r.
  - cbn. split; reflexivity.
  - rewrite monitorLoopFrom_cons. cbv zeta. cbn [fst snd].
    destruct (pollAndAlert_counts cyc d p (Hin cyc (or_introl eq_refl))) as [Cw Cc].
    cbv zeta in Cw, Cc.
    destruct (IH (pollAndAlert cfg cyc d).1.2 p
                (fun cyc' H => Hin cyc' (or_intror H))) as [Rw Rc].
    cbv zeta in Rw, Rc. rewrite !countIdleAlerts_app. split; lia.
Qed.

End Cycles.

(** ** The alerting state machine *)

Lemma Validate_thresholds (databaseURL : string) (cfg : config.Config) :
  config.Validate databaseURL cfg = None ->
  config.Warning (config.IdleTransaction (config.Thresholds cfg))
  < config.Critical (config.IdleTransaction (config.Thresholds cfg)) /\
  config.WarningPercent (config.ConnectionPool (config.Thresholds cfg))
  < config.CriticalPercent (config.ConnectionPool (config.Thresholds cfg)).
Proof.
  unfold config.Validate. destruct (_ && _); [discriminate |].
  destruct (Z.leb_spec (config.Critical (config.IdleTransaction (config.Thresholds cfg)))
              (config.Warning (config.IdleTransaction (config.Thresholds cfg))));
    [discriminate |].
  destruct (Z.leb_spec (config.CriticalPercent (config.ConnectionPool (config.Thresholds cfg)))
              (config.WarningPercent (config.ConnectionPool (config.Thresholds cfg))));
    [discriminate |].
  intros _. split; assumption.
Qed.

Lemma rangeOK_cycleAt (t : Time) (stats : result postgres.PoolStats)
    (conns : result (list postgres.Connection)) :
  rangeOK (cycleAt t stats conns).
Proof. intros m. reflexivity. Qed.

(** C1: over every run of cycles in which backend [p] is in the list of
    idle transactions of each cycle that fetches it, at most one warning
    alert and at most one critical alert is sent for [p]; a flag that is
    set at the start is still set at the end and no alert of its severity
    is sent again.  Over any single cycle at all, a flag that is set is
    still set afterwards if the entity is still in the table. *)
Theorem one_alert_per_episode :
  forall (cfg : config.Config) (ticks : list Cycle) (d : Daemon) (p : Z),
    (forall cyc, In cyc ticks -> presentIn p cyc) ->
    let r := monitorLoopFrom cfg ticks d in
    (countIdleAlerts alerts.SeverityWarning p r.2 <= 1)%nat /\
    (countIdleAlerts alerts.SeverityCritical p r.2 <= 1)%nat /\
    (forall tc, tracked d !! p = Some tc -> warningSent tc = true ->
       countIdleAlerts alerts.SeverityWarning p r.2 = 0%nat /\
       exists tc', tracked r.1 !! p = Some tc' /\ warningSent tc' = true) /\
    (forall tc, tracked d !! p = Some tc -> criticalSent tc = true ->
       countIdleAlerts alerts.SeverityCritical p r.2 = 0%nat /\
       exists tc', tracked r.1 !! p = Some tc' /\ criticalSent tc' = true) /\
    (forall (cyc : Cycle) (d0 : Daemon) (tc tc' : trackedIdle),
       tracked d0 !! p = Some tc ->
       tracked (pollAndAlert cfg cyc d0).1.2 !! p = Some tc' ->
       (warningSent tc = true -> warningSent tc' = true) /\
       (criticalSent tc = true -> criticalSent tc' = true)).
Proof.
  intros cfg ticks d p Hin r.
  destruct (monitorLoopFrom_counts cfg ticks d p Hin) as [Cw Cc]. fold r in Cw, Cc.
  split; [| split; [| split; [| split]]].
  - destruct (warned (tracked r.1) p), (warned (tracked d) p); cbn in Cw; lia.
  - destruct (escalated (tracked r.1) p), (escalated (tracked d) p); cbn in Cc; lia.
  - intros tc Htc Hset. unfold warned in Cw. rewrite Htc, Hset in Cw. cbn in Cw.
    destruct (tracked r.1 !! p) as [tc' |]; [| cbn in Cw; lia].
    destruct (warningSent tc') eqn:E; cbn in Cw; [| lia].
    split; [lia | exists tc'; split; [reflexivity | assumption]].
  - intros tc Htc Hset. unfold escalated in Cc. rewrite Htc, Hset in Cc. cbn in Cc.
    destruct (tracked r.1 !! p) as [tc' |]; [| cbn in Cc; lia].
    destruct (criticalSent tc') eqn:E; cbn in Cc; [| lia].
    split; [lia | exists tc'; split; [reflexivity | assumption]].
  - intros cyc d0 tc tc' Htc Htc'.
    destruct (pollAndAlert_flags_monotone cfg cyc d0 p) as [Mw Mc];
      [rewrite Htc'; eexists; reflexivity |].
    unfold warned, escalated in Mw, Mc. rewrite Htc, Htc' in Mw, Mc.
    split; assumption.
Qed.

Lemma one_alert_per_episode_witness :
  let r := monitorLoopFrom (exampleConfig autoTermOff) (firstn 2 scenario) daemon0 in
  (countIdleAlerts alerts.SeverityWarning 1002 r.2 <= 1)%nat /\
  (countIdleAlerts alerts.SeverityCritical 1002 r.2 <= 1)%nat.
Proof.
  assert (Hin : forall cyc, In cyc (firstn 2 scenario) -> presentIn 1002 cyc).
  { intros cyc [<- | [<- | []]] stats conns _ Hc; injection Hc as <-; left; reflexivity. }
  destruct (one_alert_per_episode (exampleConfig autoTermOff) (firstn 2 scenario)
              daemon0 1002 Hin) as (Hw & Hc & _).
  split; assumption.
Defined.



(** C5: in a daemon started with a valid configuration, no entity has
    its critical flag set without its warning flag; and when a session
    whose warning flag is unset (a session not tracked yet included) is in
    the list of a cycle with an idle duration at or past the critical
    threshold, the cycle sends for it exactly the warning alert followed
    by the critical alert and sets both flags. *)
Theorem critical_never_without_warning :
  forall (databaseURL : string) (cfg : config.Config) (ticks : list Cycle)
         (a : alertCooldown),
    config.Validate databaseURL cfg = None ->
    let d := (monitorLoop cfg ticks a).1 in
    (forall p, escalated (tracked d) p = true -> warned (tracked d) p = true) /\
    (forall (cyc : Cycle) (stats : postgres.PoolStats)
            (conns : list postgres.Connection) (conn : postgres.Connection),
        GetPoolStats cyc = Ok stats ->
        GetIdleTransactions cyc = Ok conns ->
        In conn conns ->
        warned (tracked d) (postgres.PID conn) = false ->
        (forall k, config.Critical (config.IdleTransaction (config.Thresholds cfg))
                   <= postgres.IdleDuration (Now cyc k) conn) ->
        let r := pollAndAlert cfg cyc d in
        idleSeverities (postgres.PID conn) r.2
          = [alerts.SeverityWarning; alerts.SeverityCritical] /\
        countIdleAlerts alerts.SeverityWarning (postgres.PID conn) r.2 = 1%nat /\
        countIdleAlerts alerts.SeverityCritical (postgres.PID conn) r.2 = 1%nat /\
        warned (tracked r.1.2) (postgres.PID conn) = true /\
        escalated (tracked r.1.2) (postgres.PID conn) = true).
Proof.
  intros databaseURL cfg ticks a Hvalid d.
  destruct (Validate_thresholds databaseURL cfg Hvalid) as [Hwc _].
  assert (Hinv : forall p, escalated (tracked d) p = true -> warned (tracked d) p = true).
  { intros p. apply monitorLoopFrom_invariant; [lia |]. cbn. discriminate. }
  split; [exact Hinv |].
  intros cyc stats conns conn Hstats Hconns Hin Hw0 Hall r.
  set (p := postgres.PID conn) in *.
  assert (Hc0 : escalated (tracked d) p = false).
  { destruct (escalated (tracked d) p) eqn:E; [| reflexivity].
    rewrite (Hinv p E) in Hw0. discriminate. }
  assert (Hpresent : presentIn p cyc).
  { intros stats' conns' _ Hc'. rewrite Hconns in Hc'. injection Hc' as <-.
    apply in_map. exact Hin. }
  destruct (pollAndAlert_counts cfg cyc d p Hpresent) as [Cw Cc].
  fold r in Cw, Cc. rewrite Hw0 in Cw. rewrite Hc0 in Cc.
  assert (Hflags : warned (tracked r.1.2) p = true /\ escalated (tracked r.1.2) p = true
                   /\ idleSeverities p r.2 = [alerts.SeverityWarning; alerts.SeverityCritical]).
  { subst r. rewrite pollAndAlert_eq, Hstats, Hconns. cbv zeta. cbn [fst snd tracked].
    set (pl := checkPool cfg cyc stats 0 (cooldown d)).
    set (lp := connLoop cfg cyc conns pl.1.1 (tracked d) ∅).
    destruct (checkPool_out cfg cyc stats 0 (cooldown d)) as (Hpool & _). fold pl in Hpool.
    destruct (connLoop_reaches cfg cyc conns pl.1.1 (tracked d) ∅ conn Hin) as [Rw Rc].
    fold lp p in Rw, Rc.
    assert (Hw1 : warned lp.1.1.2 p = true) by (apply Rw; intros k; specialize (Hall k); lia).
    assert (Hc1 : escalated lp.1.1.2 p = true) by (apply Rc; exact Hall).
    destruct (connLoop_seen cfg cyc conns pl.1.1 (tracked d) ∅ p) as (Hseen & _).
    fold lp in Hseen.
    assert (Hp : p ∈ lp.1.2) by (apply Hseen; right; apply in_map; exact Hin).
    destruct (resolveLoop_keeps cyc lp.1.2 (rangeTracked cyc lp.1.1.2) lp.1.1.1 lp.1.1.2 p)
      as [_ Hkeep].
    destruct (Hkeep (or_introl Hp)) as [Hlk Hres].
    destruct (connLoop_order cfg cyc conns ltac:(lia) pl.1.1 (tracked d) ∅ p (Hinv p))
      as [_ Hsev].
    fold lp in Hsev. rewrite Hw0, Hc0, Hw1, Hc1 in Hsev. cbn in Hsev.
    split; [unfold warned in *; rewrite Hlk; exact Hw1 |].
    split; [unfold escalated in *; rewrite Hlk; exact Hc1 |].
    rewrite !idleSeverities_app, Hsev.
    rewrite (proj2 (silent_about p _ (pool_silent p _ Hpool) alerts.SeverityWarning)).
    rewrite (proj2 (silent_about p _ Hres alerts.SeverityWarning)).
    reflexivity. }
  destruct Hflags as (Hw1 & Hc1 & Hsev). rewrite Hw1 in Cw. rewrite Hc1 in Cc.
  cbn in Cw, Cc. repeat split; try assumption; lia.
Qed.

Lemma critical_never_without_warning_witness :
  let cfg := exampleConfig autoTermOff in
  let conn := session 2002 "reporting" (t0 - 3 * Minute) in
  let cyc := cycleAt t0 (Ok (poolOf 10)) (Ok [conn]) in
  idleSeverities 2002 (pollAndAlert cfg cyc (monitorLoop cfg [] cooldown0).1).2
  = [alerts.SeverityWarning; alerts.SeverityCritical].
Proof.
  cbv zeta.
  destruct (critical_never_without_warning "" (exampleConfig autoTermOff) [] cooldown0
              eq_refl) as [_ H].
  refine (proj1 (H (cycleAt t0 (Ok (poolOf 10))
                      (Ok [session 2002 "reporting" (t0 - 3 * Minute)]))
                   (poolOf 10) [session 2002 "reporting" (t0 - 3 * Minute)]
                   (session 2002 "reporting" (t0 - 3 * Minute))
                   eq_refl eq_refl (or_introl eq_refl) eq_refl _)).
  intros k. vm_compute. discriminate.
Defined.

(** ** Failed fetches *)

(** C7, as stated, fails when it is the second fetch that fails: the
    pool thresholds have been checked by then.  With the pool full and
    the list of idle transactions timing out, the cycle sends the critical
    pool alert and records its time in the gate. *)
Lemma second_fetch_failure_mutates :
  let r := pollAndAlert (exampleConfig autoTermOff) timedOut daemon0 in
  GetIdleTransactions timedOut = Err "context deadline exceeded" /\
  r.1.1 = Some "context deadline exceeded" /\
  r.2 = [sendPoolAlert alerts.SeverityCritical 97 97 100%float] /\
  cooldown r.1.2 = {| lastPoolWarning := zeroTime; lastPoolCritical := t0 |} /\
  cooldown r.1.2 <> cooldown daemon0.
Proof.
  cbv zeta. split; [reflexivity |]. split; [reflexivity |].
  split; [vm_compute; reflexivity |]. split; [vm_compute; reflexivity |].
  vm_compute. discriminate.
Qed.

(** C7, amended: when the fetch of the pool statistics fails, the cycle
    returns the error with the table and the gate untouched and no call
    made.  When the fetch of the idle transactions fails, the cycle
    returns the error with the table untouched and no call made for any
    session; the pool check has run before: it has made no call and left
    the gate as it was, or it has sent one pool alert and recorded its
    time in the gate.  In both cases the loop goes on with the next
    tick. *)
Theorem fetch_failure_skips_sessions :
  forall (cfg : config.Config) (cyc : Cycle) (d : Daemon),
    let r := pollAndAlert cfg cyc d in
    (forall e, GetPoolStats cyc = Err e -> r = (Some e, d, [])) /\
    (forall stats e,
        GetPoolStats cyc = Ok stats ->
        GetIdleTransactions cyc = Err e ->
        r.1.1 = Some e /\
        tracked r.1.2 = tracked d /\
        Forall (fun ev => phase ev = PoolThreshold) r.2 /\
        (r.2 = [] /\ cooldown r.1.2 = cooldown d \/
         exists severity,
           poolSeverity cfg (postgres.UsagePercent stats) = Some severity /\
           canSendPoolAlert (Now cyc 0) (cooldown d) severity
             (config.Cooldown (config.Alerts cfg)) = (true, cooldown r.1.2) /\
           r.2 = [sendPoolAlert severity (postgres.TotalConnections stats)
                    (sub64 (postgres.MaxConnections stats)
                       (postgres.ReservedSuperuser stats))
                    (postgres.UsagePercent stats)])) /\
    (forall rest : list Cycle,
        monitorLoopFrom cfg (cyc :: rest) d =
        ((monitorLoopFrom cfg rest r.1.2).1, r.2 ++ (monitorLoopFrom cfg rest r.1.2).2)).
Proof.
  intros cfg cyc d r. subst r. split; [| split].
  - intros e He. rewrite pollAndAlert_eq, He. reflexivity.
  - intros stats e Hstats He. rewrite pollAndAlert_eq, Hstats, He.
    cbv zeta. cbn [fst snd tracked cooldown].
    destruct (checkPool_out cfg cyc stats 0 (cooldown d)) as (Hphase & Hclosed & Hcases).
    cbv zeta in Hphase, Hclosed, Hcases.
    split; [reflexivity |]. split; [reflexivity |]. split; [exact Hphase |].
    destruct Hcases as [Hnil | Hsent]; [left | right; exact Hsent].
    split; [exact Hnil | apply Hclosed; exact Hnil].
  - intros rest. apply monitorLoopFrom_cons.
Qed.

Lemma fetch_failure_skips_sessions_witness :
  let down := cycleAt t0 (Err "connection refused") (Ok []) in
  pollAndAlert (exampleConfig autoTermOff) down daemon0
    = (Some "connection refused", daemon0, []) /\
  tracked (pollAndAlert (exampleConfig autoTermOff) timedOut daemon0).1.2 = tracked daemon0.
Proof.
  cbv zeta. split.
  - apply (fetch_failure_skips_sessions (exampleConfig autoTermOff)
             (cycleAt t0 (Err "connection refused") (Ok [])) daemon0).
    reflexivity.
  - destruct (fetch_failure_skips_sessions (exampleConfig autoTermOff) timedOut daemon0)
      as (_ & H & _).
    apply (H (poolOf 97) "context deadline exceeded" eq_refl eq_refl).
Defined.

(** ** The order of the evaluations *)

Lemma nondecreasing_cons (a : nat) (l : list nat) :
  nondecreasing (a :: l) = true <-> Forall (fun b => (a <= b)%nat) (firstn 1 l) /\ nondecreasing l = true.
Proof.
  destruct l as [| b l]; cbn [nondecreasing firstn].
  - split; [intros _; split; [constructor | reflexivity] | reflexivity].
  - rewrite andb_true_iff, Nat.leb_le. split.
    + intros [H1 H2]. split; [repeat constructor; exact H1 | exact H2].
    + intros [H1 H2]. apply Forall_cons in H1 as [H1 _]. split; assumption.
Qed.

(** A list of calls of one phase followed by calls of later phases in
    order is in order. *)
Lemma phasesInOrder_app (ph : Phase) (l1 l2 : list Effect) :
  Forall (fun e => phase e = ph) l1 ->
  Forall (fun e => (phaseRank ph <= phaseRank (phase e))%nat) l2 ->
  phasesInOrder l2 = true ->
  phasesInOrder (l1 ++ l2) = true.
Proof.
  unfold phasesInOrder. intros H1 H2 H3.
  induction H1 as [| e l1 He Hl1 IH]; [exact H3 |].
  cbn [app map]. apply nondecreasing_cons. split; [| exact IH].
  destruct l1 as [| e' l1]; cbn [app map firstn].
  - destruct l2 as [| e2 l2]; [constructor |]. cbn [map firstn].
    apply Forall_cons in H2 as [H2 _]. rewrite He. repeat constructor. exact H2.
  - apply Forall_cons in Hl1 as [He' _]. rewrite He, He'. repeat constructor.
Qed.

Lemma Forall2_In_right {A B : Type} (P : A -> B -> Prop) (l1 : list A) (l2 : list B)
    (b : B) :
  Forall2 P l1 l2 -> In b l2 -> exists a, In a l1 /\ P a b.
Proof.
  intros H. induction H as [| a b' l1 l2 Hab _ IH]; intros Hb; [destruct Hb |].
  destruct Hb as [-> | Hb].
  - exists a. split; [left; reflexivity | exact Hab].
  - destruct (IH Hb) as (a' & Ha' & HP). exists a'. split; [right; exact Ha' | exact HP].
Qed.

Lemma phasesInOrder_const (ph : Phase) (l : list Effect) :
  Forall (fun e => phase e = ph) l -> phasesInOrder l = true.
Proof.
  intros H. rewrite <- (app_nil_r l).
  apply (phasesInOrder_app ph); [exact H | constructor | reflexivity].
Qed.

(** C8, as stated, fails for the auto-terminate evaluation: it is made
    for each session in the same pass as the threshold checks of that
    session.  With two sessions that are both over every threshold, the
    first backend is terminated before the second session is checked. *)
Lemma auto_terminate_is_interleaved :
  let r := pollAndAlert (exampleConfig autoTermOn) twoSessions daemon0 in
  r.1.1 = None /\
  map phase r.2 =
    [SessionIdle; SessionIdle; AutoTerminate; AutoTerminate;
     SessionIdle; SessionIdle; AutoTerminate; AutoTerminate] /\
  map (about 1) r.2 = [true; true; true; true; false; false; false; false] /\
  phasesInOrder r.2 = false.
Proof. vm_compute. repeat split; reflexivity. Qed.

(** C8, amended: the calls of a cycle of which both fetches succeed are
    the call of the pool check, then for each idle transaction, in the
    order of the list, the alerts of its threshold checks followed by the
    calls of its auto-terminate evaluation, then the resolved alerts of
    the reconciliation.  So the four evaluations are in order for each
    session taken alone, the pool check precedes every session and the
    reconciliation follows them all. *)
Theorem cycle_phase_order :
  forall (cfg : config.Config) (cyc : Cycle) (d : Daemon)
         (stats : postgres.PoolStats) (conns : list postgres.Connection),
    GetPoolStats cyc = Ok stats ->
    GetIdleTransactions cyc = Ok conns ->
    exists (pool resolved : list Effect) (blocks : list (list Effect * list Effect)),
      (pollAndAlert cfg cyc d).2
        = pool ++ concat (map (fun b => b.1 ++ b.2) blocks) ++ resolved /\
      Forall (fun e => phase e = PoolThreshold) pool /\
      Forall2 (fun conn b => sessionBlock (postgres.PID conn) b.1 b.2) conns blocks /\
      Forall (fun e => phase e = Reconcile) resolved /\
      (forall b, In b blocks -> phasesInOrder (pool ++ b.1 ++ b.2 ++ resolved) = true).
Proof.
  intros cfg cyc d stats conns Hstats Hconns.
  rewrite pollAndAlert_eq, Hstats, Hconns. cbv zeta. cbn [fst snd].
  set (pl := checkPool cfg cyc stats 0 (cooldown d)).
  set (lp := connLoop cfg cyc conns pl.1.1 (tracked d) ∅).
  destruct (checkPool_out cfg cyc stats 0 (cooldown d)) as (Hpool & _). fold pl in Hpool.
  destruct (connLoop_blocks cfg cyc conns pl.1.1 (tracked d) ∅) as (blocks & Hout & Hblocks).
  fold lp in Hout.
  pose proof (resolveLoop_phase cyc lp.1.2 (rangeTracked cyc lp.1.1.2) lp.1.1.1 lp.1.1.2)
    as Hres.
  exists pl.2, (resolveLoop cyc lp.1.2 (rangeTracked cyc lp.1.1.2) lp.1.1.1 lp.1.1.2).2, blocks.
  split; [rewrite Hout; reflexivity |].
  split; [exact Hpool |]. split; [exact Hblocks |]. split; [exact Hres |].
  intros b Hb.
  destruct (Forall2_In_right _ _ _ _ Hblocks Hb) as (conn & _ & Hidle & Hterm).
  apply (phasesInOrder_app PoolThreshold); [exact Hpool | |].
  { apply Forall_forall. intros e _. apply Nat.le_0_l. }
  apply (phasesInOrder_app SessionIdle).
  { eapply Forall_impl; [exact Hidle |]. intros e [He _]. exact He. }
  { apply Forall_app. split.
    - eapply Forall_impl; [exact Hterm |]. intros e [He _]. rewrite He. cbn. lia.
    - eapply Forall_impl; [exact Hres |]. intros e He. rewrite He. cbn. lia. }
  apply (phasesInOrder_app AutoTerminate).
  { eapply Forall_impl; [exact Hterm |]. intros e [He _]. exact He. }
  { eapply Forall_impl; [exact Hres |]. intros e He. rewrite He. cbn. lia. }
  apply (phasesInOrder_const Reconcile). exact Hres.
Qed.

Lemma cycle_phase_order_witness :
  exists (pool resolved : list Effect) (blocks : list (list Effect * list Effect)),
    (pollAndAlert (exampleConfig autoTermOn) twoSessions daemon0).2
      = pool ++ concat (map (fun b => b.1 ++ b.2) blocks) ++ resolved /\
    length blocks = 2%nat.
Proof.
  destruct (cycle_phase_order (exampleConfig autoTermOn) twoSessions daemon0
              (poolOf 10)
              [session 1 "webapp" (t0 - 10 * Minute); session 2 "webapp" (t0 - 10 * Minute)]
              eq_refl eq_refl)
    as (pool & resolved & blocks & Hout & _ & Hblocks & _).
  exists pool, resolved, blocks. split; [exact Hout |].
  symmetry. apply (Forall2_length _ _ _ Hblocks).
Defined.

(** ** The end-to-end scenario *)


(** The scenario evaluated with each clock standing still. *)
Example scenario_evaluates :
  let cfg := exampleConfig autoTermOff in
  let r1 := pollAndAlert cfg (seenAt t0 (fun _ => t0)) daemon0 in
  let r2 := pollAndAlert cfg (seenAt t0 (fun _ => t0 + 90 * Second)) r1.1.2 in
  let r3 := pollAndAlert cfg (goneAt (fun _ => t0 + 120 * Second)) r2.1.2 in
  r1.2 = [warningAlert payment (45 * Second)] /\
  tracked r1.1.2 = {[ 1002 := paymentEntity true false ]} /\
  r2.2 = [criticalAlert payment (135 * Second)] /\
  tracked r2.1.2 = {[ 1002 := paymentEntity true true ]} /\
  r3.2 = [sendResolvedAlert 1002 "payment-api" (120 * Second)] /\
  tracked r3.1.2 = ∅.
Proof. vm_compute. repeat split; reflexivity. Qed.

(** The scenario cycle by cycle, for clocks that move during a cycle. *)

Lemma handleConn_unfold (cfg : config.Config) (cyc : Cycle) (conn : postgres.Connection)
    (n : nat) (tbl : gmap Z trackedIdle) :
  handleConn cfg cyc conn n tbl =
  let d := postgres.IdleDuration (Now cyc n) conn in
  let nt := lookupOrTrack cyc conn (S n) tbl in
  (nt.1, <[postgres.PID conn := (checkIdle cfg conn d nt.2).1]> tbl,
   (checkIdle cfg conn d nt.2).2 ++ autoTerminate cfg cyc conn d).
Proof.
  unfold handleConn. cbv zeta.
  destruct (lookupOrTrack cyc conn (S n) tbl) as [n1 tc]. cbn [fst snd].
  destruct (checkIdle cfg conn _ tc) as [tc' alerted]. reflexivity.
Qed.

(** With 9 or 10 of 97 connections in use the pool check is silent. *)
Lemma checkPool_quiet (cyc : Cycle) (total : Z) (n : nat) (a : alertCooldown) :
  total = 9 \/ total = 10 ->
  checkPool (exampleConfig autoTermOff) cyc (poolOf total) n a = (n, a, []).
Proof.
  intros [-> | ->]; unfold checkPool;
    replace (poolSeverity _ _) with (@None string) by (vm_compute; reflexivity);
    reflexivity.
Qed.

Lemma payment_query :
  util.TruncateQuery "UPDATE accounts SET balance = balance - 100" 100
  = "UPDATE accounts SET balance = balance - 100".
Proof. reflexivity. Qed.

Lemma autoTerminate_off (cyc : Cycle) (conn : postgres.Connection) (d : Duration) :
  autoTerminate (exampleConfig autoTermOff) cyc conn d = [].
Proof. reflexivity. Qed.

Lemma scenario_first_cycle (t : Time) (now : nat -> Time) :
  (forall k, t <= now k <= t + 1 * Second) ->
  pollAndAlert (exampleConfig autoTermOff) (seenAt t now) daemon0 =
  (None,
   {| cooldown := cooldown0;
      tracked := {[ 1002 := paymentEntityAt (now 1%nat) true false ]} |},
   [warningAlert (paymentAt t) (now 0%nat - (t - 45 * Second))]).
Proof.
  intros Hnow. rewrite pollAndAlert_eq. step_scenario.
  rewrite checkPool_quiet by (right; reflexivity). cbv zeta. step_scenario.
  rewrite connLoop_cons. cbn [connLoop]. cbv zeta. step_scenario.
  rewrite handleConn_unfold. cbv zeta. unfold lookupOrTrack. step_scenario.
  rewrite lookup_empty. step_scenario.
  rewrite checkIdle_eq, autoTerminate_off, payment_query.
  unfold postgres.IdleDuration. step_scenario.
  pose proof (Hnow 0%nat) as H0.
  assert (Hx : int64 (now 0%nat - (t - 45 * Second))) by (int64_constants; lia).
  rewrite (Sub_exact _ _ Hx).
  replace (30 * Second <=? now 0%nat - (t - 45 * Second)) with true
    by (symmetry; apply Z.leb_le; int64_constants; lia).
  replace (2 * Minute <=? now 0%nat - (t - 45 * Second)) with false
    by (symmetry; apply Z.leb_gt; int64_constants; lia).
  rewrite insert_empty, map_to_list_singleton. cbn [resolveLoop].
  rewrite bool_decide_eq_true_2 by set_solver. step_scenario.
  reflexivity.
Qed.

Lemma scenario_second_cycle (t first : Time) (now : nat -> Time) :
  (forall k, t + 90 * Second <= now k <= t + 91 * Second) ->
  pollAndAlert (exampleConfig autoTermOff) (seenAt t now)
    {| cooldown := cooldown0;
       tracked := {[ 1002 := paymentEntityAt first true false ]} |} =
  (None,
   {| cooldown := cooldown0;
      tracked := {[ 1002 := paymentEntityAt first true true ]} |},
   [criticalAlert (paymentAt t) (now 0%nat - (t - 45 * Second))]).
Proof.
  intros Hnow. rewrite pollAndAlert_eq. step_scenario.
  rewrite checkPool_quiet by (right; reflexivity). cbv zeta. step_scenario.
  rewrite connLoop_cons. cbn [connLoop]. cbv zeta. step_scenario.
  rewrite handleConn_unfold. cbv zeta. unfold lookupOrTrack. step_scenario.
  rewrite lookup_singleton_eq. step_scenario.
  rewrite checkIdle_eq, autoTerminate_off.
  unfold paymentEntityAt, postgres.IdleDuration. step_scenario.
  pose proof (Hnow 0%nat) as H0.
  assert (Hx : int64 (now 0%nat - (t - 45 * Second))) by (int64_constants; lia).
  rewrite (Sub_exact _ _ Hx).
  replace (2 * Minute <=? now 0%nat - (t - 45 * Second)) with true
    by (symmetry; apply Z.leb_le; int64_constants; lia).
  rewrite insert_singleton_eq, map_to_list_singleton. cbn [resolveLoop].
  rewrite bool_decide_eq_true_2 by set_solver. step_scenario.
  reflexivity.
Qed.

Lemma scenario_third_cycle (first : Time) (now : nat -> Time) (critical : bool) :
  int64 (now 0%nat - first) ->
  pollAndAlert (exampleConfig autoTermOff) (goneAt now)
    {| cooldown := cooldown0;
       tracked := {[ 1002 := paymentEntityAt first true critical ]} |} =
  (None, {| cooldown := cooldown0; tracked := ∅ |},
   [sendResolvedAlert 1002 "payment-api" (now 0%nat - first)]).
Proof.
  intros Hx. rewrite pollAndAlert_eq. step_scenario.
  rewrite checkPool_quiet by (left; reflexivity). cbv zeta. step_scenario.
  cbn [connLoop]. step_scenario.
  rewrite map_to_list_singleton. cbn [resolveLoop].
  rewrite bool_decide_eq_false_2 by set_solver.
  unfold paymentEntityAt. step_scenario.
  rewrite (Sub_exact _ _ Hx), delete_singleton_eq.
  reflexivity.
Qed.



(** * Further properties of the daemon *)

(** ** The life cycle of the alerts of one backend *)

Lemma notices_app (p : Z) (a b : list Effect) :
  notices p (a ++ b) = notices p a ++ notices p b.
Proof. apply omap_app. Qed.

Lemma noticeOf_about (p : Z) (e : Effect) :
  about p e = false -> noticeOf p e = None.
Proof. destruct e; cbn; intros H; try reflexivity; rewrite H; reflexivity. Qed.

Lemma notices_filter_about (p : Z) (out : list Effect) :
  notices p out = notices p (List.filter (about p) out).
Proof.
  induction out as [| e out IH]; [reflexivity |].
  cbn [List.filter]. destruct (about p e) eqn:E.
  - unfold notices in *. cbn [omap list_omap]. rewrite IH. reflexivity.
  - unfold notices in *. cbn [omap list_omap]. rewrite (noticeOf_about p e E). exact IH.
Qed.

Lemma notices_silent (p : Z) (out : list Effect) :
  List.filter (about p) out = [] -> notices p out = [].
Proof. intros H. rewrite notices_filter_about, H. reflexivity. Qed.

(** Where no resolved alert is sent, the notices are the severities of
    the idle-transaction alerts. *)
Lemma notices_idleSeverities (p : Z) (out : list Effect) :
  Forall (fun e => phase e <> Reconcile) out ->
  notices p out = map noticeOfSeverity (idleSeverities p out).
Proof.
  intros H. induction H as [| e out He _ IH]; [reflexivity |].
  unfold notices in *.
  destruct e as [? ? ? ? | s q ? ? ? | ? | ? ? ? ? | ? ? ?];
    cbn [omap list_omap noticeOf idleSeverities]; try exact IH.
  - destruct (q =? p); cbn; rewrite IH; reflexivity.
  - exfalso. apply He. reflexivity.
Qed.

Lemma connLoop_phases (cfg : config.Config) (cyc : Cycle)
    (conns : list postgres.Connection) :
  forall (n : nat) (tbl : gmap Z trackedIdle) (seen : gset Z),
    Forall (fun e => phase e = SessionIdle \/ phase e = AutoTerminate)
           (connLoop cfg cyc conns n tbl seen).2.
Proof.
  induction conns as [| conn rest IH]; intros n tbl seen; [constructor |].
  rewrite connLoop_cons. cbv zeta. cbn [fst snd].
  apply Forall_app. split; [| apply IH].
  destruct (handleConn_eq cfg cyc conn n tbl) as (n' & tc' & -> & _). cbn [snd].
  apply Forall_app. split.
  - eapply Forall_impl; [apply idleAlerts_phase |]. intros e [He _]. left. exact He.
  - eapply Forall_impl; [apply autoTerminate_phase |]. intros e [He _]. right. exact He.
Qed.

Lemma connLoop_not_reconcile (cfg : config.Config) (cyc : Cycle)
    (conns : list postgres.Connection) (n : nat) (tbl : gmap Z trackedIdle)
    (seen : gset Z) :
  Forall (fun e => phase e <> Reconcile) (connLoop cfg cyc conns n tbl seen).2.
Proof.
  eapply Forall_impl; [apply connLoop_phases |].
  intros e [He | He]; rewrite He; discriminate.
Qed.

Lemma stageOf_flags (tbl : gmap Z trackedIdle) (p : Z) :
  stageOf tbl p =
  if escalated tbl p then StageCriticalSent
  else if warned tbl p then StageWarningSent else StageNew.
Proof. reflexivity. Qed.

Lemma rangeOK_items (cyc : Cycle) (tbl : gmap Z trackedIdle) :
  rangeOK cyc ->
  NoDup (rangeTracked cyc tbl).*1 /\
  (forall p tc, (p, tc) ∈ rangeTracked cyc tbl <-> tbl !! p = Some tc) /\
  (forall p, p ∈ (rangeTracked cyc tbl).*1 <-> is_Some (tbl !! p)).
Proof.
  intros H. specialize (H tbl). split; [| split].
  - rewrite H. apply NoDup_fst_map_to_list.
  - intros p tc. rewrite H. apply elem_of_map_to_list.
  - intros p. rewrite H. rewrite list_elem_of_fmap. split.
    + intros ([q tc] & -> & Hin). apply elem_of_map_to_list in Hin. eexists; exact Hin.
    + intros [tc Htc]. exists (p, tc). split; [reflexivity |].
      apply elem_of_map_to_list. exact Htc.
Qed.

(** One cycle moves the life cycle of [p] from the stage of its flags
    before the cycle to the stage of its flags after it. *)
Lemma pollAndAlert_stage (cfg : config.Config) (cyc : Cycle) (d : Daemon) (p : Z) :
  config.Warning (config.IdleTransaction (config.Thresholds cfg))
    <= config.Critical (config.IdleTransaction (config.Thresholds cfg)) ->
  rangeOK cyc ->
  (escalated (tracked d) p = true -> warned (tracked d) p = true) ->
  let r := pollAndAlert cfg cyc d in
  stageRun (stageOf (tracked d) p) (notices p r.2) = Some (stageOf (tracked r.1.2) p).
Proof.
  intros Hwc Hrange Hinv. rewrite pollAndAlert_eq.
  destruct (GetPoolStats cyc) as [stats | e]; [| reflexivity].
  destruct (checkPool_out cfg cyc stats 0 (cooldown d)) as (Hpool & _).
  destruct (GetIdleTransactions cyc) as [conns | e]; cbv zeta; cbn [fst snd tracked].
  2:{ rewrite (notices_silent p _ (pool_silent p _ Hpool)). reflexivity. }
  set (pl := checkPool cfg cyc stats 0 (cooldown d)) in *.
  set (lp := connLoop cfg cyc conns pl.1.1 (tracked d) ∅).
  set (rs := resolveLoop cyc lp.1.2 (rangeTracked cyc lp.1.1.2) lp.1.1.1 lp.1.1.2).
  rewrite !notices_app, (notices_silent p _ (pool_silent p _ Hpool)). cbn [app].
  destruct (connLoop_seen cfg cyc conns pl.1.1 (tracked d) ∅ p) as (Hseen & Hout & _).
  fold lp in Hseen, Hout.
  destruct (rangeOK_items cyc lp.1.1.2 Hrange) as (Hnd & Hitem & Hkeys).
  destruct (resolveLoop_keeps cyc lp.1.2 (rangeTracked cyc lp.1.1.2) lp.1.1.1 lp.1.1.2 p)
    as [_ Hkeep]. fold rs in Hkeep.
  destruct (decide (p ∈ lp.1.2)) as [Hp | Hp].
  - (* [p] is in the snapshot *)
    destruct (Hkeep (or_introl Hp)) as [Hlk Hres].
    rewrite (notices_silent p _ Hres), app_nil_r.
    rewrite (notices_idleSeverities p lp.2)
      by apply connLoop_not_reconcile.
    destruct (connLoop_order cfg cyc conns Hwc pl.1.1 (tracked d) ∅ p Hinv) as [Hinv1 Hsev].
    destruct (connLoop_flags_monotone cfg cyc conns pl.1.1 (tracked d) ∅ p) as [Mw Mc].
    fold lp in Hinv1, Hsev, Mw, Mc. rewrite Hsev.
    assert (Hst : stageOf rs.1.2 p = stageOf lp.1.1.2 p)
      by (unfold stageOf, warned, escalated; rewrite Hlk; reflexivity).
    rewrite Hst. unfold stageOf.
    destruct (warned (tracked d) p), (escalated (tracked d) p),
      (warned lp.1.1.2 p), (escalated lp.1.1.2 p);
      cbn in *; try reflexivity;
      try (specialize (Mw eq_refl)); try (specialize (Mc eq_refl));
      try (specialize (Hinv eq_refl)); try (specialize (Hinv1 eq_refl)); discriminate.
  - (* [p] is not in the snapshot *)
    assert (Hnot : ~ In p (map postgres.PID conns)).
    { intros Hin. apply Hp, Hseen. right. exact Hin. }
    destruct (Hout Hnot) as [Hlk Hsil]. rewrite (notices_silent p _ Hsil). cbn [app].
    destruct (tracked d !! p) as [tc |] eqn:Htc.
    + assert (Hitem' : (p, tc) ∈ rangeTracked cyc lp.1.1.2) by (apply Hitem; congruence).
      destruct (resolveLoop_resolves cyc lp.1.2 _ Hnd lp.1.1.1 lp.1.1.2 p tc Hitem' Hp)
        as [Hnone [k Hk]]. fold rs in Hnone, Hk.
      rewrite notices_filter_about, Hk.
      unfold stageOf, warned, escalated in *. rewrite Hnone, Htc in *.
      unfold resolvedAlert.
      destruct (warningSent tc), (criticalSent tc); cbn; rewrite ?Z.eqb_refl; cbn;
        reflexivity.
    + assert (Hno : p ∉ (rangeTracked cyc lp.1.1.2).*1).
      { rewrite Hkeys, Hlk. intros [? ?]. discriminate. }
      destruct (Hkeep (or_intror Hno)) as [Hlk2 Hres].
      rewrite (notices_silent p _ Hres).
      unfold stageOf, warned, escalated. rewrite Hlk2, Hlk, Htc. reflexivity.
Qed.

Lemma stageRun_app (st : Stage) (a b : list Notice) :
  stageRun st (a ++ b) =
  match stageRun st a with Some st' => stageRun st' b | None => None end.
Proof.
  revert st. induction a as [| n a IH]; intros st; [reflexivity |].
  cbn [app stageRun]. destruct (stageStep st n); [apply IH | reflexivity].
Qed.

Lemma monitorLoopFrom_stage (cfg : config.Config) (ticks : list Cycle) :
  config.Warning (config.IdleTransaction (config.Thresholds cfg))
    <= config.Critical (config.IdleTransaction (config.Thresholds cfg)) ->
  (forall cyc, In cyc ticks -> rangeOK cyc) ->
  forall (d : Daemon) (p : Z),
    (escalated (tracked d) p = true -> warned (tracked d) p = true) ->
    let r := monitorLoopFrom cfg ticks d in
    stageRun (stageOf (tracked d) p) (notices p r.2) = Some (stageOf (tracked r.1) p).
Proof.
  intros Hwc. induction ticks as [| cyc rest IH]; intros Hrange d p Hinv; [reflexivity |].
  rewrite monitorLoopFrom_cons. cbv zeta. cbn [fst snd].
  rewrite notices_app, stageRun_app.
  rewrite (pollAndAlert_stage cfg cyc d p Hwc (Hrange cyc (or_introl eq_refl)) Hinv).
  apply IH.
  - intros cyc' H. apply Hrange. right. exact H.
  - apply pollAndAlert_invariant; assumption.
Qed.

(** X1: in a run of the daemon (configuration validated, table empty
    at the start), the idle-transaction and resolved alerts sent for any
    one backend follow the life cycle warning, then possibly critical,
    then resolved: a critical alert comes only directly after the warning
    alert of the same episode, a resolved alert only after a warning or
    critical alert, and after a resolved alert only a new warning.  The
    stage reached is the one of the flags left in the table. *)
Theorem alert_life_cycle :
  forall (databaseURL : string) (cfg : config.Config) (ticks : list Cycle)
         (d : Daemon) (out : list Effect) (p : Z),
    (forall cyc, In cyc ticks -> rangeOK cyc) ->
    runDaemon databaseURL cfg ticks = Ok (d, out) ->
    stageRun StageNew (notices p out) = Some (stageOf (tracked d) p).
Proof.
  intros databaseURL cfg ticks d out p Hrange Hrun. unfold runDaemon in Hrun.
  destruct (config.Validate databaseURL cfg) eqn:Hvalid; [discriminate |].
  destruct (Validate_thresholds databaseURL cfg Hvalid) as [Hwc _].
  injection Hrun as Hrun.
  pose proof (monitorLoopFrom_stage cfg ticks ltac:(lia) Hrange
                {| cooldown := cooldown0; tracked := ∅ |} p) as H.
  unfold monitorLoop in Hrun. rewrite Hrun in H. cbn [fst snd] in H.
  apply H. cbn. discriminate.
Qed.

Lemma alert_life_cycle_witness :
  stageRun StageNew
    (notices 1002 (monitorLoop (exampleConfig autoTermOff) scenario cooldown0).2)
  = Some StageNew.
Proof.
  assert (Hrange : forall cyc, In cyc scenario -> rangeOK cyc).
  { intros cyc [<- | [<- | [<- | []]]]; intros m; reflexivity. }
  rewrite (alert_life_cycle "" (exampleConfig autoTermOff) scenario
             (monitorLoop (exampleConfig autoTermOff) scenario cooldown0).1
             (monitorLoop (exampleConfig autoTermOff) scenario cooldown0).2
             1002 Hrange).
  - vm_compute. reflexivity.
  - vm_compute. reflexivity.
Defined.

(** ** Pool alerts and the cooldown over several cycles *)

Lemma countPoolAlerts_app (s : string) (a b : list Effect) :
  countPoolAlerts s (a ++ b) = (countPoolAlerts s a + countPoolAlerts s b)%nat.
Proof. unfold countPoolAlerts. rewrite List.filter_app, length_app. reflexivity. Qed.

Lemma countPoolAlerts_other_phase (s : string) (out : list Effect) :
  Forall (fun e => phase e <> PoolThreshold) out -> countPoolAlerts s out = 0%nat.
Proof.
  intros H. unfold countPoolAlerts.
  induction H as [| e out He _ IH]; [reflexivity |].
  destruct e; cbn [List.filter isPoolAlert]; try exact IH.
  exfalso. apply He. reflexivity.
Qed.

Lemma poolSeverity_cases (cfg : config.Config) (u : float) (s : string) :
  poolSeverity cfg u = Some s ->
  s = alerts.SeverityWarning \/ s = alerts.SeverityCritical.
Proof.
  unfold poolSeverity. destruct (_ <=? u)%float; [intros [= <-]; right; reflexivity |].
  destruct (_ <=? u)%float; [intros [= <-]; left; reflexivity | discriminate].
Qed.

(** The pool alerts of a cycle are those of its pool check. *)
Lemma pollAndAlert_pool_alerts (cfg : config.Config) (cyc : Cycle) (d : Daemon)
    (s : string) :
  let r := pollAndAlert cfg cyc d in
  match GetPoolStats cyc with
  | Err _ => countPoolAlerts s r.2 = 0%nat /\ cooldown r.1.2 = cooldown d
  | Ok stats =>
      countPoolAlerts s r.2 = countPoolAlerts s (checkPool cfg cyc stats 0 (cooldown d)).2 /\
      cooldown r.1.2 = (checkPool cfg cyc stats 0 (cooldown d)).1.2
  end.
Proof.
  rewrite pollAndAlert_eq. destruct (GetPoolStats cyc) as [stats | e];
    [| split; reflexivity].
  destruct (GetIdleTransactions cyc) as [conns | e]; cbv zeta; cbn [fst snd cooldown];
    [| split; reflexivity].
  split; [| reflexivity].
  rewrite !countPoolAlerts_app.
  rewrite (countPoolAlerts_other_phase s (connLoop _ _ _ _ _ _).2).
  2:{ eapply Forall_impl; [apply connLoop_phases |].
      intros e [He | He]; rewrite He; discriminate. }
  rewrite (countPoolAlerts_other_phase s (resolveLoop _ _ _ _ _).2).
  2:{ eapply Forall_impl; [apply resolveLoop_phase |].
      intros e He; rewrite He; discriminate. }
  lia.
Qed.

Lemma lastPool_warning (a : alertCooldown) :
  lastPool a alerts.SeverityWarning = lastPoolWarning a.
Proof. reflexivity. Qed.

Lemma lastPool_critical (a : alertCooldown) :
  lastPool a alerts.SeverityCritical = lastPoolCritical a.
Proof. reflexivity. Qed.

(** A gate that is asked before its cooldown has elapsed stays shut and
    keeps its time, whatever the other gate does. *)
Lemma checkPool_shut (cfg : config.Config) (cyc : Cycle) (stats : postgres.PoolStats)
    (a : alertCooldown) (s : string) :
  s = alerts.SeverityWarning \/ s = alerts.SeverityCritical ->
  Sub (Now cyc 0) (lastPool a s) < config.Cooldown (config.Alerts cfg) ->
  let r := checkPool cfg cyc stats 0 a in
  countPoolAlerts s r.2 = 0%nat /\ lastPool r.1.2 s = lastPool a s.
Proof.
  intros Hs Hlt. unfold checkPool.
  destruct (poolSeverity cfg (postgres.UsagePercent stats)) as [s' |] eqn:Hsev;
    [| split; reflexivity].
  destruct (poolSeverity_cases _ _ _ Hsev) as [-> | ->];
    destruct Hs as [-> | ->];
    rewrite ?lastPool_warning, ?lastPool_critical in *;
    rewrite ?canSendPoolAlert_warning, ?canSendPoolAlert_critical.
  - destruct (Z.leb_spec (config.Cooldown (config.Alerts cfg))
                (Sub (Now cyc 0) (lastPoolWarning a))); [lia |].
    split; reflexivity.
  - destruct (_ <=? _); split; reflexivity.
  - destruct (_ <=? _); split; reflexivity.
  - destruct (Z.leb_spec (config.Cooldown (config.Alerts cfg))
                (Sub (Now cyc 0) (lastPoolCritical a))); [lia |].
    split; reflexivity.
Qed.

(** A pool alert that is sent leaves the time of the cycle in its gate. *)
Lemma checkPool_sent (cfg : config.Config) (cyc : Cycle) (stats : postgres.PoolStats)
    (a : alertCooldown) (s : string) :
  let r := checkPool cfg cyc stats 0 a in
  countPoolAlerts s r.2 <> 0%nat ->
  (s = alerts.SeverityWarning \/ s = alerts.SeverityCritical) /\
  lastPool r.1.2 s = Now cyc 0 /\
  config.Cooldown (config.Alerts cfg) <= Sub (Now cyc 0) (lastPool a s).
Proof.
  unfold checkPool.
  destruct (poolSeverity cfg (postgres.UsagePercent stats)) as [s' |] eqn:Hsev;
    [| cbn; congruence].
  destruct (poolSeverity_cases _ _ _ Hsev) as [-> | ->].
  - rewrite canSendPoolAlert_warning.
    destruct (Z.leb_spec (config.Cooldown (config.Alerts cfg))
                (Sub (Now cyc 0) (lastPoolWarning a))) as [Hle | Hlt];
      cbn [fst snd]; unfold countPoolAlerts; cbn [List.filter isPoolAlert];
      [| cbn; congruence].
    destruct (String.eqb_spec alerts.SeverityWarning s) as [<- | Hne];
      [| cbn; congruence].
    intros _. rewrite !lastPool_warning. cbn [lastPoolWarning].
    split; [left; reflexivity |]. split; [reflexivity | exact Hle].
  - rewrite canSendPoolAlert_critical.
    destruct (Z.leb_spec (config.Cooldown (config.Alerts cfg))
                (Sub (Now cyc 0) (lastPoolCritical a))) as [Hle | Hlt];
      cbn [fst snd]; unfold countPoolAlerts; cbn [List.filter isPoolAlert];
      [| cbn; congruence].
    destruct (String.eqb_spec alerts.SeverityCritical s) as [<- | Hne];
      [| cbn; congruence].
    intros _. rewrite !lastPool_critical. cbn [lastPoolCritical].
    split; [right; reflexivity |]. split; [reflexivity | exact Hle].
Qed.

(** X2: once a pool alert of a severity has been sent, no pool alert
    of that severity is sent again in any of the following cycles in
    which the clock, when the gate is asked, is less than the cooldown
    past the time of that alert, however many such cycles there are and
    whatever the other severity does. *)
Theorem pool_alert_not_repeated_within_cooldown :
  forall (cfg : config.Config) (first : Cycle) (d : Daemon) (ticks : list Cycle)
         (severity : string),
    countPoolAlerts severity (pollAndAlert cfg first d).2 <> 0%nat ->
    (forall cyc, In cyc ticks ->
       Sub (Now cyc 0) (Now first 0) < config.Cooldown (config.Alerts cfg)) ->
    countPoolAlerts severity
      (monitorLoopFrom cfg ticks (pollAndAlert cfg first d).1.2).2 = 0%nat.
Proof.
  intros cfg first d ticks severity Hsent Hclose.
  pose proof (pollAndAlert_pool_alerts cfg first d severity) as H1. cbv zeta in H1.
  destruct (GetPoolStats first) as [stats | e]; [| destruct H1; congruence].
  destruct H1 as [Hcount Hgate]. rewrite Hcount in Hsent.
  destruct (checkPool_sent cfg first stats (cooldown d) severity Hsent) as (Hs & Hlast & _).
  rewrite <- Hgate in Hlast. revert Hlast Hclose.
  generalize (pollAndAlert cfg first d).1.2 as d1. generalize (Now first 0) as t.
  clear - Hs. intros t d1. revert d1.
  induction ticks as [| cyc rest IH]; intros d1 Hlast Hclose; [reflexivity |].
  rewrite monitorLoopFrom_cons. cbv zeta. cbn [fst snd].
  rewrite countPoolAlerts_app.
  pose proof (pollAndAlert_pool_alerts cfg cyc d1 severity) as H1. cbv zeta in H1.
  assert (Hstep : countPoolAlerts severity (pollAndAlert cfg cyc d1).2 = 0%nat /\
                  lastPool (cooldown (pollAndAlert cfg cyc d1).1.2) severity = t).
  { destruct (GetPoolStats cyc) as [stats | e].
    - destruct H1 as [-> ->]. rewrite <- Hlast. apply checkPool_shut; [exact Hs |].
      rewrite Hlast. apply Hclose. left. reflexivity.
    - destruct H1 as [-> ->]. split; [reflexivity | exact Hlast]. }
  destruct Hstep as [-> Hlast']. cbn [Nat.add].
  apply IH; [exact Hlast' |]. intros cyc' H. apply Hclose. right. exact H.
Qed.

Lemma pool_alert_not_repeated_within_cooldown_witness :
  let cfg := exampleConfig autoTermOff in
  countPoolAlerts alerts.SeverityCritical
    (monitorLoopFrom cfg
       [fullPoolAt (t0 + 1 * Minute); fullPoolAt (t0 + 2 * Minute);
        fullPoolAt (t0 + 4 * Minute)]
       (pollAndAlert cfg (fullPoolAt t0) daemon0).1.2).2 = 0%nat.
Proof.
  cbv zeta.
  apply (pool_alert_not_repeated_within_cooldown (exampleConfig autoTermOff)
           (fullPoolAt t0) daemon0).
  - vm_compute. discriminate.
  - intros cyc [<- | [<- | [<- | []]]]; vm_compute; reflexivity.
Defined.

(** ** What auto-terminate does and does not do *)

Lemma autoTerminate_silent (cfg : config.Config) (cyc : Cycle)
    (conn : postgres.Connection) (d : Duration) :
  config.Enabled (config.AutoTerm cfg) = false \/
  config.DryRun (config.AutoTerm cfg) = true ->
  autoTerminate cfg cyc conn d = [].
Proof.
  intros [H | H]; unfold autoTerminate; rewrite H; [reflexivity |].
  destruct (_ && _); [| reflexivity].
  destruct (shouldTerminate cfg conn d); reflexivity.
Qed.

Lemma connLoop_no_terminate (cfg : config.Config) (cyc : Cycle)
    (conns : list postgres.Connection) :
  config.Enabled (config.AutoTerm cfg) = false \/
  config.DryRun (config.AutoTerm cfg) = true ->
  forall (n : nat) (tbl : gmap Z trackedIdle) (seen : gset Z),
    Forall (fun e => phase e = SessionIdle) (connLoop cfg cyc conns n tbl seen).2.
Proof.
  intros Hoff. induction conns as [| conn rest IH]; intros n tbl seen; [constructor |].
  rewrite connLoop_cons. cbv zeta. cbn [fst snd].
  apply Forall_app. split; [| apply IH].
  destruct (handleConn_eq cfg cyc conn n tbl) as (n' & tc' & -> & _). cbn [snd].
  rewrite (autoTerminate_silent cfg cyc conn _ Hoff), app_nil_r.
  eapply Forall_impl; [apply idleAlerts_phase |]. intros e [He _]. exact He.
Qed.

(** X3: while auto-terminate is disabled or in dry-run mode, a run of
    the daemon never calls [TerminateBackend] and never sends a
    termination alert, whatever the sessions and thresholds are. *)
Theorem dry_run_never_terminates :
  forall (cfg : config.Config) (ticks : list Cycle) (d : Daemon),
    config.Enabled (config.AutoTerm cfg) = false \/
    config.DryRun (config.AutoTerm cfg) = true ->
    Forall (fun e => phase e <> AutoTerminate) (monitorLoopFrom cfg ticks d).2.
Proof.
  intros cfg ticks d Hoff. revert d.
  induction ticks as [| cyc rest IH]; intros d; [constructor |].
  rewrite monitorLoopFrom_cons. cbv zeta. cbn [snd].
  apply Forall_app. split; [| apply IH].
  rewrite pollAndAlert_eq. destruct (GetPoolStats cyc) as [stats | e]; [| constructor].
  destruct (checkPool_out cfg cyc stats 0 (cooldown d)) as (Hpool & _).
  assert (Hp : Forall (fun e => phase e <> AutoTerminate)
                 (checkPool cfg cyc stats 0 (cooldown d)).2).
  { eapply Forall_impl; [exact Hpool |]. intros e He. rewrite He. discriminate. }
  destruct (GetIdleTransactions cyc) as [conns | e]; cbv zeta; cbn [snd]; [| exact Hp].
  apply Forall_app. split; [exact Hp |]. apply Forall_app. split.
  - eapply Forall_impl; [apply (connLoop_no_terminate cfg cyc conns Hoff) |].
    intros e He. rewrite He. discriminate.
  - eapply Forall_impl; [apply resolveLoop_phase |]. intros e He. rewrite He. discriminate.
Qed.

Lemma dry_run_never_terminates_witness :
  Forall (fun e => phase e <> AutoTerminate)
    (monitorLoopFrom
       (exampleConfig
          {| config.Enabled := true; config.After := 1 * Minute; config.DryRun := true;
             config.ExcludeApps := []; config.ExcludeIPs := [];
             config.ProtectedApps := [] |})
       [twoSessions] daemon0).2.
Proof. apply dry_run_never_terminates. right. reflexivity. Defined.

Lemma autoTerminate_calls (cfg : config.Config) (cyc : Cycle)
    (conn : postgres.Connection) (d : Duration) (e : Effect) :
  In e (autoTerminate cfg cyc conn d) ->
  config.Enabled (config.AutoTerm cfg) = true /\
  config.DryRun (config.AutoTerm cfg) = false /\
  config.After (config.AutoTerm cfg) <= d /\
  shouldTerminate cfg conn d = true /\
  (e = callTerminateBackend (postgres.PID conn) \/
   e = sendTerminationAlert (postgres.PID conn) (postgres.ApplicationName conn) d
         "auto-terminate threshold exceeded" /\
   TerminateBackend cyc (postgres.PID conn) = Ok true).
Proof.
  unfold autoTerminate.
  destruct (config.Enabled (config.AutoTerm cfg)); [| intros []].
  destruct (Z.leb_spec (config.After (config.AutoTerm cfg)) d); [| intros []].
  cbn [andb]. destruct (shouldTerminate cfg conn d); [| intros []].
  destruct (config.DryRun (config.AutoTerm cfg)); [intros [] |].
  intros [<- | Hin]; [repeat split; auto |].
  destruct (TerminateBackend cyc (postgres.PID conn)) as [[|] | msg];
    [destruct Hin as [<- | []] | destruct Hin | destruct Hin].
  repeat split; auto.
Qed.

Lemma shouldTerminate_not_excluded (cfg : config.Config) (conn : postgres.Connection)
    (d : Duration) :
  shouldTerminate cfg conn d = true ->
  ~ In (postgres.ApplicationName conn) (config.ExcludeApps (config.AutoTerm cfg)) /\
  ~ In (postgres.ClientAddr conn) (config.ExcludeIPs (config.AutoTerm cfg)) /\
  (forall q, In q (config.ProtectedApps (config.AutoTerm cfg)) ->
     config.Name q = postgres.ApplicationName conn ->
     config.RequireConfirmation q = true ->
     exists q', In q' (config.ProtectedApps (config.AutoTerm cfg)) /\
                config.Name q' = postgres.ApplicationName conn /\
                config.RequireConfirmation q' = false /\
                config.MinIdleDuration q' <= d).
Proof.
  unfold shouldTerminate.
  destruct (existsb _ (config.ExcludeApps _)) eqn:Ea; [discriminate |].
  destruct (existsb _ (config.ExcludeIPs _)) eqn:Ei; [discriminate |].
  intros Hloop. split; [apply existsb_eqb_not_In; exact Ea |].
  split; [apply existsb_eqb_not_In; exact Ei |].
  induction (config.ProtectedApps (config.AutoTerm cfg)) as [| a apps IH];
    intros q Hq Hname Hrc; [destruct Hq |].
  cbn [protectedLoop] in Hloop.
  destruct (String.eqb_spec (postgres.ApplicationName conn) (config.Name a)) as [Ea' | Ea'].
  - destruct (config.RequireConfirmation a) eqn:Hra; [discriminate |].
    destruct (Z.ltb_spec d (config.MinIdleDuration a)); [discriminate |].
    exists a. repeat split; auto. left. reflexivity.
  - destruct Hq as [-> | Hq]; [congruence |].
    destruct (IH Hloop q Hq Hname Hrc) as (q' & Hq' & H1 & H2 & H3).
    exists q'. repeat split; auto. right. exact Hq'.
Qed.

Lemma connLoop_origin (cfg : config.Config) (cyc : Cycle)
    (conns : list postgres.Connection) (e : Effect) :
  forall (n : nat) (tbl : gmap Z trackedIdle) (seen : gset Z),
    In e (connLoop cfg cyc conns n tbl seen).2 ->
    exists (conn : postgres.Connection) (k : nat) (tbl' : gmap Z trackedIdle),
      In conn conns /\
      In e (handleConn cfg cyc conn k tbl').2 /\
      (forall e', In e' (handleConn cfg cyc conn k tbl').2 ->
                  In e' (connLoop cfg cyc conns n tbl seen).2).
Proof.
  induction conns as [| conn rest IH]; intros n tbl seen; [intros [] |].
  rewrite connLoop_cons. cbv zeta. cbn [fst snd]. intros Hin.
  apply in_app_or in Hin. destruct Hin as [Hin | Hin].
  - exists conn, n, tbl. split; [left; reflexivity |]. split; [exact Hin |].
    intros e' He'. apply in_or_app. left. exact He'.
  - destruct (IH _ _ _ Hin) as (conn' & k & tbl' & Hc & He & Hincl).
    exists conn', k, tbl'. split; [right; exact Hc |]. split; [exact He |].
    intros e' He'. apply in_or_app. right. apply Hincl. exact He'.
Qed.

Lemma pollAndAlert_origin (cfg : config.Config) (cyc : Cycle) (d : Daemon) (e : Effect) :
  phase e = SessionIdle \/ phase e = AutoTerminate ->
  In e (pollAndAlert cfg cyc d).2 ->
  exists (conns : list postgres.Connection) (conn : postgres.Connection) (k : nat)
         (tbl' : gmap Z trackedIdle),
    GetIdleTransactions cyc = Ok conns /\
    In conn conns /\
    In e (handleConn cfg cyc conn k tbl').2 /\
    (forall e', In e' (handleConn cfg cyc conn k tbl').2 ->
                In e' (pollAndAlert cfg cyc d).2).
Proof.
  intros Hph. rewrite pollAndAlert_eq.
  destruct (GetPoolStats cyc) as [stats | msg]; [| intros []].
  destruct (checkPool_out cfg cyc stats 0 (cooldown d)) as (Hpool & _).
  assert (Hnp : ~ In e (checkPool cfg cyc stats 0 (cooldown d)).2).
  { intros Hin. rewrite Forall_forall in Hpool. apply list_elem_of_In in Hin.
    specialize (Hpool e Hin). destruct Hph as [H | H]; congruence. }
  destruct (GetIdleTransactions cyc) as [conns | msg]; cbv zeta; cbn [snd];
    [| intros Hin; contradiction].
  intros Hin. apply in_app_or in Hin. destruct Hin as [Hin | Hin]; [contradiction |].
  apply in_app_or in Hin. destruct Hin as [Hin | Hin].
  - destruct (connLoop_origin cfg cyc conns e _ _ _ Hin)
      as (conn & k & tbl' & Hc & He & Hincl).
    exists conns, conn, k, tbl'. repeat split; auto.
    intros e' He'. apply in_or_app. right. apply in_or_app. left. apply Hincl, He'.
  - exfalso.
    pose proof (resolveLoop_phase cyc
      (connLoop cfg cyc conns (checkPool cfg cyc stats 0 (cooldown d)).1.1 (tracked d) ∅).1.2
      (rangeTracked cyc
         (connLoop cfg cyc conns (checkPool cfg cyc stats 0 (cooldown d)).1.1
            (tracked d) ∅).1.1.2)
      (connLoop cfg cyc conns (checkPool cfg cyc stats 0 (cooldown d)).1.1
         (tracked d) ∅).1.1.1
      (connLoop cfg cyc conns (checkPool cfg cyc stats 0 (cooldown d)).1.1
         (tracked d) ∅).1.1.2) as Hres.
    rewrite Forall_forall in Hres. apply list_elem_of_In in Hin.
    specialize (Hres e Hin). destruct Hph as [H | H]; congruence.
Qed.

Lemma handleConn_terminate_origin (cfg : config.Config) (cyc : Cycle)
    (conn : postgres.Connection) (k : nat) (tbl : gmap Z trackedIdle) (e : Effect) :
  phase e = AutoTerminate ->
  In e (handleConn cfg cyc conn k tbl).2 ->
  In e (autoTerminate cfg cyc conn (postgres.IdleDuration (Now cyc k) conn)).
Proof.
  intros Hph. destruct (handleConn_eq cfg cyc conn k tbl) as (n' & tc' & -> & _).
  cbn [snd]. intros Hin. apply in_app_or in Hin. destruct Hin as [Hin | Hin]; [| exact Hin].
  exfalso. pose proof (idleAlerts_phase conn
    (postgres.IdleDuration (Now cyc k) conn)
    (negb (warned tbl (postgres.PID conn)) &&
       (config.Warning (config.IdleTransaction (config.Thresholds cfg))
          <=? postgres.IdleDuration (Now cyc k) conn))
    (negb (escalated tbl (postgres.PID conn)) &&
       (config.Critical (config.IdleTransaction (config.Thresholds cfg))
          <=? postgres.IdleDuration (Now cyc k) conn))) as Hidle.
  rewrite Forall_forall in Hidle. apply list_elem_of_In in Hin.
  destruct (Hidle e Hin) as [H _]. congruence.
Qed.

(** X4: every call of [TerminateBackend] made in a cycle is for a backend
    of the snapshot fetched in that cycle, with auto-terminate enabled and
    not in dry-run mode, whose measured idle duration has reached the
    [After] threshold, and whose application name and client address are
    on neither exclusion list. *)
Theorem terminate_calls_are_justified :
  forall (cfg : config.Config) (cyc : Cycle) (d : Daemon) (p : Z),
    In (callTerminateBackend p) (pollAndAlert cfg cyc d).2 ->
    config.Enabled (config.AutoTerm cfg) = true /\
    config.DryRun (config.AutoTerm cfg) = false /\
    exists (conns : list postgres.Connection) (conn : postgres.Connection) (k : nat),
      GetIdleTransactions cyc = Ok conns /\
      In conn conns /\
      postgres.PID conn = p /\
      config.After (config.AutoTerm cfg) <= postgres.IdleDuration (Now cyc k) conn /\
      ~ In (postgres.ApplicationName conn) (config.ExcludeApps (config.AutoTerm cfg)) /\
      ~ In (postgres.ClientAddr conn) (config.ExcludeIPs (config.AutoTerm cfg)) /\
      shouldTerminate cfg conn (postgres.IdleDuration (Now cyc k) conn) = true.
Proof.
  intros cfg cyc d p Hin.
  destruct (pollAndAlert_origin cfg cyc d (callTerminateBackend p) (or_intror eq_refl) Hin)
    as (conns & conn & k & tbl' & Hfetch & Hc & He & _).
  apply handleConn_terminate_origin in He; [| reflexivity].
  destruct (autoTerminate_calls cfg cyc conn _ _ He) as (Hen & Hdry & Hafter & Hshould & Hcase).
  destruct (shouldTerminate_not_excluded cfg conn _ Hshould) as (Happ & Hip & _).
  split; [exact Hen |]. split; [exact Hdry |].
  exists conns, conn, k. repeat split; auto.
  destruct Hcase as [Heq | [Heq _]]; [| discriminate]. congruence.
Qed.

Lemma terminate_calls_are_justified_witness :
  config.Enabled (config.AutoTerm (exampleConfig autoTermOn)) = true /\
  config.DryRun (config.AutoTerm (exampleConfig autoTermOn)) = false /\
  exists (conns : list postgres.Connection) (conn : postgres.Connection) (k : nat),
    GetIdleTransactions twoSessions = Ok conns /\
    In conn conns /\
    postgres.PID conn = 2 /\
    config.After (config.AutoTerm (exampleConfig autoTermOn))
      <= postgres.IdleDuration (Now twoSessions k) conn /\
    ~ In (postgres.ApplicationName conn)
         (config.ExcludeApps (config.AutoTerm (exampleConfig autoTermOn))) /\
    ~ In (postgres.ClientAddr conn)
         (config.ExcludeIPs (config.AutoTerm (exampleConfig autoTermOn))) /\
    shouldTerminate (exampleConfig autoTermOn) conn
      (postgres.IdleDuration (Now twoSessions k) conn) = true.
Proof.
  apply (terminate_calls_are_justified (exampleConfig autoTermOn) twoSessions daemon0 2).
  vm_compute. auto 20.
Defined.

(** X5: a termination alert is sent only for a backend of the snapshot
    whose [TerminateBackend] call was made in the same cycle and returned
    success; it carries the session's application name, the measured idle
    duration and the fixed reason text. *)
Theorem termination_alert_only_after_success :
  forall (cfg : config.Config) (cyc : Cycle) (d : Daemon) (p : Z) (app : string)
         (dur : Duration) (reason : string),
    In (sendTerminationAlert p app dur reason) (pollAndAlert cfg cyc d).2 ->
    In (callTerminateBackend p) (pollAndAlert cfg cyc d).2 /\
    TerminateBackend cyc p = Ok true /\
    reason = "auto-terminate threshold exceeded" /\
    exists (conns : list postgres.Connection) (conn : postgres.Connection) (k : nat),
      GetIdleTransactions cyc = Ok conns /\
      In conn conns /\
      postgres.PID conn = p /\
      postgres.ApplicationName conn = app /\
      postgres.IdleDuration (Now cyc k) conn = dur.
Proof.
  intros cfg cyc d p app dur reason Hin.
  destruct (pollAndAlert_origin cfg cyc d (sendTerminationAlert p app dur reason)
              (or_intror eq_refl) Hin)
    as (conns & conn & k & tbl' & Hfetch & Hc & He & Hincl).
  apply handleConn_terminate_origin in He; [| reflexivity].
  destruct (autoTerminate_calls cfg cyc conn _ _ He)
    as (Hen & Hdry & Hafter & Hshould & [Heq | [Heq Hok]]); [discriminate |].
  injection Heq as -> -> -> ->.
  split.
  - apply Hincl. destruct (handleConn_eq cfg cyc conn k tbl') as (n' & tc' & -> & _).
    cbn [snd]. apply in_or_app. right. unfold autoTerminate.
    rewrite Hen, Hdry, Hshould. apply Z.leb_le in Hafter. rewrite Hafter.
    left. reflexivity.
  - split; [exact Hok |]. split; [reflexivity |].
    exists conns, conn, k. repeat split; auto.
Qed.

Lemma termination_alert_only_after_success_witness :
  In (callTerminateBackend 1) (pollAndAlert (exampleConfig autoTermOn) twoSessions daemon0).2 /\
  TerminateBackend twoSessions 1 = Ok true.
Proof.
  destruct (termination_alert_only_after_success (exampleConfig autoTermOn) twoSessions
              daemon0 1 "webapp" (10 * Minute) "auto-terminate threshold exceeded")
    as (Hcall & Hok & _).
  - vm_compute. auto 20.
  - split; [exact Hcall | exact Hok].
Defined.

(** ** Where an idle-transaction alert comes from *)

(** X6: every idle-transaction alert of a cycle is about a session of the
    snapshot fetched in that cycle: it carries that session's PID,
    application name and full query text, and the idle duration measured
    in the cycle, which has reached the threshold of the alert's
    severity. *)
Theorem idle_alerts_are_justified :
  forall (cfg : config.Config) (cyc : Cycle) (d : Daemon) (severity : string) (p : Z)
         (app : string) (dur : Duration) (q : string),
    In (sendIdleTransactionAlert severity p app dur q) (pollAndAlert cfg cyc d).2 ->
    exists (conns : list postgres.Connection) (conn : postgres.Connection) (k : nat),
      GetIdleTransactions cyc = Ok conns /\
      In conn conns /\
      postgres.PID conn = p /\
      postgres.ApplicationName conn = app /\
      postgres.Query conn = q /\
      postgres.IdleDuration (Now cyc k) conn = dur /\
      (severity = alerts.SeverityWarning /\
       config.Warning (config.IdleTransaction (config.Thresholds cfg)) <= dur \/
       severity = alerts.SeverityCritical /\
       config.Critical (config.IdleTransaction (config.Thresholds cfg)) <= dur).
Proof.
  intros cfg cyc d severity p app dur q Hin.
  destruct (pollAndAlert_origin cfg cyc d (sendIdleTransactionAlert severity p app dur q)
              (or_introl eq_refl) Hin)
    as (conns & conn & k & tbl' & Hfetch & Hc & He & _).
  exists conns, conn, k. split; [exact Hfetch |]. split; [exact Hc |].
  destruct (handleConn_eq cfg cyc conn k tbl') as (n' & tc' & Heq & _).
  rewrite Heq in He. cbn [snd] in He.
  apply in_app_or in He. destruct He as [He | He].
  - apply in_app_or in He. destruct He as [He | He].
    + destruct (negb _) in He; [| destruct He].
      destruct (Z.leb_spec (config.Warning (config.IdleTransaction (config.Thresholds cfg)))
                  (postgres.IdleDuration (Now cyc k) conn)) as [Hle | Hlt];
        [| destruct He].
      destruct He as [He | []]. unfold warningAlert in He.
      injection He as <- <- <- <- <-. repeat split; auto.
    + destruct (negb _) in He; [| destruct He].
      destruct (Z.leb_spec (config.Critical (config.IdleTransaction (config.Thresholds cfg)))
                  (postgres.IdleDuration (Now cyc k) conn)) as [Hle | Hlt];
        [| destruct He].
      destruct He as [He | []]. unfold criticalAlert in He.
      injection He as <- <- <- <- <-. repeat split; auto.
  - exfalso.
    pose proof (autoTerminate_phase cfg cyc conn (postgres.IdleDuration (Now cyc k) conn))
      as Hterm.
    rewrite Forall_forall in Hterm. apply list_elem_of_In in He.
    destruct (Hterm _ He) as [H _]. discriminate.
Qed.

Lemma idle_alerts_are_justified_witness :
  exists (conns : list postgres.Connection) (conn : postgres.Connection) (k : nat),
    GetIdleTransactions twoSessions = Ok conns /\
    In conn conns /\
    postgres.PID conn = 2 /\
    postgres.ApplicationName conn = "webapp" /\
    postgres.Query conn = "UPDATE accounts SET balance = balance - 100" /\
    postgres.IdleDuration (Now twoSessions k) conn = 10 * Minute /\
    (alerts.SeverityCritical = alerts.SeverityWarning /\
     config.Warning (config.IdleTransaction (config.Thresholds (exampleConfig autoTermOff)))
       <= 10 * Minute \/
     alerts.SeverityCritical = alerts.SeverityCritical /\
     config.Critical (config.IdleTransaction (config.Thresholds (exampleConfig autoTermOff)))
       <= 10 * Minute).
Proof.
  apply (idle_alerts_are_justified (exampleConfig autoTermOff) twoSessions daemon0
           alerts.SeverityCritical 2 "webapp" (10 * Minute)
           "UPDATE accounts SET balance = balance - 100").
  vm_compute. auto 20.
Defined.

(** ** Auto-terminate does not interfere with alerting *)

Lemma filter_keeps (A : Type) (f : A -> bool) (l : list A) :
  Forall (fun x => f x = true) l -> List.filter f l = l.
Proof.
  induction 1 as [| x l Hx _ IH]; [reflexivity |].
  cbn [List.filter]. rewrite Hx, IH. reflexivity.
Qed.

Lemma filter_drops (A : Type) (f : A -> bool) (l : list A) :
  Forall (fun x => f x = false) l -> List.filter f l = [].
Proof.
  induction 1 as [| x l Hx _ IH]; [reflexivity |].
  cbn [List.filter]. rewrite Hx, IH. reflexivity.
Qed.

Lemma poolSeverity_same (cfg cfg' : config.Config) (x : float) :
  sameThresholds cfg cfg' -> poolSeverity cfg x = poolSeverity cfg' x.
Proof. intros [H _]. unfold poolSeverity. rewrite H. reflexivity. Qed.

Lemma checkPool_same (cfg cfg' : config.Config) (cyc cyc' : Cycle)
    (stats : postgres.PoolStats) (n : nat) (a : alertCooldown) :
  sameThresholds cfg cfg' -> sameObservations cyc cyc' ->
  checkPool cfg cyc stats n a = checkPool cfg' cyc' stats n a.
Proof.
  intros Hcfg (Hnow & _). unfold checkPool.
  rewrite (poolSeverity_same cfg cfg' _ Hcfg), Hnow.
  destruct Hcfg as [_ ->]. reflexivity.
Qed.

Lemma checkIdle_same (cfg cfg' : config.Config) (conn : postgres.Connection)
    (d : Duration) (tc : trackedIdle) :
  sameThresholds cfg cfg' -> checkIdle cfg conn d tc = checkIdle cfg' conn d tc.
Proof. intros [H _]. unfold checkIdle. rewrite H. reflexivity. Qed.

Lemma lookupOrTrack_same (cyc cyc' : Cycle) (conn : postgres.Connection) (n : nat)
    (tbl : gmap Z trackedIdle) :
  sameObservations cyc cyc' -> lookupOrTrack cyc conn n tbl = lookupOrTrack cyc' conn n tbl.
Proof. intros (Hnow & _). unfold lookupOrTrack. rewrite Hnow. reflexivity. Qed.

Lemma checkIdle_phase (cfg : config.Config) (conn : postgres.Connection) (d : Duration)
    (tc : trackedIdle) :
  Forall (fun e => phase e = SessionIdle) (checkIdle cfg conn d tc).2.
Proof.
  rewrite checkIdle_eq. cbn [snd].
  eapply Forall_impl; [apply idleAlerts_phase |]. intros e [He _]. exact He.
Qed.

Lemma handleConn_same (cfg cfg' : config.Config) (cyc cyc' : Cycle)
    (conn : postgres.Connection) (n : nat) (tbl : gmap Z trackedIdle) :
  sameThresholds cfg cfg' -> sameObservations cyc cyc' ->
  (handleConn cfg cyc conn n tbl).1 = (handleConn cfg' cyc' conn n tbl).1 /\
  List.filter notAutoTerminate (handleConn cfg cyc conn n tbl).2 =
  List.filter notAutoTerminate (handleConn cfg' cyc' conn n tbl).2.
Proof.
  intros Hcfg Hcyc. rewrite !handleConn_unfold. cbv zeta. cbn [fst snd].
  rewrite <- (lookupOrTrack_same cyc cyc' conn (S n) tbl Hcyc).
  destruct Hcyc as (Hnow & _). rewrite <- Hnow.
  rewrite <- (checkIdle_same cfg cfg' conn _ _ Hcfg).
  split; [reflexivity |].
  rewrite !List.filter_app. f_equal.
  rewrite !(filter_drops _ notAutoTerminate (autoTerminate _ _ _ _)); [reflexivity | |].
  - eapply Forall_impl; [apply autoTerminate_phase |].
    intros e [He _]. unfold notAutoTerminate. rewrite He. reflexivity.
  - eapply Forall_impl; [apply autoTerminate_phase |].
    intros e [He _]. unfold notAutoTerminate. rewrite He. reflexivity.
Qed.

Lemma connLoop_same (cfg cfg' : config.Config) (cyc cyc' : Cycle)
    (conns : list postgres.Connection) :
  sameThresholds cfg cfg' -> sameObservations cyc cyc' ->
  forall (n : nat) (tbl : gmap Z trackedIdle) (seen : gset Z),
    (connLoop cfg cyc conns n tbl seen).1 = (connLoop cfg' cyc' conns n tbl seen).1 /\
    List.filter notAutoTerminate (connLoop cfg cyc conns n tbl seen).2 =
    List.filter notAutoTerminate (connLoop cfg' cyc' conns n tbl seen).2.
Proof.
  intros Hcfg Hcyc. induction conns as [| conn rest IH]; intros n tbl seen;
    [split; reflexivity |].
  rewrite !connLoop_cons. cbv zeta. cbn [fst snd].
  destruct (handleConn_same cfg cfg' cyc cyc' conn n tbl Hcfg Hcyc) as [H1 H2].
  rewrite <- H1.
  destruct (IH (handleConn cfg cyc conn n tbl).1.1 (handleConn cfg cyc conn n tbl).1.2
              ({[postgres.PID conn]} ∪ seen)) as [I1 I2].
  split.
  - rewrite <- I1. reflexivity.
  - rewrite !List.filter_app, H2, I2. reflexivity.
Qed.

Lemma resolveLoop_same (cyc cyc' : Cycle) (seen : gset Z) (items : list (Z * trackedIdle)) :
  sameObservations cyc cyc' ->
  forall (n : nat) (tbl : gmap Z trackedIdle),
    resolveLoop cyc seen items n tbl = resolveLoop cyc' seen items n tbl.
Proof.
  intros (Hnow & _). induction items as [| [p tc] rest IH]; intros n tbl; [reflexivity |].
  rewrite !resolveLoop_cons. destruct (bool_decide (p ∈ seen)); [apply IH |].
  cbv zeta. rewrite IH. unfold resolvedAlert. rewrite Hnow. reflexivity.
Qed.

Lemma pollAndAlert_same (cfg cfg' : config.Config) (cyc cyc' : Cycle) (d : Daemon) :
  sameThresholds cfg cfg' -> sameObservations cyc cyc' ->
  (pollAndAlert cfg cyc d).1 = (pollAndAlert cfg' cyc' d).1 /\
  List.filter notAutoTerminate (pollAndAlert cfg cyc d).2 =
  List.filter notAutoTerminate (pollAndAlert cfg' cyc' d).2.
Proof.
  intros Hcfg Hcyc. rewrite !pollAndAlert_eq.
  pose proof Hcyc as (Hnow & Hpool & Hidle & Hrange).
  rewrite <- Hpool, <- Hidle.
  destruct (GetPoolStats cyc) as [stats | msg]; [| split; reflexivity].
  rewrite <- (checkPool_same cfg cfg' cyc cyc' stats 0 (cooldown d) Hcfg Hcyc).
  destruct (GetIdleTransactions cyc) as [conns | msg]; cbv zeta; cbn [fst snd];
    [| split; reflexivity].
  destruct (connLoop_same cfg cfg' cyc cyc' conns Hcfg Hcyc
              (checkPool cfg cyc stats 0 (cooldown d)).1.1 (tracked d) ∅) as [L1 L2].
  rewrite <- L1, <- Hrange.
  rewrite <- (resolveLoop_same cyc cyc' _ _ Hcyc).
  split; [reflexivity |].
  rewrite !List.filter_app, L2. reflexivity.
Qed.

(** X7: the auto-terminate settings and the results of
    [TerminateBackend] change nothing else: two runs that differ only in
    those end in the same state (cooldown gate and tracked table) and
    make the same alert calls, in the same order, apart from the
    terminate calls and termination alerts themselves.  In particular a
    session that pguard terminated is tracked and reported resolved like
    any other. *)
Theorem auto_terminate_does_not_interfere :
  forall (cfg cfg' : config.Config) (ticks ticks' : list Cycle) (d : Daemon),
    sameThresholds cfg cfg' ->
    Forall2 sameObservations ticks ticks' ->
    (monitorLoopFrom cfg ticks d).1 = (monitorLoopFrom cfg' ticks' d).1 /\
    List.filter notAutoTerminate (monitorLoopFrom cfg ticks d).2 =
    List.filter notAutoTerminate (monitorLoopFrom cfg' ticks' d).2.
Proof.
  intros cfg cfg' ticks ticks' d Hcfg Hticks. revert d.
  induction Hticks as [| cyc cyc' rest rest' Hcyc _ IH]; intros d; [split; reflexivity |].
  rewrite !monitorLoopFrom_cons. cbv zeta. cbn [fst snd].
  destruct (pollAndAlert_same cfg cfg' cyc cyc' d Hcfg Hcyc) as [P1 P2].
  rewrite <- P1. destruct (IH (pollAndAlert cfg cyc d).1.2) as [I1 I2].
  split; [exact I1 |].
  rewrite !List.filter_app, P2, I2. reflexivity.
Qed.

Lemma auto_terminate_does_not_interfere_witness :
  (monitorLoopFrom (exampleConfig autoTermOn) [twoSessions; goneAt (fun _ => t0)] daemon0).1 =
  (monitorLoopFrom (exampleConfig autoTermOff)
     [twoSessionsRefused; goneAt (fun _ => t0)] daemon0).1 /\
  List.filter notAutoTerminate
    (monitorLoopFrom (exampleConfig autoTermOn)
       [twoSessions; goneAt (fun _ => t0)] daemon0).2 =
  List.filter notAutoTerminate
    (monitorLoopFrom (exampleConfig autoTermOff)
       [twoSessionsRefused; goneAt (fun _ => t0)] daemon0).2.
Proof.
  apply auto_terminate_does_not_interfere.
  - split; reflexivity.
  - repeat constructor.
Defined.

(** ** The tracked table *)

Lemma handleConn_entity (cfg : config.Config) (cyc : Cycle) (conn : postgres.Connection)
    (n : nat) (tbl : gmap Z trackedIdle) :
  exists tc1 : trackedIdle,
    (handleConn cfg cyc conn n tbl).1.2 = <[postgres.PID conn := tc1]> tbl /\
    (forall tc, tbl !! postgres.PID conn = Some tc ->
       pid tc1 = pid tc /\ appName tc1 = appName tc /\
       query tc1 = query tc /\ firstSeen tc1 = firstSeen tc) /\
    (tbl !! postgres.PID conn = None ->
       pid tc1 = postgres.PID conn /\
       appName tc1 = postgres.ApplicationName conn /\
       query tc1 = util.TruncateQuery (postgres.Query conn) 100 /\
       firstSeen tc1 = Now cyc (S n)).
Proof.
  rewrite handleConn_unfold. cbv zeta. cbn [fst snd].
  eexists. split; [reflexivity |].
  rewrite checkIdle_eq. cbn [fst pid appName query firstSeen].
  unfold lookupOrTrack. split.
  - intros tc ->. cbn [snd]. repeat split; reflexivity.
  - intros ->. cbn [snd pid appName query firstSeen]. repeat split; reflexivity.
Qed.

Lemma connLoop_entity (cfg : config.Config) (cyc : Cycle)
    (conns : list postgres.Connection) :
  forall (n : nat) (tbl : gmap Z trackedIdle) (seen : gset Z) (p : Z) (tc' : trackedIdle),
    (connLoop cfg cyc conns n tbl seen).1.1.2 !! p = Some tc' ->
    (forall tc, tbl !! p = Some tc ->
       pid tc' = pid tc /\ appName tc' = appName tc /\
       query tc' = query tc /\ firstSeen tc' = firstSeen tc) /\
    (tbl !! p = None ->
       pid tc' = p /\
       exists (conn : postgres.Connection) (k : nat),
         In conn conns /\ postgres.PID conn = p /\
         appName tc' = postgres.ApplicationName conn /\
         query tc' = util.TruncateQuery (postgres.Query conn) 100 /\
         firstSeen tc' = Now cyc k).
Proof.
  induction conns as [| conn rest IH]; intros n tbl seen p tc'.
  - cbn [connLoop fst snd]. intros H. split.
    + intros tc Htc. rewrite Htc in H. injection H as <-. repeat split; reflexivity.
    + intros Hnone. rewrite Hnone in H. discriminate.
  - rewrite connLoop_cons. cbv zeta. cbn [fst snd]. intros H.
    destruct (handleConn_entity cfg cyc conn n tbl) as (tc1 & Htbl & Hold & Hnew).
    rewrite Htbl in H. destruct (IH _ _ _ _ _ H) as [IHold IHnew].
    destruct (decide (p = postgres.PID conn)) as [-> | Hne].
    + destruct (IHold tc1 (lookup_insert_eq _ _ _)) as (E1 & E2 & E3 & E4).
      split.
      * intros tc Htc. destruct (Hold tc Htc) as (F1 & F2 & F3 & F4).
        repeat split; congruence.
      * intros Hnone. destruct (Hnew Hnone) as (F1 & F2 & F3 & F4).
        split; [congruence |]. exists conn, (S n).
        split; [left; reflexivity |]. repeat split; congruence.
    + rewrite lookup_insert_ne in IHold, IHnew by congruence.
      split; [exact IHold |]. intros Hnone.
      destruct (IHnew Hnone) as (F1 & conn' & k & Hin & F2).
      split; [exact F1 |]. exists conn', k. split; [right; exact Hin | exact F2].
Qed.

(** X8: after a cycle in which both fetches succeed, the tracked table
    holds exactly the backends of the snapshot: a PID is tracked if and
    only if it is the PID of a session of the fetched list. *)
Theorem tracked_table_mirrors_snapshot :
  forall (cfg : config.Config) (cyc : Cycle) (d : Daemon) (stats : postgres.PoolStats)
         (conns : list postgres.Connection) (p : Z),
    rangeOK cyc ->
    GetPoolStats cyc = Ok stats ->
    GetIdleTransactions cyc = Ok conns ->
    is_Some (tracked (pollAndAlert cfg cyc d).1.2 !! p) <-> In p (map postgres.PID conns).
Proof.
  intros cfg cyc d stats conns p Hrange Hpool Hidle.
  rewrite pollAndAlert_eq, Hpool, Hidle. cbv zeta. cbn [fst snd tracked].
  set (pl := checkPool cfg cyc stats 0 (cooldown d)).
  set (lp := connLoop cfg cyc conns pl.1.1 (tracked d) ∅).
  destruct (connLoop_seen cfg cyc conns pl.1.1 (tracked d) ∅ p) as (Hseen & _ & Hsome & _).
  fold lp in Hseen, Hsome.
  destruct (rangeOK_items cyc lp.1.1.2 Hrange) as (Hnd & Hitem & Hkeys).
  destruct (resolveLoop_keeps cyc lp.1.2 (rangeTracked cyc lp.1.1.2) lp.1.1.1 lp.1.1.2 p)
    as [Hany Hkeep].
  destruct (decide (p ∈ lp.1.2)) as [Hp | Hp].
  - destruct (Hkeep (or_introl Hp)) as [Hlk _]. rewrite Hlk.
    apply Hseen in Hp. destruct Hp as [Hp | Hp]; [set_solver |].
    split; [intros _; exact Hp | intros _; apply Hsome, Hp].
  - assert (Hnot : ~ In p (map postgres.PID conns)).
    { intros Hin. apply Hp, Hseen. right. exact Hin. }
    split; [| intros Hin; contradiction].
    intros Hs. exfalso.
    destruct (lp.1.1.2 !! p) as [tc |] eqn:Hlk.
    + destruct (resolveLoop_resolves cyc lp.1.2 (rangeTracked cyc lp.1.1.2) Hnd
                  lp.1.1.1 lp.1.1.2 p tc) as [Hnone _]; [apply Hitem, Hlk | exact Hp |].
      rewrite Hnone in Hs. destruct Hs as [? Hs]. discriminate.
    + destruct Hany as [Hany | Hany]; rewrite Hany in Hs;
        destruct Hs as [? Hs]; discriminate.
Qed.

Lemma tracked_table_mirrors_snapshot_witness :
  is_Some (tracked (pollAndAlert (exampleConfig autoTermOff) twoSessions
                      daemon0).1.2 !! 2)
  <-> In 2 (map postgres.PID [session 1 "webapp" (t0 - 10 * Minute);
                              session 2 "webapp" (t0 - 10 * Minute)]).
Proof.
  apply (tracked_table_mirrors_snapshot (exampleConfig autoTermOff) twoSessions daemon0
           (poolOf 10)).
  - apply rangeOK_cycleAt.
  - reflexivity.
  - reflexivity.
Defined.

Lemma pollAndAlert_entity :
  forall (cfg : config.Config) (cyc : Cycle) (d : Daemon) (p : Z) (tc' : trackedIdle),
    tracked (pollAndAlert cfg cyc d).1.2 !! p = Some tc' ->
    (forall tc, tracked d !! p = Some tc ->
       pid tc' = pid tc /\ appName tc' = appName tc /\
       query tc' = query tc /\ firstSeen tc' = firstSeen tc) /\
    (tracked d !! p = None ->
       pid tc' = p /\
       exists (conns : list postgres.Connection) (conn : postgres.Connection) (k : nat),
         GetIdleTransactions cyc = Ok conns /\
         In conn conns /\ postgres.PID conn = p /\
         appName tc' = postgres.ApplicationName conn /\
         query tc' = util.TruncateQuery (postgres.Query conn) 100 /\
         firstSeen tc' = Now cyc k).
Proof.
  intros cfg cyc d p tc'. rewrite pollAndAlert_eq.
  assert (Hsame : tracked d !! p = Some tc' ->
    (forall tc, tracked d !! p = Some tc ->
       pid tc' = pid tc /\ appName tc' = appName tc /\
       query tc' = query tc /\ firstSeen tc' = firstSeen tc) /\
    (tracked d !! p = None ->
       pid tc' = p /\
       exists (conns : list postgres.Connection) (conn : postgres.Connection) (k : nat),
         GetIdleTransactions cyc = Ok conns /\
         In conn conns /\ postgres.PID conn = p /\
         appName tc' = postgres.ApplicationName conn /\
         query tc' = util.TruncateQuery (postgres.Query conn) 100 /\
         firstSeen tc' = Now cyc k)).
  { intros H. split.
    - intros tc Htc. rewrite Htc in H. injection H as <-. repeat split; reflexivity.
    - intros Hnone. rewrite Hnone in H. discriminate. }
  destruct (GetPoolStats cyc) as [stats | msg]; [| exact Hsame].
  destruct (GetIdleTransactions cyc) as [conns | msg]; cbv zeta; cbn [fst snd tracked];
    [| exact Hsame].
  clear Hsame.
  set (pl := checkPool cfg cyc stats 0 (cooldown d)).
  set (lp := connLoop cfg cyc conns pl.1.1 (tracked d) ∅).
  destruct (resolveLoop_keeps cyc lp.1.2 (rangeTracked cyc lp.1.1.2) lp.1.1.1 lp.1.1.2 p)
    as [[Hlk | Hlk] _]; rewrite Hlk; [| discriminate].
  intros H. destruct (connLoop_entity cfg cyc conns _ _ _ _ _ H) as [Hold Hnew].
  split; [exact Hold |]. intros Hnone.
  destruct (Hnew Hnone) as (F1 & conn & k & Hin & F2).
  split; [exact F1 |]. exists conns, conn, k. split; [reflexivity |]. split; assumption.
Qed.

(** X9: what the table records about a backend is fixed at its first
    observation.  After a cycle, the entity of a backend that was
    already tracked has the same PID, application name, query and
    first-seen instant as before; the entity of a newly tracked backend is
    stored under its own PID and holds the application name of a session
    of the snapshot with that PID, that session's query normalized and
    truncated to 100 bytes, and a reading of the cycle's clock. *)
Theorem tracked_entity_is_first_observation :
  forall (cfg : config.Config) (cyc : Cycle) (d : Daemon) (p : Z) (tc' : trackedIdle),
    tracked (pollAndAlert cfg cyc d).1.2 !! p = Some tc' ->
    (forall tc, tracked d !! p = Some tc ->
       pid tc' = pid tc /\ appName tc' = appName tc /\
       query tc' = query tc /\ firstSeen tc' = firstSeen tc) /\
    (tracked d !! p = None ->
       pid tc' = p /\
       exists (conns : list postgres.Connection) (conn : postgres.Connection) (k : nat),
         GetIdleTransactions cyc = Ok conns /\
         In conn conns /\ postgres.PID conn = p /\
         appName tc' = postgres.ApplicationName conn /\
         query tc' = util.TruncateQuery (postgres.Query conn) 100 /\
         firstSeen tc' = Now cyc k).
Proof. exact pollAndAlert_entity. Qed.

Lemma tracked_entity_is_first_observation_witness :
  pid (paymentEntity true true) = pid (paymentEntity true false) /\
  appName (paymentEntity true true) = appName (paymentEntity true false) /\
  query (paymentEntity true true) = query (paymentEntity true false) /\
  firstSeen (paymentEntity true true) = firstSeen (paymentEntity true false).
Proof.
  destruct (tracked_entity_is_first_observation (exampleConfig autoTermOff)
              (seenAt t0 (fun _ => t0 + 90 * Second))
              {| cooldown := cooldown0; tracked := {[ 1002 := paymentEntity true false ]} |}
              1002 (paymentEntity true true)) as [Hold _].
  - vm_compute. reflexivity.
  - apply Hold. vm_compute. reflexivity.
Defined.

(** ** Truncation of query texts *)

Lemma bytes_append (s1 s2 : string) :
  list_ascii_of_string (String.append s1 s2) =
  list_ascii_of_string s1 ++ list_ascii_of_string s2.
Proof.
  induction s1 as [| c s1 IH]; [reflexivity |].
  change (c :: list_ascii_of_string (String.append s1 s2) =
          c :: (list_ascii_of_string s1 ++ list_ascii_of_string s2)).
  rewrite IH. reflexivity.
Qed.

Lemma length_append (s1 s2 : string) :
  String.length (String.append s1 s2) = (String.length s1 + String.length s2)%nat.
Proof.
  induction s1 as [| c s1 IH]; [reflexivity |].
  change (S (String.length (String.append s1 s2)) =
          S (String.length s1 + String.length s2)).
  rewrite IH. reflexivity.
Qed.

Lemma length_prefix (s : string) (n : nat) :
  (n <= String.length s)%nat -> String.length (String.substring 0 n s) = n.
Proof.
  revert n. induction s as [| c s IH]; intros [| n] H; cbn in *; try reflexivity; [lia |].
  rewrite IH by lia. reflexivity.
Qed.

Lemma bytes_prefix (P : ascii -> Prop) (s : string) (n : nat) :
  Forall P (list_ascii_of_string s) ->
  Forall P (list_ascii_of_string (String.substring 0 n s)).
Proof.
  revert n. induction s as [| c s IH]; intros [| n] H; cbn in *; try constructor.
  - inversion H; assumption.
  - apply IH. inversion H; assumption.
Qed.

Lemma bytes_concat (P : ascii -> Prop) (sep : string) (l : list string) :
  Forall P (list_ascii_of_string sep) ->
  Forall (fun f => Forall P (list_ascii_of_string f)) l ->
  Forall P (list_ascii_of_string (String.concat sep l)).
Proof.
  intros Hsep. induction 1 as [| f l Hf Hl IH]; [constructor |].
  cbn [String.concat]. destruct l as [| g l]; [exact Hf |].
  rewrite !bytes_append. apply Forall_app. split; [exact Hf |].
  apply Forall_app. split; [exact Hsep | exact IH].
Qed.

Lemma spaceWidth_zero (c : ascii) (r : string) :
  util.spaceWidth (String c r) = 0%nat ->
  isControlSpace c = false /\ isSpaceByte c = false.
Proof.
  unfold isControlSpace, isSpaceByte. cbn [util.spaceWidth]. cbv zeta.
  destruct ((9 <=? util.byte c) && (util.byte c <=? 13)); [discriminate |].
  destruct (util.byte c =? 32); [discriminate |]. auto.
Qed.

Lemma fieldsFrom_bytes (s : string) :
  forall (skip : nat) (cur : string),
    Forall (fun c => isControlSpace c = false /\ isSpaceByte c = false)
      (list_ascii_of_string cur) ->
    Forall (fun f => Forall (fun c => isControlSpace c = false /\ isSpaceByte c = false)
                       (list_ascii_of_string f))
      (util.fieldsFrom s skip cur).
Proof.
  assert (Hflush : forall cur,
    Forall (fun c => isControlSpace c = false /\ isSpaceByte c = false)
      (list_ascii_of_string cur) ->
    Forall (fun f => Forall (fun c => isControlSpace c = false /\ isSpaceByte c = false)
                       (list_ascii_of_string f))
      (util.flush cur)).
  { intros [| c r] H; constructor; [exact H | constructor]. }
  induction s as [| c r IH]; intros skip cur Hcur; [apply Hflush, Hcur |].
  cbn [util.fieldsFrom]. destruct skip as [| k]; [| apply IH, Hcur].
  destruct (util.spaceWidth (String c r)) as [| k] eqn:Hw.
  - apply IH. rewrite bytes_append. apply Forall_app. split; [exact Hcur |].
    constructor; [apply (spaceWidth_zero c r Hw) | constructor].
  - apply Forall_app. split; [apply Hflush, Hcur |]. apply IH. constructor.
Qed.

Lemma normalized_single_line (s : string) :
  singleLine (util.Join (util.Fields s) " ").
Proof.
  unfold singleLine, util.Join, util.Fields. apply bytes_concat.
  - repeat constructor.
  - eapply Forall_impl; [apply fieldsFrom_bytes; constructor |].
    intros f Hf. eapply Forall_impl; [exact Hf |]. intros c [Hc _]. exact Hc.
Qed.

Lemma TruncateQuery_props :
  forall (s : string) (maxLen : Z),
    3 <= maxLen ->
    Z.of_nat (String.length (util.Truncate s maxLen)) <= maxLen /\
    Z.of_nat (String.length (util.TruncateQuery s maxLen)) <= maxLen /\
    singleLine (util.TruncateQuery s maxLen).
Proof.
  intros s maxLen Hmax.
  assert (Hlen : forall x, Z.of_nat (String.length (util.Truncate x maxLen)) <= maxLen).
  { intros x. unfold util.Truncate.
    destruct (Z.leb_spec (Z.of_nat (String.length x)) maxLen) as [Hle | Hgt]; [exact Hle |].
    rewrite length_append, length_prefix by lia. cbn [String.length]. lia. }
  split; [apply Hlen |]. split; [apply Hlen |].
  unfold util.TruncateQuery, util.Truncate.
  destruct (Z.of_nat (String.length (util.Join (util.Fields s) " ")) <=? maxLen).
  - apply normalized_single_line.
  - unfold singleLine. rewrite bytes_append. apply Forall_app. split.
    + apply bytes_prefix, normalized_single_line.
    + repeat constructor.
Qed.

(** X10: for a bound of at least three bytes, [Truncate] returns a
    string of at most [maxLen] bytes, and [TruncateQuery] returns a
    string of at most [maxLen] bytes that has no tab and no line break in
    it, whatever the query text is. *)
Theorem TruncateQuery_bounded_single_line :
  forall (s : string) (maxLen : Z),
    3 <= maxLen ->
    Z.of_nat (String.length (util.Truncate s maxLen)) <= maxLen /\
    Z.of_nat (String.length (util.TruncateQuery s maxLen)) <= maxLen /\
    singleLine (util.TruncateQuery s maxLen).
Proof. exact TruncateQuery_props. Qed.

Lemma TruncateQuery_bounded_single_line_witness :
  Z.of_nat (String.length (util.Truncate "SELECT pg_sleep(600)" 10)) <= 10 /\
  Z.of_nat (String.length (util.TruncateQuery "SELECT pg_sleep(600)" 10)) <= 10 /\
  singleLine (util.TruncateQuery "SELECT pg_sleep(600)" 10).
Proof. apply TruncateQuery_bounded_single_line. lia. Defined.

(** ** Well-formed entities *)

Lemma monitorLoopFrom_entities (cfg : config.Config) (all : list Cycle) (ticks : list Cycle) :
  (forall cyc, In cyc ticks -> In cyc all) ->
  forall d : Daemon,
    (forall p tc, tracked d !! p = Some tc ->
       pid tc = p /\
       Z.of_nat (String.length (query tc)) <= 100 /\
       singleLine (query tc) /\
       exists (cyc : Cycle) (k : nat), In cyc all /\ firstSeen tc = Now cyc k) ->
    forall p tc, tracked (monitorLoopFrom cfg ticks d).1 !! p = Some tc ->
       pid tc = p /\
       Z.of_nat (String.length (query tc)) <= 100 /\
       singleLine (query tc) /\
       exists (cyc : Cycle) (k : nat), In cyc all /\ firstSeen tc = Now cyc k.
Proof.
  induction ticks as [| cyc rest IH]; intros Hall d Hinv; [exact Hinv |].
  rewrite monitorLoopFrom_cons. cbv zeta. cbn [fst].
  apply IH; [intros c Hc; apply Hall; right; exact Hc |].
  intros p tc' Hlk.
  destruct (pollAndAlert_entity cfg cyc d p tc' Hlk) as [Hold Hnew].
  destruct (tracked d !! p) as [tc |] eqn:Hd.
  - destruct (Hold tc eq_refl) as (E1 & _ & E3 & E4).
    destruct (Hinv p tc Hd) as (I1 & I2 & I3 & c & k & Hc & I4).
    rewrite E1, E3, E4. repeat split; auto. exists c, k. split; assumption.
  - destruct (Hnew eq_refl) as (E1 & conns & conn & k & _ & _ & _ & _ & E3 & E4).
    destruct (TruncateQuery_props (postgres.Query conn) 100) as (_ & T1 & T2); [lia |].
    rewrite E3. repeat split; auto.
    exists cyc, k. split; [apply Hall; left; reflexivity | exact E4].
Qed.

(** X11: at any point of a run of the daemon, every entity of the
    tracked table is stored under its own PID, its query text is at most
    100 bytes long and has no tab or line break in it, and its first-seen
    instant is a reading of the clock made in one of the cycles of the
    run. *)
Theorem tracked_entities_well_formed :
  forall (cfg : config.Config) (ticks : list Cycle) (a : alertCooldown) (p : Z)
         (tc : trackedIdle),
    tracked (monitorLoop cfg ticks a).1 !! p = Some tc ->
    pid tc = p /\
    Z.of_nat (String.length (query tc)) <= 100 /\
    singleLine (query tc) /\
    exists (cyc : Cycle) (k : nat), In cyc ticks /\ firstSeen tc = Now cyc k.
Proof.
  intros cfg ticks a p tc. unfold monitorLoop.
  apply (monitorLoopFrom_entities cfg ticks ticks); [auto |].
  cbn [tracked]. intros q tq Hq. rewrite lookup_empty in Hq. discriminate.
Qed.

Lemma tracked_entities_well_formed_witness :
  pid (paymentEntity true true) = 1002 /\
  Z.of_nat (String.length (query (paymentEntity true true))) <= 100 /\
  singleLine (query (paymentEntity true true)) /\
  exists (cyc : Cycle) (k : nat),
    In cyc [seenAt t0 (fun _ => t0); seenAt t0 (fun _ => t0 + 90 * Second)] /\
    firstSeen (paymentEntity true true) = Now cyc k.
Proof.
  apply (tracked_entities_well_formed (exampleConfig autoTermOff)
           [seenAt t0 (fun _ => t0); seenAt t0 (fun _ => t0 + 90 * Second)] cooldown0).
  vm_compute. reflexivity.
Defined.

(** ** No session past a threshold goes unreported *)

Lemma warned_lookup (tbl tbl' : gmap Z trackedIdle) (p : Z) :
  tbl' !! p = tbl !! p ->
  warned tbl' p = warned tbl p /\ escalated tbl' p = escalated tbl p.
Proof. intros H. unfold warned, escalated. rewrite H. split; reflexivity. Qed.

(** X12: the daemon misses no session.  After a cycle of which both
    fetches succeed, every session of the fetched list whose idle
    duration has reached the warning threshold has its warning flag set,
    and if the flag was not set before the cycle then exactly one warning
    alert was sent for its PID in the cycle; likewise for the critical
    threshold and the critical alert. *)
Theorem no_session_goes_unreported :
  forall (cfg : config.Config) (cyc : Cycle) (d : Daemon) (stats : postgres.PoolStats)
         (conns : list postgres.Connection) (conn : postgres.Connection),
    GetPoolStats cyc = Ok stats ->
    GetIdleTransactions cyc = Ok conns ->
    In conn conns ->
    let p := postgres.PID conn in
    let r := pollAndAlert cfg cyc d in
    ((forall k, config.Warning (config.IdleTransaction (config.Thresholds cfg))
                <= postgres.IdleDuration (Now cyc k) conn) ->
     warned (tracked r.1.2) p = true /\
     (warned (tracked d) p = false ->
      countIdleAlerts alerts.SeverityWarning p r.2 = 1%nat)) /\
    ((forall k, config.Critical (config.IdleTransaction (config.Thresholds cfg))
                <= postgres.IdleDuration (Now cyc k) conn) ->
     escalated (tracked r.1.2) p = true /\
     (escalated (tracked d) p = false ->
      countIdleAlerts alerts.SeverityCritical p r.2 = 1%nat)).
Proof.
  intros cfg cyc d stats conns conn Hpool Hidle Hin. cbv zeta.
  assert (Hpresent : presentIn (postgres.PID conn) cyc).
  { intros stats' conns' _ Hidle'. rewrite Hidle in Hidle'. injection Hidle' as <-.
    apply in_map, Hin. }
  destruct (pollAndAlert_counts cfg cyc d (postgres.PID conn) Hpresent) as [Hcw Hcc].
  cbv zeta in Hcw, Hcc.
  assert (Hflags :
    ((forall k, config.Warning (config.IdleTransaction (config.Thresholds cfg))
                <= postgres.IdleDuration (Now cyc k) conn) ->
     warned (tracked (pollAndAlert cfg cyc d).1.2) (postgres.PID conn) = true) /\
    ((forall k, config.Critical (config.IdleTransaction (config.Thresholds cfg))
                <= postgres.IdleDuration (Now cyc k) conn) ->
     escalated (tracked (pollAndAlert cfg cyc d).1.2) (postgres.PID conn) = true)).
  { rewrite pollAndAlert_eq, Hpool, Hidle. cbv zeta. cbn [fst snd tracked].
    set (pl := checkPool cfg cyc stats 0 (cooldown d)).
    destruct (connLoop_reaches cfg cyc conns pl.1.1 (tracked d) ∅ conn Hin) as [Hw Hc].
    cbv zeta in Hw, Hc.
    destruct (connLoop_seen cfg cyc conns pl.1.1 (tracked d) ∅ (postgres.PID conn))
      as (Hseen & _). cbv zeta in Hseen.
    set (lp := connLoop cfg cyc conns pl.1.1 (tracked d) ∅) in *.
    destruct (resolveLoop_keeps cyc lp.1.2 (rangeTracked cyc lp.1.1.2) lp.1.1.1 lp.1.1.2
                (postgres.PID conn)) as [_ Hkeep]. cbv zeta in Hkeep.
    destruct Hkeep as [Hlk _].
    { left. apply Hseen. right. apply in_map, Hin. }
    destruct (warned_lookup _ _ _ Hlk) as [-> ->]. split; assumption. }
  destruct Hflags as [Hw Hc]. split.
  - intros H. specialize (Hw H). split; [exact Hw |]. intros Hbefore.
    rewrite Hw, Hbefore in Hcw. cbn [Nat.b2n] in Hcw. lia.
  - intros H. specialize (Hc H). split; [exact Hc |]. intros Hbefore.
    rewrite Hc, Hbefore in Hcc. cbn [Nat.b2n] in Hcc. lia.
Qed.

Lemma no_session_goes_unreported_witness :
  escalated (tracked (pollAndAlert (exampleConfig autoTermOff) twoSessions daemon0).1.2) 2
    = true /\
  countIdleAlerts alerts.SeverityCritical 2
    (pollAndAlert (exampleConfig autoTermOff) twoSessions daemon0).2 = 1%nat.
Proof.
  destruct (no_session_goes_unreported (exampleConfig autoTermOff) twoSessions daemon0
              (poolOf 10)
              [session 1 "webapp" (t0 - 10 * Minute); session 2 "webapp" (t0 - 10 * Minute)]
              (session 2 "webapp" (t0 - 10 * Minute)) eq_refl eq_refl)
    as [_ Hc].
  - right. left. reflexivity.
  - destruct Hc as [Hflag Hcount].
    + intros k. vm_compute. discriminate.
    + split; [exact Hflag | apply Hcount; reflexivity].
Defined.

(** ** The exit code of the status command *)

Lemma statusPool_cases (cfg : config.Config) (x : float) :
  statusPool cfg x =
  match poolSeverity cfg x with
  | Some severity =>
      if String.eqb severity alerts.SeverityCritical then (ExitCritical, "critical")
      else (ExitWarning, "warning")
  | None => (ExitOK, "ok")
  end.
Proof.
  unfold statusPool, poolSeverity.
  destruct (_ <=? x)%float; [reflexivity |].
  destruct (_ <=? x)%float; reflexivity.
Qed.

Lemma statusIdleLoop_spec (cfg : config.Config) (now : nat -> Time)
    (idle : list postgres.Connection) :
  forall (n : nat) (st : Z * string),
    st = (ExitOK, "ok") \/ st = (ExitWarning, "warning") \/ st = (ExitCritical, "critical") ->
    let crit := exists (i : nat) (conn : postgres.Connection),
      idle !! i = Some conn /\
      config.Critical (config.IdleTransaction (config.Thresholds cfg))
        <= postgres.IdleDuration (now (n + i)%nat) conn in
    let warn := exists (i : nat) (conn : postgres.Connection),
      idle !! i = Some conn /\
      config.Warning (config.IdleTransaction (config.Thresholds cfg))
        <= postgres.IdleDuration (now (n + i)%nat) conn in
    let r := statusIdleLoop cfg now idle n st in
    (crit -> r = (ExitCritical, "critical")) /\
    (~ crit -> warn -> st = (ExitOK, "ok") -> r = (ExitWarning, "warning")) /\
    (~ crit -> st <> (ExitOK, "ok") -> r = st) /\
    (~ crit -> ~ warn -> r = st) /\
    (st = (ExitCritical, "critical") -> r = st).
Proof.
  induction idle as [| conn rest IH]; intros n st Hst; cbv zeta.
  - cbn [statusIdleLoop]. repeat split.
    + intros (i & c & H & _). rewrite lookup_nil in H. discriminate.
    + intros _ (i & c & H & _). rewrite lookup_nil in H. discriminate.
  - cbn [statusIdleLoop]. cbv zeta.
    destruct (Z.leb_spec (config.Critical (config.IdleTransaction (config.Thresholds cfg)))
                (postgres.IdleDuration (now n) conn)) as [Hc | Hc].
    { assert (Hcrit : exists (i : nat) (c : postgres.Connection),
        (conn :: rest) !! i = Some c /\
        config.Critical (config.IdleTransaction (config.Thresholds cfg))
          <= postgres.IdleDuration (now (n + i)%nat) c).
      { exists 0%nat, conn. rewrite Nat.add_0_r. split; [reflexivity | exact Hc]. }
      repeat split; intros; try reflexivity; try contradiction. congruence. }
    assert (Hshift : forall (T : Duration),
      (exists (i : nat) (c : postgres.Connection),
         (conn :: rest) !! i = Some c /\
         T <= postgres.IdleDuration (now (n + i)%nat) c) <->
      T <= postgres.IdleDuration (now n) conn \/
      exists (i : nat) (c : postgres.Connection),
         rest !! i = Some c /\ T <= postgres.IdleDuration (now (S n + i)%nat) c).
    { intros T. split.
      - intros ([| i] & c & Hlk & HT).
        + left. cbn in Hlk. injection Hlk as <-. rewrite Nat.add_0_r in HT. exact HT.
        + right. exists i, c. cbn in Hlk. split; [exact Hlk |].
          replace (S n + i)%nat with (n + S i)%nat by lia. exact HT.
      - intros [HT | (i & c & Hlk & HT)].
        + exists 0%nat, conn. rewrite Nat.add_0_r. split; [reflexivity | exact HT].
        + exists (S i), c. split; [exact Hlk |].
          replace (n + S i)%nat with (S n + i)%nat by lia. exact HT. }
    rewrite !Hshift.
    destruct (Z.leb_spec (config.Warning (config.IdleTransaction (config.Thresholds cfg)))
                (postgres.IdleDuration (now n) conn)) as [Hw | Hw].
    + destruct (IH (S n) (if st.1 <? ExitWarning then (ExitWarning, "warning") else st))
        as (I1 & I2 & I3 & I4 & I5).
      { destruct Hst as [-> | [-> | ->]]; cbn; auto. }
      cbv zeta in I1, I2, I3, I4. repeat split.
      * intros [H | H]; [lia | apply I1, H].
      * intros Hn _ ->. rewrite I3; [reflexivity | tauto | discriminate].
      * intros Hn Hne. rewrite I3; [| tauto |].
        -- destruct Hst as [-> | [-> | ->]]; [congruence | reflexivity | reflexivity].
        -- destruct Hst as [-> | [-> | ->]]; discriminate.
      * intros _ Hn. exfalso. apply Hn. left. exact Hw.
      * intros ->. apply I5. reflexivity.
    + destruct (IH (S n) st Hst) as (I1 & I2 & I3 & I4 & I5).
      cbv zeta in I1, I2, I3, I4. repeat split.
      * intros [H | H]; [lia | apply I1, H].
      * intros Hn [H | H] Hok; [lia |]. apply I2; tauto.
      * intros Hn Hne. apply I3; tauto.
      * intros Hn Hm. apply I4; tauto.
      * exact I5.
Qed.



(** * The watch command *)

Lemma watch_flagRun_app (l1 l2 : list Notice) :
  forall st,
    watch.flagRun st (l1 ++ l2) =
    match watch.flagRun st l1 with
    | Some st' => watch.flagRun st' l2
    | None => None
    end.
Proof.
  induction l1 as [| n l1 IH]; intros st; [reflexivity |].
  cbn [watch.flagRun app]. destruct (watch.flagStep st n); [apply IH | reflexivity].
Qed.

Lemma watch_notices_app (p : Z) (l1 l2 : list watch.LogLine) :
  watch.notices p (l1 ++ l2) = watch.notices p l1 ++ watch.notices p l2.
Proof. unfold watch.notices. rewrite List.filter_app, map_app. reflexivity. Qed.

Lemma watch_handleConn_flags (cfg : config.Config) (cyc : Cycle)
    (conn : postgres.Connection) (n : nat) (tbl : gmap Z trackedIdle) :
  let h := watch.handleConn cfg cyc conn n tbl in
  let p := postgres.PID conn in
  watch.flagRun (watch.flagsOf tbl p) (watch.notices p h.2) = Some (watch.flagsOf h.1.2 p) /\
  is_Some (h.1.2 !! p) /\
  (forall q, q <> p ->
     h.1.2 !! q = tbl !! q /\ List.filter (watch.aboutLine q) h.2 = []).
Proof.
  cbv zeta. unfold watch.handleConn, watch.track, watch.checkCrossings, watch.logEvent,
    watch.flagsOf, warned, escalated, watch.notices.
  set (d := postgres.IdleDuration (Now cyc n) conn).
  destruct (tbl !! postgres.PID conn) as [[p0 a0 q0 f0 w0 c0] |] eqn:E;
    cbn [warningSent criticalSent pid appName query firstSeen];
    destruct (config.Warning (config.IdleTransaction (config.Thresholds cfg)) <=? d);
    destruct (config.Critical (config.IdleTransaction (config.Thresholds cfg)) <=? d);
    try destruct w0; try destruct c0;
    cbn [negb andb fst snd app List.filter watch.aboutLine watch.message map
         warningSent criticalSent];
    rewrite ?Z.eqb_refl, ?lookup_insert_eq;
    cbn [map warningSent criticalSent];
    (split; [reflexivity |]); (split; [eexists; reflexivity |]);
    intros q Hq; (split; [apply lookup_insert_ne; congruence |]);
    assert (Hne : (postgres.PID conn =? q) = false) by (apply Z.eqb_neq; congruence);
    rewrite ?Hne; reflexivity.
Qed.

Lemma watch_connLoop_cons (cfg : config.Config) (cyc : Cycle) (conn : postgres.Connection)
    (rest : list postgres.Connection) (n : nat) (tbl : gmap Z trackedIdle) (seen : gset Z) :
  watch.connLoop cfg cyc (conn :: rest) n tbl seen =
  let h := watch.handleConn cfg cyc conn n tbl in
  let r := watch.connLoop cfg cyc rest h.1.1 h.1.2 ({[postgres.PID conn]} ∪ seen) in
  (r.1.1.1, r.1.1.2, r.1.2, h.2 ++ r.2).
Proof.
  cbn [watch.connLoop]. cbv zeta.
  destruct (watch.handleConn cfg cyc conn n tbl) as [[n1 tbl1] out1]. cbn [fst snd].
  destruct (watch.connLoop cfg cyc rest n1 tbl1 _) as [[[n2 tbl2] seen2] out2].
  reflexivity.
Qed.

Lemma watch_flagsOf_lookup (tbl tbl' : gmap Z trackedIdle) (p : Z) :
  tbl' !! p = tbl !! p -> watch.flagsOf tbl' p = watch.flagsOf tbl p.
Proof. intros H. unfold watch.flagsOf, warned, escalated. rewrite H. reflexivity. Qed.

Lemma watch_notices_silent (p : Z) (out : list watch.LogLine) :
  List.filter (watch.aboutLine p) out = [] -> watch.notices p out = [].
Proof. intros H. unfold watch.notices. rewrite H. reflexivity. Qed.

Lemma watch_connLoop_flags (cfg : config.Config) (cyc : Cycle)
    (conns : list postgres.Connection) :
  forall (n : nat) (tbl : gmap Z trackedIdle) (seen : gset Z) (p : Z),
    let r := watch.connLoop cfg cyc conns n tbl seen in
    watch.flagRun (watch.flagsOf tbl p) (watch.notices p r.2)
      = Some (watch.flagsOf r.1.1.2 p) /\
    (p ∈ r.1.2 <-> p ∈ seen \/ In p (map postgres.PID conns)) /\
    (In p (map postgres.PID conns) -> is_Some (r.1.1.2 !! p)) /\
    (~ In p (map postgres.PID conns) ->
     r.1.1.2 !! p = tbl !! p /\ List.filter (watch.aboutLine p) r.2 = []).
Proof.
  induction conns as [| conn rest IH]; intros n tbl seen p; cbv zeta.
  - cbn [watch.connLoop fst snd map]. split; [reflexivity |].
    split; [cbn [In]; tauto |]. split; [intros [] |]. intros _. split; reflexivity.
  - rewrite watch_connLoop_cons. cbv zeta. cbn [fst snd map].
    destruct (watch_handleConn_flags cfg cyc conn n tbl) as (Hrun & Hsome & Hother).
    cbv zeta in Hrun, Hsome, Hother.
    set (h := watch.handleConn cfg cyc conn n tbl) in *.
    destruct (IH h.1.1 h.1.2 ({[postgres.PID conn]} ∪ seen) p) as (I1 & I2 & I3 & I4).
    cbv zeta in I1, I2, I3, I4.
    set (r := watch.connLoop cfg cyc rest h.1.1 h.1.2 ({[postgres.PID conn]} ∪ seen)) in *.
    assert (Hflags : watch.flagRun (watch.flagsOf tbl p) (watch.notices p h.2)
                     = Some (watch.flagsOf h.1.2 p)).
    { destruct (decide (p = postgres.PID conn)) as [-> | Hne]; [exact Hrun |].
      destruct (Hother p Hne) as [Hlk Hsil].
      rewrite (watch_notices_silent p _ Hsil), (watch_flagsOf_lookup _ _ _ Hlk).
      reflexivity. }
    split; [| split; [| split]].
    + rewrite watch_notices_app, watch_flagRun_app, Hflags. exact I1.
    + rewrite I2, elem_of_union, elem_of_singleton. cbn [In].
      assert (Hsym : p = postgres.PID conn <-> postgres.PID conn = p)
        by (split; congruence).
      tauto.
    + intros [Heq | Hin]; [| apply I3, Hin].
      destruct (in_dec Z.eq_dec p (map postgres.PID rest)) as [Hin | Hnin].
      * apply I3, Hin.
      * destruct (I4 Hnin) as [Hlk _]. rewrite Hlk, <- Heq. exact Hsome.
    + intros Hnin.
      assert (Hne : p <> postgres.PID conn) by (intros ->; apply Hnin; left; reflexivity).
      assert (Hnin' : ~ In p (map postgres.PID rest)) by (intros H; apply Hnin; right; exact H).
      destruct (I4 Hnin') as [Hlk Hsil]. destruct (Hother p Hne) as [Hlk' Hsil'].
      split; [congruence |]. rewrite List.filter_app, Hsil, Hsil'. reflexivity.
Qed.

Lemma watch_resolveLoop_cons (cyc : Cycle) (seen : gset Z) (p : Z) (tc : trackedIdle)
    (rest : list (Z * trackedIdle)) (n : nat) (tbl : gmap Z trackedIdle) :
  watch.resolveLoop cyc seen ((p, tc) :: rest) n tbl =
  if bool_decide (p ∈ seen) then watch.resolveLoop cyc seen rest n tbl
  else
    let r := watch.resolveLoop cyc seen rest (S (S n)) (delete p tbl) in
    (r.1.1, r.1.2, watch.resolvedLine cyc n p tc :: r.2).
Proof.
  cbn [watch.resolveLoop]. destruct (bool_decide (p ∈ seen)); [reflexivity |].
  cbv zeta. unfold watch.logEvent.
  destruct (watch.resolveLoop cyc seen rest (S (S n)) (delete p tbl)) as [[n2 tbl2] out2].
  reflexivity.
Qed.

Lemma watch_resolveLoop_keeps (cyc : Cycle) (seen : gset Z)
    (items : list (Z * trackedIdle)) :
  forall (n : nat) (tbl : gmap Z trackedIdle) (p : Z),
    p ∈ seen \/ p ∉ items.*1 ->
    let r := watch.resolveLoop cyc seen items n tbl in
    r.1.2 !! p = tbl !! p /\ List.filter (watch.aboutLine p) r.2 = [].
Proof.
  induction items as [| [q tc] rest IH]; intros n tbl p Hp; cbv zeta;
    [split; reflexivity |].
  rewrite watch_resolveLoop_cons.
  assert (Hrest : p ∈ seen \/ p ∉ rest.*1).
  { destruct Hp as [Hp | Hp]; [left; exact Hp |]. right. intros H. apply Hp.
    cbn [fmap list_fmap fst]. apply elem_of_cons. right. exact H. }
  destruct (bool_decide_reflect (q ∈ seen)) as [Hq | Hq]; [apply IH, Hrest |].
  cbv zeta. cbn [fst snd].
  destruct (IH (S (S n)) (delete q tbl) p Hrest) as [Hlk Hsil].
  assert (Hne : q <> p).
  { intros ->. destruct Hp as [Hp | Hp]; [contradiction |]. apply Hp.
    cbn [fmap list_fmap fst]. apply elem_of_cons. left. reflexivity. }
  split.
  - rewrite Hlk. apply lookup_delete_ne. exact Hne.
  - cbn [List.filter watch.aboutLine watch.resolvedLine watch.message].
    apply Z.eqb_neq in Hne. rewrite Hne. exact Hsil.
Qed.

Lemma watch_resolveLoop_resolves (cyc : Cycle) (seen : gset Z)
    (items : list (Z * trackedIdle)) :
  NoDup items.*1 ->
  forall (n : nat) (tbl : gmap Z trackedIdle) (p : Z) (tc : trackedIdle),
    (p, tc) ∈ items -> p ∉ seen ->
    let r := watch.resolveLoop cyc seen items n tbl in
    r.1.2 !! p = None /\
    exists k : nat, List.filter (watch.aboutLine p) r.2 = [watch.resolvedLine cyc k p tc].
Proof.
  induction items as [| [q tq] rest IH]; intros Hnd n tbl p tc Hin Hp; cbv zeta.
  - apply elem_of_nil in Hin. destruct Hin.
  - cbn [fmap list_fmap fst] in Hnd. apply NoDup_cons in Hnd. destruct Hnd as [Hq Hnd].
    rewrite watch_resolveLoop_cons. apply elem_of_cons in Hin.
    destruct Hin as [Heq | Hin].
    + injection Heq as <- <-.
      destruct (bool_decide_reflect (p ∈ seen)) as [H | _]; [contradiction |].
      cbv zeta. cbn [fst snd].
      destruct (watch_resolveLoop_keeps cyc seen rest (S (S n)) (delete p tbl) p
                  (or_intror Hq)) as [Hlk Hsil].
      split; [rewrite Hlk; apply lookup_delete_eq |].
      exists n. cbn [List.filter watch.aboutLine watch.resolvedLine watch.message].
      rewrite Z.eqb_refl, Hsil. reflexivity.
    + assert (Hne : q <> p).
      { intros ->. apply Hq. apply list_elem_of_fmap. exists (p, tc). split; auto. }
      destruct (bool_decide_reflect (q ∈ seen)) as [_ | _]; [apply IH; auto |].
      cbv zeta. cbn [fst snd].
      destruct (IH Hnd (S (S n)) (delete q tbl) p tc Hin Hp) as [Hlk [k Hk]].
      split; [exact Hlk |]. exists k.
      cbn [List.filter watch.aboutLine watch.resolvedLine watch.message].
      apply Z.eqb_neq in Hne. rewrite Hne. exact Hk.
Qed.

Lemma watch_pollOnce_eq (cfg : config.Config) (cyc : Cycle) (tbl : gmap Z trackedIdle) :
  watch.pollOnce cfg cyc tbl =
  match GetPoolStats cyc with
  | Err e => (Some e, tbl, [])
  | Ok stats =>
      match GetIdleTransactions cyc with
      | Err e => (Some e, tbl, [])
      | Ok conns =>
          let lp := watch.connLoop cfg cyc conns 0 tbl ∅ in
          let rs := watch.resolveLoop cyc lp.1.2 (rangeTracked cyc lp.1.1.2)
                      lp.1.1.1 lp.1.1.2 in
          let pr := watch.checkPressure cfg cyc stats rs.1.1 in
          (None, rs.1.2, lp.2 ++ rs.2 ++ pr.2)
      end
  end.
Proof.
  unfold watch.pollOnce. destruct (GetPoolStats cyc) as [stats | e]; [| reflexivity].
  destruct (GetIdleTransactions cyc) as [conns | e]; [| reflexivity].
  cbv zeta. destruct (watch.connLoop cfg cyc conns 0 tbl ∅) as [[[n1 tbl1] seen1] out1].
  cbn [fst snd].
  destruct (watch.resolveLoop cyc seen1 (rangeTracked cyc tbl1) n1 tbl1) as [[n2 tbl2] out2].
  cbn [fst snd]. destruct (watch.checkPressure cfg cyc stats n2) as [n3 out3].
  reflexivity.
Qed.

Lemma watch_checkPressure_cases (cfg : config.Config) (cyc : Cycle)
    (stats : postgres.PoolStats) (n : nat) :
  (watch.checkPressure cfg cyc stats n).2 =
  match poolSeverity cfg (postgres.UsagePercent stats) with
  | None => []
  | Some severity =>
      [{| watch.stamp := Now cyc n;
          watch.level :=
            if String.eqb severity alerts.SeverityCritical then "CRIT" else "WARN";
          watch.message :=
            watch.ConnectionPressure (String.eqb severity alerts.SeverityCritical)
              (postgres.TotalConnections stats)
              (sub64 (postgres.MaxConnections stats) (postgres.ReservedSuperuser stats))
              (postgres.UsagePercent stats) |}]
  end.
Proof.
  unfold watch.checkPressure, poolSeverity. cbv zeta.
  destruct (_ <=? postgres.UsagePercent stats)%float; [reflexivity |].
  destruct (_ <=? postgres.UsagePercent stats)%float; reflexivity.
Qed.

Lemma watch_checkPressure_silent (cfg : config.Config) (cyc : Cycle)
    (stats : postgres.PoolStats) (n : nat) (p : Z) :
  List.filter (watch.aboutLine p) (watch.checkPressure cfg cyc stats n).2 = [].
Proof.
  rewrite watch_checkPressure_cases.
  destruct (poolSeverity cfg (postgres.UsagePercent stats)); reflexivity.
Qed.

Lemma watch_session_lines_not_pressure (cfg : config.Config) (cyc : Cycle)
    (conns : list postgres.Connection) :
  forall (n : nat) (tbl : gmap Z trackedIdle) (seen : gset Z),
    Forall (fun l => watch.isPressure l = false /\ watch.isError l = false)
      (watch.connLoop cfg cyc conns n tbl seen).2.
Proof.
  induction conns as [| conn rest IH]; intros n tbl seen; [constructor |].
  rewrite watch_connLoop_cons. cbv zeta. cbn [snd]. apply Forall_app. split; [| apply IH].
  unfold watch.handleConn, watch.track, watch.checkCrossings, watch.logEvent.
  destruct (tbl !! postgres.PID conn) as [[p0 a0 q0 f0 w0 c0] |];
    cbn [warningSent criticalSent pid appName query firstSeen];
    destruct (config.Warning (config.IdleTransaction (config.Thresholds cfg)) <=? _);
    destruct (config.Critical (config.IdleTransaction (config.Thresholds cfg)) <=? _);
    try destruct w0; try destruct c0;
    cbn [negb andb fst snd app warningSent criticalSent];
    repeat constructor.
Qed.

Lemma watch_resolved_lines_not_pressure (cyc : Cycle) (seen : gset Z)
    (items : list (Z * trackedIdle)) :
  forall (n : nat) (tbl : gmap Z trackedIdle),
    Forall (fun l => watch.isPressure l = false /\ watch.isError l = false)
      (watch.resolveLoop cyc seen items n tbl).2.
Proof.
  induction items as [| [p tc] rest IH]; intros n tbl; [constructor |].
  rewrite watch_resolveLoop_cons. destruct (bool_decide (p ∈ seen)); [apply IH |].
  cbv zeta. cbn [snd]. constructor; [split; reflexivity | apply IH].
Qed.

Lemma watch_round_flags (cfg : config.Config) (cyc : Cycle) (tbl : gmap Z trackedIdle)
    (p : Z) :
  rangeOK cyc ->
  watch.flagRun (watch.flagsOf tbl p) (watch.notices p (watch.round cfg cyc tbl).2)
    = Some (watch.flagsOf (watch.round cfg cyc tbl).1 p).
Proof.
  intros Hrange. unfold watch.round. rewrite watch_pollOnce_eq.
  destruct (GetPoolStats cyc) as [stats | e]; [| reflexivity].
  destruct (GetIdleTransactions cyc) as [conns | e]; [| reflexivity].
  cbv zeta. cbn [fst snd].
  destruct (watch_connLoop_flags cfg cyc conns 0 tbl ∅ p) as (Hrun & Hseen & Hsome & Hnot).
  cbv zeta in Hrun, Hseen, Hsome, Hnot.
  set (lp := watch.connLoop cfg cyc conns 0 tbl ∅) in *.
  destruct (rangeOK_items cyc lp.1.1.2 Hrange) as (Hnd & Hitem & Hkeys).
  set (rs := watch.resolveLoop cyc lp.1.2 (rangeTracked cyc lp.1.1.2) lp.1.1.1 lp.1.1.2).
  rewrite !watch_notices_app, !watch_flagRun_app, Hrun.
  rewrite (watch_notices_silent p _ (watch_checkPressure_silent cfg cyc stats rs.1.1 p)).
  destruct (decide (p ∈ lp.1.2)) as [Hp | Hp].
  - destruct (watch_resolveLoop_keeps cyc lp.1.2 (rangeTracked cyc lp.1.1.2)
                lp.1.1.1 lp.1.1.2 p (or_introl Hp)) as [Hlk Hsil].
    fold rs in Hlk, Hsil.
    rewrite (watch_notices_silent p _ Hsil), (watch_flagsOf_lookup _ _ _ Hlk). reflexivity.
  - destruct (lp.1.1.2 !! p) as [tc |] eqn:Htc.
    + destruct (watch_resolveLoop_resolves cyc lp.1.2 (rangeTracked cyc lp.1.1.2) Hnd
                  lp.1.1.1 lp.1.1.2 p tc) as [Hnone [k Hk]];
        [apply Hitem, Htc | exact Hp |].
      fold rs in Hnone, Hk.
      unfold watch.notices at 1. rewrite Hk.
      unfold watch.flagsOf at 2, warned, escalated. rewrite Hnone. reflexivity.
    + destruct (watch_resolveLoop_keeps cyc lp.1.2 (rangeTracked cyc lp.1.1.2)
                  lp.1.1.1 lp.1.1.2 p) as [Hlk Hsil].
      { right. rewrite Hkeys, Htc. intros [? H]. discriminate. }
      fold rs in Hlk, Hsil.
      rewrite (watch_notices_silent p _ Hsil), (watch_flagsOf_lookup _ _ _ Hlk). reflexivity.
Qed.

Lemma watch_watchLoop_cons (cfg : config.Config) (cyc : Cycle) (rest : list Cycle)
    (tbl : gmap Z trackedIdle) :
  watch.watchLoop cfg (cyc :: rest) tbl =
  let r := watch.round cfg cyc tbl in
  let m := watch.watchLoop cfg rest r.1 in
  (m.1, r.2 ++ m.2).
Proof.
  cbn [watch.watchLoop]. destruct (watch.round cfg cyc tbl) as [tbl1 out1]. cbv zeta.
  cbn [fst snd]. destruct (watch.watchLoop cfg rest tbl1) as [tbl2 out2]. reflexivity.
Qed.

Lemma watch_watchLoop_flags (cfg : config.Config) (polls : list Cycle) (p : Z) :
  (forall cyc, In cyc polls -> rangeOK cyc) ->
  forall tbl : gmap Z trackedIdle,
    watch.flagRun (watch.flagsOf tbl p) (watch.notices p (watch.watchLoop cfg polls tbl).2)
      = Some (watch.flagsOf (watch.watchLoop cfg polls tbl).1 p).
Proof.
  induction polls as [| cyc rest IH]; intros Hrange tbl; [reflexivity |].
  rewrite watch_watchLoop_cons. cbv zeta. cbn [fst snd].
  rewrite watch_notices_app, watch_flagRun_app.
  rewrite (watch_round_flags cfg cyc tbl p) by (apply Hrange; left; reflexivity).
  apply IH. intros c Hc. apply Hrange. right. exact Hc.
Qed.

(** X14: the log of [pguard watch] about one backend.  Over a whole run,
    the warning, critical and resolved lines about a backend follow its
    two flags: a warning line (the announcement of a new idle
    transaction included) is logged only while the warning flag is down
    and raises it, likewise a critical line, and a resolved line takes
    both down; the run ends with the flags that the table holds.  So
    between two resolved lines a backend gets at most one warning line and
    at most one critical line. *)
Theorem watch_log_follows_flags :
  forall (cfg : config.Config) (polls : list Cycle) (p : Z),
    (forall cyc, In cyc polls -> rangeOK cyc) ->
    watch.flagRun (false, false) (watch.notices p (watch.runWatch cfg polls).2)
      = Some (watch.flagsOf (watch.runWatch cfg polls).1 p).
Proof.
  intros cfg polls p Hrange. unfold watch.runWatch.
  rewrite <- (watch_watchLoop_flags cfg polls p Hrange ∅).
  unfold watch.flagsOf at 1, warned, escalated. rewrite lookup_empty. reflexivity.
Qed.

Lemma watch_log_follows_flags_witness :
  watch.flagRun (false, false)
    (watch.notices 1002 (watch.runWatch (exampleConfig autoTermOff) scenario).2)
  = Some (watch.flagsOf (watch.runWatch (exampleConfig autoTermOff) scenario).1 1002).
Proof.
  apply watch_log_follows_flags.
  intros cyc [<- | [<- | [<- | []]]]; intros m; reflexivity.
Defined.

(** X15: [pguard watch] reports every tracked backend that is gone.  In
    a poll of which both fetches succeed, a tracked backend that is not
    in the snapshot gets exactly one line, a resolved line with the
    application name recorded for it and the time since it was first
    seen, and is removed from the table, whether or not a warning was
    ever logged for it. *)
Theorem watch_resolved_always_logged :
  forall (cfg : config.Config) (cyc : Cycle) (tbl : gmap Z trackedIdle)
         (stats : postgres.PoolStats) (conns : list postgres.Connection)
         (p : Z) (tc : trackedIdle),
    rangeOK cyc ->
    GetPoolStats cyc = Ok stats ->
    GetIdleTransactions cyc = Ok conns ->
    tbl !! p = Some tc ->
    ~ In p (map postgres.PID conns) ->
    (watch.pollOnce cfg cyc tbl).1.2 !! p = None /\
    exists k : nat,
      List.filter (watch.aboutLine p) (watch.pollOnce cfg cyc tbl).2
        = [watch.resolvedLine cyc k p tc].
Proof.
  intros cfg cyc tbl stats conns p tc Hrange Hpool Hidle Htc Hgone.
  rewrite watch_pollOnce_eq, Hpool, Hidle. cbv zeta. cbn [fst snd].
  destruct (watch_connLoop_flags cfg cyc conns 0 tbl ∅ p) as (_ & Hseen & _ & Hnot).
  cbv zeta in Hseen, Hnot. destruct (Hnot Hgone) as [Hlk Hsil].
  set (lp := watch.connLoop cfg cyc conns 0 tbl ∅) in *.
  destruct (rangeOK_items cyc lp.1.1.2 Hrange) as (Hnd & Hitem & Hkeys).
  assert (Hp : p ∉ lp.1.2).
  { rewrite Hseen. intros [H | H]; [set_solver | contradiction]. }
  destruct (watch_resolveLoop_resolves cyc lp.1.2 (rangeTracked cyc lp.1.1.2) Hnd
              lp.1.1.1 lp.1.1.2 p tc) as [Hnone [k Hk]];
    [apply Hitem; congruence | exact Hp |].
  split; [exact Hnone |]. exists k.
  rewrite !List.filter_app, Hsil, Hk, watch_checkPressure_silent. reflexivity.
Qed.

Lemma watch_resolved_always_logged_witness :
  (watch.pollOnce (exampleConfig autoTermOff) (goneAt (fun _ => t0 + 10 * Second))
     {[ 1002 := paymentEntity false false ]}).1.2 !! 1002 = None /\
  exists k : nat,
    List.filter (watch.aboutLine 1002)
      (watch.pollOnce (exampleConfig autoTermOff) (goneAt (fun _ => t0 + 10 * Second))
         {[ 1002 := paymentEntity false false ]}).2
    = [watch.resolvedLine (goneAt (fun _ => t0 + 10 * Second)) k 1002
         (paymentEntity false false)].
Proof.
  apply (watch_resolved_always_logged (exampleConfig autoTermOff)
           (goneAt (fun _ => t0 + 10 * Second)) {[ 1002 := paymentEntity false false ]}
           (poolOf 9) []).
  - intros m. reflexivity.
  - reflexivity.
  - reflexivity.
  - apply lookup_singleton_eq.
  - intros [].
Defined.

(** X16: [pguard watch] has no cooldown for the pool.  Every poll of
    which both fetches succeed ends with a connection-pressure line when
    the usage has reached the warning percentage (level CRIT from the
    critical percentage on, else WARN), whatever was logged before and
    whatever the table holds; no other line of the poll is a pressure
    line, and below the warning percentage there is none. *)
Theorem watch_pressure_every_poll :
  forall (cfg : config.Config) (cyc : Cycle) (tbl : gmap Z trackedIdle)
         (stats : postgres.PoolStats) (conns : list postgres.Connection),
    GetPoolStats cyc = Ok stats ->
    GetIdleTransactions cyc = Ok conns ->
    exists (before : list watch.LogLine) (k : nat),
      Forall (fun l => watch.isPressure l = false) before /\
      (watch.pollOnce cfg cyc tbl).2 =
      before ++
      match poolSeverity cfg (postgres.UsagePercent stats) with
      | None => []
      | Some severity =>
          [{| watch.stamp := Now cyc k;
              watch.level :=
                if String.eqb severity alerts.SeverityCritical then "CRIT" else "WARN";
              watch.message :=
                watch.ConnectionPressure (String.eqb severity alerts.SeverityCritical)
                  (postgres.TotalConnections stats)
                  (sub64 (postgres.MaxConnections stats) (postgres.ReservedSuperuser stats))
                  (postgres.UsagePercent stats) |}]
      end.
Proof.
  intros cfg cyc tbl stats conns Hpool Hidle.
  rewrite watch_pollOnce_eq, Hpool, Hidle. cbv zeta. cbn [snd].
  set (lp := watch.connLoop cfg cyc conns 0 tbl ∅).
  set (rs := watch.resolveLoop cyc lp.1.2 (rangeTracked cyc lp.1.1.2) lp.1.1.1 lp.1.1.2).
  exists (lp.2 ++ rs.2), rs.1.1. split.
  - apply Forall_app. split.
    + eapply Forall_impl; [apply watch_session_lines_not_pressure |]. intros l [H _]. exact H.
    + eapply Forall_impl; [apply watch_resolved_lines_not_pressure |].
      intros l [H _]. exact H.
  - rewrite watch_checkPressure_cases, <- app_assoc. reflexivity.
Qed.

Lemma watch_pressure_every_poll_witness :
  exists (before : list watch.LogLine) (k : nat),
    Forall (fun l => watch.isPressure l = false) before /\
    (watch.pollOnce (exampleConfig autoTermOff) (fullPoolAt t0) ∅).2 =
    before ++
    [{| watch.stamp := t0;
        watch.level := "CRIT";
        watch.message :=
          watch.ConnectionPressure true 97 97 (postgres.UsagePercent (poolOf 97)) |}].
Proof.
  destruct (watch_pressure_every_poll (exampleConfig autoTermOff) (fullPoolAt t0) ∅
              (poolOf 97) [] eq_refl eq_refl) as (before & k & Hbefore & Hout).
  exists before, k. split; [exact Hbefore |]. exact Hout.
Defined.

Lemma watch_watchLoop_app (cfg : config.Config) (pre post : list Cycle) :
  forall tbl : gmap Z trackedIdle,
    watch.watchLoop cfg (pre ++ post) tbl =
    let r := watch.watchLoop cfg pre tbl in
    let m := watch.watchLoop cfg post r.1 in
    (m.1, r.2 ++ m.2).
Proof.
  induction pre as [| cyc pre IH]; intros tbl; cbv zeta.
  - cbn [app watch.watchLoop fst snd].
    destruct (watch.watchLoop cfg post tbl); reflexivity.
  - rewrite <- app_comm_cons, !watch_watchLoop_cons. cbv zeta. cbn [fst snd].
    rewrite IH. cbv zeta. cbn [fst snd]. rewrite app_assoc. reflexivity.
Qed.

Lemma watch_round_failed (cfg : config.Config) (cyc : Cycle) (tbl : gmap Z trackedIdle)
    (e : string) :
  GetPoolStats cyc = Err e \/
  (exists stats, GetPoolStats cyc = Ok stats) /\ GetIdleTransactions cyc = Err e ->
  watch.round cfg cyc tbl =
  (tbl, [{| watch.stamp := Now cyc 0; watch.level := "ERROR";
            watch.message := watch.ErrorText e |}]).
Proof.
  unfold watch.round, watch.pollOnce. intros [-> | [[stats ->] ->]]; reflexivity.
Qed.

(** X17: a poll of [pguard watch] that fails leaves no trace but its
    ERROR line.  When a fetch of one poll fails, the run logs what it
    would have logged without that poll, with one ERROR line carrying the
    fetch error at the place of the failed poll, and it ends with the
    same table: no backend is forgotten, reported resolved or warned
    about again because of the failure. *)
Theorem watch_failed_poll_changes_nothing :
  forall (cfg : config.Config) (pre post : list Cycle) (cyc : Cycle) (e : string),
    GetPoolStats cyc = Err e \/
    (exists stats, GetPoolStats cyc = Ok stats) /\ GetIdleTransactions cyc = Err e ->
    exists (outPre outPost : list watch.LogLine),
      watch.runWatch cfg (pre ++ post) =
        ((watch.runWatch cfg (pre ++ cyc :: post)).1, outPre ++ outPost) /\
      (watch.runWatch cfg (pre ++ cyc :: post)).2 =
        outPre ++
        {| watch.stamp := Now cyc 0; watch.level := "ERROR";
           watch.message := watch.ErrorText e |} :: outPost /\
      outPre = (watch.runWatch cfg pre).2.
Proof.
  intros cfg pre post cyc e Hfail. unfold watch.runWatch.
  rewrite !watch_watchLoop_app. cbv zeta. rewrite watch_watchLoop_cons. cbv zeta.
  rewrite (watch_round_failed cfg cyc _ e Hfail). cbn [fst snd].
  exists (watch.watchLoop cfg pre ∅).2,
         (watch.watchLoop cfg post (watch.watchLoop cfg pre ∅).1).2.
  split; [reflexivity |]. split; reflexivity.
Qed.

Lemma watch_failed_poll_changes_nothing_witness :
  exists (outPre outPost : list watch.LogLine),
    watch.runWatch (exampleConfig autoTermOff)
      ([seenAt t0 (fun _ => t0)] ++ [goneAt (fun _ => t0 + 120 * Second)]) =
      ((watch.runWatch (exampleConfig autoTermOff)
          ([seenAt t0 (fun _ => t0)] ++
           unreachableAt (t0 + 5 * Second) :: [goneAt (fun _ => t0 + 120 * Second)])).1,
       outPre ++ outPost) /\
    (watch.runWatch (exampleConfig autoTermOff)
       ([seenAt t0 (fun _ => t0)] ++
        unreachableAt (t0 + 5 * Second) :: [goneAt (fun _ => t0 + 120 * Second)])).2 =
      outPre ++
      {| watch.stamp := Now (unreachableAt (t0 + 5 * Second)) 0; watch.level := "ERROR";
         watch.message := watch.ErrorText "connection refused" |} :: outPost /\
    outPre = (watch.runWatch (exampleConfig autoTermOff) [seenAt t0 (fun _ => t0)]).2.
Proof.
  apply watch_failed_poll_changes_nothing. left. reflexivity.
Defined.

(** ** What [logEvent] prints *)

Lemma logPrefix_length (lvl : string) : String.length (logPrefix lvl) = 3%nat.
Proof.
  unfold logPrefix.
  repeat match goal with |- context [String.eqb lvl ?s] => destruct (String.eqb lvl s) end;
    reflexivity.
Qed.

Lemma stringsRepeat_length (n : nat) : String.length (stringsRepeat " " n) = n.
Proof.
  induction n as [| n IH]; [reflexivity |].
  cbn [stringsRepeat]. rewrite length_append, IH. reflexivity.
Qed.

Lemma append_assoc (a b c : string) :
  String.append (String.append a b) c = String.append a (String.append b c).
Proof.
  induction a as [| x a IH]; [reflexivity |].
  change (String x (String.append (String.append a b) c) =
          String x (String.append a (String.append b c))).
  rewrite IH. reflexivity.
Qed.

Lemma append_empty (a : string) : String.append a EmptyString = a.
Proof.
  induction a as [| x a IH]; [reflexivity |].
  change (String x (String.append a EmptyString) = String x a). rewrite IH. reflexivity.
Qed.

Lemma splitFrom_cases (s : string) (c : ascii) :
  forall cur, exists piece rest, splitFrom s c cur = piece :: rest.
Proof.
  induction s as [| a r IH]; intros cur; cbn [splitFrom]; [eauto |].
  destruct (Ascii.eqb a c); [eauto | apply IH].
Qed.

Lemma splitFrom_join (s : string) (c : ascii) :
  forall cur,
    String.concat (String c EmptyString) (splitFrom s c cur) = String.append cur s.
Proof.
  induction s as [| a r IH]; intros cur; cbn [splitFrom].
  - cbn [String.concat]. rewrite append_empty. reflexivity.
  - destruct (Ascii.eqb_spec a c) as [-> | Hne].
    + destruct (splitFrom_cases r c EmptyString) as (piece & rest & Hsplit).
      specialize (IH EmptyString). rewrite Hsplit in *.
      cbn [String.concat]. cbn [String.concat] in IH. rewrite IH. reflexivity.
    + rewrite IH, append_assoc. reflexivity.
Qed.

Lemma splitFrom_pieces (s : string) (c : ascii) :
  forall cur,
    Forall (fun a => a <> c) (list_ascii_of_string cur) ->
    Forall (fun piece => Forall (fun a => a <> c) (list_ascii_of_string piece))
      (splitFrom s c cur).
Proof.
  induction s as [| a r IH]; intros cur Hcur; cbn [splitFrom].
  - constructor; [exact Hcur | constructor].
  - destruct (Ascii.eqb_spec a c) as [-> | Hne].
    + constructor; [exact Hcur | apply IH; constructor].
    + apply IH. rewrite bytes_append. apply Forall_app. split; [exact Hcur |].
      constructor; [exact Hne | constructor].
Qed.

Lemma printLines_aligned (timestamp lvl : string) (lines : list string) :
  forall i : nat,
    Forall2 (fun text line =>
               exists head : string,
                 text = String.append head (String.append line (String newline EmptyString))
                 /\ String.length head = (String.length timestamp + 5)%nat)
      (printLines timestamp (logPrefix lvl) i lines) lines.
Proof.
  induction lines as [| line rest IH]; intros i; cbn [printLines]; constructor; [| apply IH].
  destruct (i =? 0)%nat.
  - exists (String.append timestamp
              (String.append " " (String.append (logPrefix lvl) " "))).
    split.
    + rewrite !append_assoc. reflexivity.
    + rewrite !length_append, logPrefix_length. cbn [String.length]. lia.
  - exists (String.append (stringsRepeat " " (String.length timestamp)) "     ").
    split.
    + rewrite !append_assoc. reflexivity.
    + rewrite length_append, stringsRepeat_length. cbn [String.length]. lia.
Qed.

(** X18: what [logEvent] prints for a message of several lines.  Each
    printed text is a header, one line of the message and a line feed;
    every header is five bytes longer than the time stamp, whatever the
    level is, so the continuation lines start in the column of the first
    one; the lines are the pieces of the message between its line feeds,
    in order: none holds a line feed, and joined by line feeds they give
    the message back. *)
Theorem logEvent_lines_are_aligned :
  forall (timestamp lvl msg : string),
    let lines := stringsSplit msg newline in
    Forall2 (fun text line =>
               exists head : string,
                 text = String.append head (String.append line (String newline EmptyString))
                 /\ String.length head = (String.length timestamp + 5)%nat)
      (logEventOutput timestamp lvl msg) lines /\
    Forall (fun line => Forall (fun a => a <> newline) (list_ascii_of_string line)) lines /\
    String.concat (String newline EmptyString) lines = msg.
Proof.
  intros timestamp lvl msg. cbv zeta. split; [| split].
  - apply printLines_aligned.
  - apply splitFrom_pieces. constructor.
  - unfold stringsSplit. rewrite splitFrom_join. reflexivity.
Qed.
